(** * cheapflight-scraper: the flight scraper of [scrape_google_flights.py]

    A shallow embedding of the pure core of the scraper and of the page the
    harvest loop drives, followed by the properties of the specification.

    Conventions.
    - A Python [str] is a Rocq [string]: a sequence of characters whose code
      points are below 256.  On such text [\d] is [0-9], [[A-Za-z]] is the
      ASCII letters and [\s] is the white space listed in [is_space].
    - Python [bytes] are [list byte].
    - Python [int] is [Z]; list positions and lengths are [nat].
    - A function that can raise returns [option] when one exception type is
      possible (the doc comment names it) and [result] otherwise.
    - A [while] loop takes a fuel argument; [None] means the fuel ran out. *)

From Stdlib Require Import ZArith List Bool Lia Ascii String DecimalString.
From Stdlib Require Import Strings.Byte.
Import ListNotations.

Open Scope string_scope.
Open Scope Z_scope.

(* ================================================================= *)
(** ** Exceptions *)

Inductive exn : Type :=
| ValueError
| OverflowError
| StaleElementReferenceException.

Inductive result (A : Type) : Type :=
| Ok (a : A)
| Raise (e : exn).

Arguments Ok {A} a.
Arguments Raise {A} e.

(* ================================================================= *)
(** ** Text *)

Definition char_in (lo hi c : ascii) : bool :=
  ((lo <=? c) && (c <=? hi))%char.

(** [\d] *)
Definition is_digit (c : ascii) : bool := char_in "0" "9" c.

(** [[A-Za-z]] *)
Definition is_alpha (c : ascii) : bool := char_in "A" "Z" c || char_in "a" "z" c.

(** [str.isspace] and [\s] on code points below 256: tab, line feed, vertical
    tab, form feed, carriage return, the separators 0x1c-0x1f, space, NEL and
    the no-break space. *)
Definition is_space (c : ascii) : bool :=
  let n := N_of_ascii c in
  ((9 <=? n) && (n <=? 13) || (28 <=? n) && (n <=? 32) || (n =? 133) || (n =? 160))%N.

Definition digit_val (c : ascii) : Z := Z.of_N (N_of_ascii c) - 48.

(** [str.lower] on one character: ASCII capitals and the Latin-1 capitals
    0xC0-0xDE (0xD7, the multiplication sign, apart). *)
Definition lower_char (c : ascii) : ascii :=
  let n := N_of_ascii c in
  if ((65 <=? n) && (n <=? 90) || (192 <=? n) && (n <=? 222) && negb (n =? 215))%N
  then ascii_of_N (n + 32) else c.

Fixpoint lower (s : string) : string :=
  match s with
  | EmptyString => EmptyString
  | String c r => String (lower_char c) (lower r)
  end.

Fixpoint str_all (p : ascii -> bool) (s : string) : bool :=
  match s with
  | EmptyString => true
  | String c r => p c && str_all p r
  end.

(** The longest prefix of [s] whose characters satisfy [p], and the rest. *)
Fixpoint span (p : ascii -> bool) (s : string) : string * string :=
  match s with
  | EmptyString => (EmptyString, EmptyString)
  | String c r =>
      if p c then let '(a, b) := span p r in (String c a, b)
      else (EmptyString, s)
  end.

Fixpoint lstrip (p : ascii -> bool) (s : string) : string :=
  match s with
  | EmptyString => EmptyString
  | String c r => if p c then lstrip p r else s
  end.

Fixpoint rstrip (p : ascii -> bool) (s : string) : string :=
  match s with
  | EmptyString => EmptyString
  | String c r =>
      match rstrip p r with
      | EmptyString => if p c then EmptyString else String c EmptyString
      | r' => String c r'
      end
  end.

(** [s.strip()] *)
Definition strip (s : string) : string := rstrip is_space (lstrip is_space s).

(** [s] without its prefix [p], when it has it. *)
Fixpoint strip_prefix (p s : string) : option string :=
  match p, s with
  | EmptyString, _ => Some s
  | String a p', String b s' => if (a =? b)%char then strip_prefix p' s' else None
  | String _ _, EmptyString => None
  end.

(** The text before and after the first occurrence of [sub] in [s]. *)
Fixpoint find_sub (sub s : string) : option (string * string) :=
  match strip_prefix sub s with
  | Some rest => Some (EmptyString, rest)
  | None =>
      match s with
      | EmptyString => None
      | String c r =>
          match find_sub sub r with
          | Some (a, b) => Some (String c a, b)
          | None => None
          end
      end
  end.

(** [sub in s] *)
Definition contains (sub s : string) : bool :=
  match find_sub sub s with Some _ => true | None => false end.

Fixpoint split_fuel (fuel : nat) (sep s : string) : list string :=
  match fuel with
  | O => [s]
  | S fuel' =>
      match find_sub sep s with
      | None => [s]
      | Some (a, rest) => a :: split_fuel fuel' sep rest
      end
  end.

(** [s.split(sep)] for a non-empty separator: every piece removes at least one
    character, so [length s] rounds are enough. *)
Definition split (sep s : string) : list string := split_fuel (String.length s) sep s.

(** [s.replace(old, new)] for single characters. *)
Fixpoint replace_char (old new : ascii) (s : string) : string :=
  match s with
  | EmptyString => EmptyString
  | String c r => String (if (c =? old)%char then new else c) (replace_char old new r)
  end.

Fixpoint repeat_char (c : ascii) (n : nat) : string :=
  match n with
  | O => EmptyString
  | S n' => String c (repeat_char c n')
  end.

Definition str_nonempty (s : string) : bool :=
  match s with EmptyString => false | String _ _ => true end.

(** [str(n)] for an [int]. *)
Definition str_of_int (n : Z) : string := NilZero.string_of_int (Z.to_int n).

(** ["%0<w>d" % n] for [0 <= n]: zeros on the left up to width [w]. *)
Definition zero_pad (w : nat) (n : Z) : string :=
  let s := str_of_int n in
  repeat_char "0" (w - String.length s) ++ s.

Fixpoint digits_value (acc : Z) (after_digit : bool) (s : string) : option Z :=
  match s with
  | EmptyString => if after_digit then Some acc else None
  | String c r =>
      if is_digit c then digits_value (10 * acc + digit_val c) true r
      else if (c =? "_")%char && after_digit then digits_value acc false r
      else None
  end.

(** The white space [int] strips: [is_space] without the separators
    0x1c-0x1f. *)
Definition is_int_space (c : ascii) : bool :=
  let n := N_of_ascii c in
  ((9 <=? n) && (n <=? 13) || (n =? 32) || (n =? 133) || (n =? 160))%N.

(** [int(s)]: white space around, an optional sign, decimal digits with single
    underscores between them.  [None] is [ValueError]. *)
Definition int_of_str (s : string) : option Z :=
  match rstrip is_int_space (lstrip is_int_space s) with
  | String "-" r => option_map Z.opp (digits_value 0 false r)
  | String "+" r => digits_value 0 false r
  | t => digits_value 0 false t
  end.

(** [sys.int_info.default_max_str_digits] *)
Definition MAX_STR_DIGITS : nat := 4300.

Fixpoint count_digits (s : string) : nat :=
  match s with
  | EmptyString => O
  | String c r => if is_digit c then S (count_digits r) else count_digits r
  end.

(** [int(s)] with its limit on the number of digits, which Python has had
    since 3.11: a text with more digits is a [ValueError] too. *)
Definition int_of_text (s : string) : option Z :=
  if (MAX_STR_DIGITS <? count_digits s)%nat then None else int_of_str s.

(* ================================================================= *)
(** ** Calendar: [datetime.date]

    A [datetime] that the program builds always has its time at midnight, so
    it is modelled by its [date]. *)

Record date : Type := mkdate { year : Z; month : Z; day : Z }.

Definition MINYEAR : Z := 1.
Definition MAXYEAR : Z := 9999.
Definition MAXORDINAL : Z := 3652059.

Definition is_leap (y : Z) : bool :=
  (y mod 4 =? 0) && (negb (y mod 100 =? 0) || (y mod 400 =? 0)).

Definition DAYS_IN_MONTH (m : Z) : Z :=
  match m with
  | 1 => 31 | 2 => 28 | 3 => 31 | 4 => 30 | 5 => 31 | 6 => 30
  | 7 => 31 | 8 => 31 | 9 => 30 | 10 => 31 | 11 => 30 | 12 => 31
  | _ => -1
  end.

Definition DAYS_BEFORE_MONTH (m : Z) : Z :=
  match m with
  | 1 => 0 | 2 => 31 | 3 => 59 | 4 => 90 | 5 => 120 | 6 => 151
  | 7 => 181 | 8 => 212 | 9 => 243 | 10 => 273 | 11 => 304 | 12 => 334
  | _ => -1
  end.

Definition days_before_year (y : Z) : Z :=
  let y' := y - 1 in y' * 365 + y' / 4 - y' / 100 + y' / 400.

Definition days_in_month (y m : Z) : Z :=
  if (m =? 2) && is_leap y then 29 else DAYS_IN_MONTH m.

Definition days_before_month (y m : Z) : Z :=
  DAYS_BEFORE_MONTH m + (if (2 <? m) && is_leap y then 1 else 0).

Definition ymd2ord (y m d : Z) : Z :=
  days_before_year y + days_before_month y m + d.

Definition DI400Y : Z := 146097.
Definition DI100Y : Z := 36524.
Definition DI4Y : Z := 1461.

Definition ord2ymd (n : Z) : date :=
  let n := n - 1 in
  let n400 := n / DI400Y in
  let n := n mod DI400Y in
  let y := n400 * 400 + 1 in
  let n100 := n / DI100Y in
  let n := n mod DI100Y in
  let n4 := n / DI4Y in
  let n := n mod DI4Y in
  let n1 := n / 365 in
  let n := n mod 365 in
  let y := y + n100 * 100 + n4 * 4 + n1 in
  if (n1 =? 4) || (n100 =? 4) then mkdate (y - 1) 12 31
  else
    let leapyear := (n1 =? 3) && (negb (n4 =? 24) || (n100 =? 3)) in
    let m := Z.shiftr (n + 50) 5 in
    let preceding := DAYS_BEFORE_MONTH m + (if (2 <? m) && leapyear then 1 else 0) in
    if n <? preceding then
      let m := m - 1 in
      let preceding :=
        preceding - (DAYS_IN_MONTH m + (if (m =? 2) && leapyear then 1 else 0)) in
      mkdate y m (n - preceding + 1)
    else mkdate y m (n - preceding + 1).

Definition valid_ymd (y m d : Z) : bool :=
  (MINYEAR <=? y) && (y <=? MAXYEAR) && (1 <=? m) && (m <=? 12)
  && (1 <=? d) && (d <=? days_in_month y m).

Definition valid_date (t : date) : bool := valid_ymd (year t) (month t) (day t).

(** [date(y, m, d)]; [None] is [ValueError]. *)
Definition date_new (y m d : Z) : option date :=
  if valid_ymd y m d then Some (mkdate y m d) else None.

Definition toordinal (t : date) : Z := ymd2ord (year t) (month t) (day t).

Definition fromordinal (n : Z) : date := ord2ymd n.

(** [t + timedelta(days=n)]; [None] is [OverflowError]. *)
Definition add_days (t : date) (n : Z) : option date :=
  let o := toordinal t + n in
  if (0 <? o) && (o <=? MAXORDINAL) then Some (fromordinal o) else None.

(** [t.weekday()]: Monday is 0. *)
Definition weekday (t : date) : Z := (toordinal t + 6) mod 7.

(** [a < b]: dates compare as the triples (year, month, day). *)
Definition date_ltb (a b : date) : bool :=
  (year a <? year b)
  || (year a =? year b)
     && ((month a <? month b) || (month a =? month b) && (day a <? day b)).

Definition date_eqb (a b : date) : bool :=
  (year a =? year b) && (month a =? month b) && (day a =? day b).

(** [t.isoformat()], that is ["%04d-%02d-%02d"]. *)
Definition isoformat (t : date) : string :=
  zero_pad 4 (year t) ++ "-" ++ zero_pad 2 (month t) ++ "-" ++ zero_pad 2 (day t).

(** Exactly [k] decimal digits in front of [s]: their value and the rest. *)
Fixpoint take_digits (k : nat) (acc : Z) (s : string) : option (Z * string) :=
  match k with
  | O => Some (acc, s)
  | S k' =>
      match s with
      | String c r => if is_digit c then take_digits k' (10 * acc + digit_val c) r else None
      | EmptyString => None
      end
  end.

(** [datetime.fromisoformat(s)] on the extended calendar form [YYYY-MM-DD],
    the only form the program passes (every argument is an [isoformat]
    result).  [None] is [ValueError]. *)
Definition fromisoformat (s : string) : option date :=
  match take_digits 4 0 s with
  | Some (y, String "-" s1) =>
      match take_digits 2 0 s1 with
      | Some (m, String "-" s2) =>
          match take_digits 2 0 s2 with
          | Some (d, EmptyString) => date_new y m d
          | _ => None
          end
      | _ => None
      end
  | _ => None
  end.

(* ================================================================= *)
(** ** Date labels: [date_to_label], [label_to_date]

    Weekday and month names are those of the C locale. *)

Definition day_abbr : list string :=
  ["Mon"; "Tue"; "Wed"; "Thu"; "Fri"; "Sat"; "Sun"].

Definition day_name : list string :=
  ["Monday"; "Tuesday"; "Wednesday"; "Thursday"; "Friday"; "Saturday"; "Sunday"].

Definition month_abbr : list string :=
  ["Jan"; "Feb"; "Mar"; "Apr"; "May"; "Jun"; "Jul"; "Aug"; "Sep"; "Oct"; "Nov"; "Dec"].

Definition month_name : list string :=
  ["January"; "February"; "March"; "April"; "May"; "June"; "July"; "August";
   "September"; "October"; "November"; "December"].

(** Full ([%A], [%B]) or abbreviated ([%a], [%b]) names. *)
Inductive name_style : Type := Full | Abbrev.

Definition weekday_names (st : name_style) : list string :=
  match st with Full => day_name | Abbrev => day_abbr end.

Definition month_names (st : name_style) : list string :=
  match st with Full => month_name | Abbrev => month_abbr end.

(** [target.strftime('%a')] *)
Definition strftime_a (target : date) : string :=
  nth (Z.to_nat (weekday target)) day_abbr "".

(** [target.strftime('%b')] *)
Definition strftime_b (target : date) : string :=
  nth (Z.to_nat (month target - 1)) month_abbr "".

Definition date_to_label (target : date) : string :=
  strftime_a target ++ ", " ++ strftime_b target ++ " " ++ str_of_int (day target).

(** The position of [s] among [names], letter case ignored as [strptime]
    ignores it. *)
Fixpoint name_index (names : list string) (s : string) : option Z :=
  match names with
  | [] => None
  | n :: rest =>
      if (lower n =? lower s)%string then Some 0
      else option_map Z.succ (name_index rest s)
  end.

(** [datetime.strptime(s, '%b').month] and, for [Full], [... '%B' ...]: the
    whole of [s] is a month name.  [None] is [ValueError]. *)
Definition strptime_month (st : name_style) (s : string) : option Z :=
  option_map Z.succ (name_index (month_names st) s).

(** The month and the day that [label_to_date] reads in a label (lines
    150-162).  [None] is [ValueError]. *)
Definition label_month_day (label : string) : option (Z * Z) :=
  match split ", " label with
  | [_dow; month_day] =>
      match split " " month_day with
      | [month_name; day_str] =>
          let month :=
            match strptime_month Abbrev month_name with
            | Some m => Some m
            | None => strptime_month Full month_name
            end in
          match month with
          | Some m =>
              match int_of_str day_str with
              | Some d => Some (m, d)
              | None => None
              end
          | None => None
          end
      | _ => None
      end
  | _ => None
  end.

(** [None] is [ValueError]. *)
Definition label_to_date (label : string) (year : Z) : option date :=
  match label_month_day label with
  | Some (m, d) => date_new year m d
  | None => None
  end.

(* ================================================================= *)
(** ** Dates in the descriptive label of a card *)

(** The pattern [on ([A-Za-z]+, [A-Za-z]+ \d{1,2})] at the start of [s]: its
    group 1.  A run of letters is followed by a character that is no letter,
    so the greedy match is the only one. *)
Definition match_on_date (s : string) : option string :=
  match strip_prefix "on " s with
  | None => None
  | Some r0 =>
      let '(w, r1) := span is_alpha r0 in
      if negb (str_nonempty w) then None
      else
        match strip_prefix ", " r1 with
        | None => None
        | Some r2 =>
            let '(m, r3) := span is_alpha r2 in
            if negb (str_nonempty m) then None
            else
              match r3 with
              | String " " (String d1 r4) =>
                  if is_digit d1 then
                    let ds :=
                      match r4 with
                      | String d2 _ =>
                          if is_digit d2 then String d1 (String d2 EmptyString)
                          else String d1 EmptyString
                      | EmptyString => String d1 EmptyString
                      end in
                    Some (w ++ ", " ++ m ++ " " ++ ds)%string
                  else None
              | _ => None
              end
        end
  end.

(** [re.search] of that pattern: the leftmost match. *)
Fixpoint search_on_date (s : string) : option string :=
  match match_on_date s with
  | Some g => Some g
  | None =>
      match s with
      | EmptyString => None
      | String _ r => search_on_date r
      end
  end.

(** The day of the month under [%d]: one or two digits, from 1 to 31. *)
Definition parse_day (tok : string) : option Z :=
  if str_all is_digit tok
     && ((String.length tok =? 1)%nat || (String.length tok =? 2)%nat)
  then
    match digits_value 0 false tok with
    | Some d => if (1 <=? d) && (d <=? 31) then Some d else None
    | None => None
    end
  else None.

Definition not_space (c : ascii) : bool := negb (is_space c).

(** [datetime.strptime(s, fmt + " %Y").date()] for the formats
    ["%A, %B %d"], ["%A, %b %d"], ["%a, %B %d"] and ["%a, %b %d"]: a weekday
    name of style [wst], a comma, white space, a month name of style [mst],
    white space, the day, white space, a year of four digits, and nothing
    after it.  The weekday is read and not compared with the date.  [None] is
    [ValueError]. *)
Definition strptime_date (wst mst : name_style) (s : string) : option date :=
  match find_sub "," s with
  | None => None
  | Some (w, r1) =>
      match name_index (weekday_names wst) w with
      | None => None
      | Some _ =>
          let '(ws1, r2) := span is_space r1 in
          let '(mtok, r3) := span not_space r2 in
          let '(ws2, r4) := span is_space r3 in
          let '(dtok, r5) := span not_space r4 in
          let '(ws3, r6) := span is_space r5 in
          if str_nonempty ws1 && str_nonempty ws2 && str_nonempty ws3 then
            match strptime_month mst mtok, parse_day dtok, take_digits 4 0 r6 with
            | Some m, Some d, Some (y, EmptyString) => date_new y m d
            | _, _, _ => None
            end
          else None
      end
  end.

(** The [for fmt in (...)] loop with its [try]/[except ValueError: continue]:
    the first format that parses. *)
Fixpoint first_format (fmts : list (name_style * name_style)) (s : string)
  : option date :=
  match fmts with
  | [] => None
  | (wst, mst) :: rest =>
      match strptime_date wst mst s with
      | Some t => Some t
      | None => first_format rest s
      end
  end.

Definition date_formats : list (name_style * name_style) :=
  [(Full, Full); (Full, Abbrev); (Abbrev, Full); (Abbrev, Abbrev)].

(** Lines 217-223: the date of a fragment, before it is written in ISO form. *)
Definition parsed_date (fragment : string) (travel_year : Z) : option date :=
  match search_on_date fragment with
  | None => None
  | Some g =>
      let date_text := strip g in
      first_format date_formats (date_text ++ " " ++ str_of_int travel_year)
  end.

Definition _parse_date_fragment (fragment : string) (travel_year : Z) : string :=
  match parsed_date fragment travel_year with
  | Some t => isoformat t
  | None => ""
  end.

(** [while arr_dt < dep_dt: arr_dt += timedelta(days=1)] *)
Fixpoint advance_arrival (fuel : nat) (arr_dt dep_dt : date) : option (result date) :=
  if date_ltb arr_dt dep_dt then
    match fuel with
    | O => None
    | S fuel' =>
        match add_days arr_dt 1 with
        | Some next => advance_arrival fuel' next dep_dt
        | None => Some (Raise OverflowError)
        end
    end
  else Some (Ok arr_dt).

(** Lines 231-234: the departure and the arrival fragment of a label. *)
Definition label_fragments (label : string) : string * string :=
  match find_sub " and arrives " label with
  | Some (dep_fragment, arr_fragment) => (dep_fragment, arr_fragment)
  | None => (label, "")
  end.

(** A label has no character U+202F under the convention on [str], so the
    [label.replace] of line 230 leaves it as it is. *)
Definition _parse_dates_from_label (fuel : nat) (label : string) (travel_year : Z)
  : option (result (string * string)) :=
  let '(dep_fragment, arr_fragment) := label_fragments label in
  let dep_iso := _parse_date_fragment dep_fragment travel_year in
  let arr_iso := _parse_date_fragment arr_fragment travel_year in
  if str_nonempty dep_iso && str_nonempty arr_iso then
    match fromisoformat dep_iso, fromisoformat arr_iso with
    | Some dep_dt, Some arr_dt =>
        match advance_arrival fuel arr_dt dep_dt with
        | Some (Ok arr_dt') => Some (Ok (dep_iso, isoformat arr_dt'))
        | Some (Raise e) => Some (Raise e)
        | None => None
        end
    | _, _ => Some (Raise ValueError)
    end
  else Some (Ok (dep_iso, arr_iso)).

(* ================================================================= *)
(** ** Rows: Python dictionaries with string keys *)

Inductive value : Type :=
| VNone
| VStr (s : string)
| VInt (n : Z).

(** A dictionary in insertion order. *)
Definition dict : Type := list (string * value).

Fixpoint dict_get (d : dict) (k : string) : option value :=
  match d with
  | [] => None
  | (k', v) :: rest => if (k' =? k)%string then Some v else dict_get rest k
  end.

(** [d.get(k)] *)
Definition get (d : dict) (k : string) : value :=
  match dict_get d k with Some v => v | None => VNone end.

(** [d.get(k, default)] *)
Definition get_default (d : dict) (k : string) (default : value) : value :=
  match dict_get d k with Some v => v | None => default end.

Definition truthy (v : value) : bool :=
  match v with
  | VNone => false
  | VStr s => str_nonempty s
  | VInt n => negb (n =? 0)
  end.

(** [a or b] *)
Definition or_else (a b : value) : value := if truthy a then a else b.

(** A value inside an f-string. *)
Definition format_value (v : value) : string :=
  match v with
  | VNone => "None"
  | VStr s => s
  | VInt n => str_of_int n
  end.

(** [v == 0] *)
Definition is_zero (v : value) : bool :=
  match v with VInt n => n =? 0 | _ => false end.

(** The body of the loop of [normalise_output_rows]: the final row of one raw
    row. *)
Definition normalise_output_row (row : dict) (target_date : date) : dict :=
  let departure_date := or_else (get row "departure_date") (VStr (isoformat target_date)) in
  let arrival_label := or_else (get row "arrival") (VStr "") in
  let arrival_date := or_else (get row "arrival_date") (VStr "") in
  let arrival_display :=
    if truthy arrival_date then
      if truthy arrival_label then
        VStr (format_value arrival_label ++ " (" ++ format_value arrival_date ++ ")")
      else arrival_date
    else arrival_label in
  let stops_text := or_else (get row "stops_text") (VStr "") in
  let transit :=
    if truthy stops_text then stops_text
    else if is_zero (get row "stops_count") then VStr "Nonstop"
    else VStr "Unknown" in
  [ ("Maskapai", get_default row "airlines" (VStr ""));
    ("Tanggal", departure_date);
    ("Waktu Berangkat", get_default row "departure" (VStr ""));
    ("Waktu Datang", arrival_display);
    ("Durasi", get_default row "duration" (VStr ""));
    ("Transit", transit);
    ("Harga Tiket", get_default row "price" (VStr "")) ].

Definition normalise_output_rows (raw_rows : list dict) (target_date : date) : list dict :=
  map (fun row => normalise_output_row row target_date) raw_rows.

(* ================================================================= *)
(** ** Result cards and their extractors *)

(** [unicodedata.normalize("NFKC", text)], a function of the Unicode
    database. *)
Class Unicodedata : Type := { normalize_NFKC : string -> string }.

(** What one read of a page element gives: the element may have gone stale. *)
Inductive read (A : Type) : Type :=
| Stale
| Got (a : A).

Arguments Stale {A}.
Arguments Got {A} a.

(** What the selectors of the extractors find under a card; [None] is
    [NoSuchElementException]. *)
Record card_content : Type := {
  price_span : option string;
  airline_block : option (list string * string);  (* texts of its spans, its own text *)
  time_spans : list string;
  label_span : option (option string);            (* its [aria-label], when it has one *)
  duration_label : option string;
  stops_label : option string
}.

Record card : Type := {
  data_id : read (option string);      (* [card.get_attribute("data-id")] *)
  content : read card_content          (* what the extractors read *)
}.

(** [re.sub(r"([AP]M)(\+\d)", r"\1 \2", text)] *)
Fixpoint space_before_offset (s : string) : string :=
  match s with
  | EmptyString => EmptyString
  | String a r =>
      match r with
      | String "M" (String "+" (String d r')) =>
          if ((a =? "A") || (a =? "P"))%char && is_digit d then
            String a (String "M" (String " " (String "+" (String d (space_before_offset r')))))
          else String a (space_before_offset r)
      | _ => String a (space_before_offset r)
      end
  end.

(** [sep.join(names)] *)
Fixpoint join (sep : string) (names : list string) : string :=
  match names with
  | [] => ""
  | [n] => n
  | n :: rest => n ++ sep ++ join sep rest
  end.

Definition str_in (s : string) (l : list string) : bool :=
  existsb (String.eqb s) l.

(** [re.search(r"(\d+)", s)]: the first run of digits. *)
Fixpoint search_digits (s : string) : option string :=
  match s with
  | EmptyString => None
  | String c r => if is_digit c then Some (fst (span is_digit s)) else search_digits r
  end.

(** [re.search(r"\+(\d)", s)]: the digit after the first plus sign that has
    one. *)
Fixpoint search_offset (s : string) : option ascii :=
  match s with
  | EmptyString => None
  | String c r =>
      match r with
      | String d _ =>
          if (c =? "+")%char && is_digit d then Some d else search_offset r
      | EmptyString => None
      end
  end.

Section Extractors.

Context {U : Unicodedata}.

Definition normalise (text : string) : string :=
  let text := normalize_NFKC text in
  let text := strip (replace_char (ascii_of_N 160) " " text) in
  space_before_offset text.

Definition extract_price (container : card_content) : string :=
  match price_span container with
  | Some text => normalise text
  | None => ""
  end.

(** The loop over the spans: the names found so far, in order. *)
Fixpoint airline_names (spans names : list string) : list string :=
  match spans with
  | [] => names
  | text :: rest =>
      let value := normalise text in
      if str_nonempty value && negb (str_in value names)
      then airline_names rest (names ++ [value])
      else airline_names rest names
  end.

Definition extract_airlines (container : card_content) : string :=
  match airline_block container with
  | None => "Unknown"
  | Some (spans, block_text) =>
      let names := airline_names spans [] in
      let names :=
        match names with
        | [] => [normalise block_text]
        | _ => names
        end in
      match names with
      | [] => "Unknown"
      | _ => join " + " names
      end
  end.

Definition extract_duration (container : card_content) : string :=
  match duration_label container with
  | Some text => normalise text
  | None => ""
  end.

(** The [int] of line 336 is outside any [try] of [extract_stops]: a run of
    more than [MAX_STR_DIGITS] digits is a [ValueError]. *)
Definition extract_stops (container : card_content) : result dict :=
  match stops_label container with
  | None => Ok [("stops_text", VStr ""); ("stops_count", VNone)]
  | Some text =>
      let stops_text := normalise text in
      let lower := lower stops_text in
      if contains "nonstop" lower then
        Ok [("stops_text", VStr stops_text); ("stops_count", VInt 0)]
      else
        match search_digits stops_text with
        | Some ds =>
            match int_of_text ds with
            | Some n => Ok [("stops_text", VStr stops_text); ("stops_count", VInt n)]
            | None => Raise ValueError
            end
        | None => Ok [("stops_text", VStr stops_text); ("stops_count", VNone)]
        end
  end.

(** Lines 250-252: the texts of the two time spans. *)
Definition departure_text (container : card_content) : string :=
  match time_spans container with
  | t0 :: _ => normalise t0
  | [] => ""
  end.

Definition arrival_text (container : card_content) : string :=
  match time_spans container with
  | _ :: t1 :: _ => normalise t1
  | _ => ""
  end.

(** Lines 254-263: the dates read in the descriptive label, both empty when
    the card has no label. *)
Definition label_dates (fuel : nat) (container : card_content) (travel_year : Z)
  : option (result (string * string)) :=
  let label :=
    match label_span container with
    | Some (Some l) => l
    | _ => ""
    end in
  if str_nonempty label then _parse_dates_from_label fuel (normalise label) travel_year
  else Some (Ok ("", "")).

(** Lines 265-269: the arrival date from the day offset of the arrival time. *)
Definition offset_fallback (arrive dep_date_iso arr_date_iso : string) : result string :=
  if str_nonempty dep_date_iso && negb (str_nonempty arr_date_iso) then
    match search_offset arrive with
    | Some d =>
        match fromisoformat dep_date_iso with
        | None => Raise ValueError
        | Some dep_dt =>
            match add_days dep_dt (digit_val d) with
            | Some t => Ok (isoformat t)
            | None => Raise OverflowError
            end
        end
    | None => Ok arr_date_iso
    end
  else Ok arr_date_iso.

Definition extract_times (fuel : nat) (container : card_content) (travel_year : Z)
  : option (result dict) :=
  let depart := departure_text container in
  let arrive := arrival_text container in
  match label_dates fuel container travel_year with
  | None => None
  | Some (Raise e) => Some (Raise e)
  | Some (Ok (dep_date_iso, arr_date_iso)) =>
      match offset_fallback arrive dep_date_iso arr_date_iso with
      | Raise e => Some (Raise e)
      | Ok arr_date_iso =>
          Some (Ok [ ("departure", VStr depart);
                     ("arrival", VStr arrive);
                     ("departure_date", VStr dep_date_iso);
                     ("arrival_date", VStr arr_date_iso) ])
      end
  end.

(** Lines 372-392: the five extractors run on a card and the row built from
    what they return.  A stale card raises at the first read; on a card that
    is read, [extract_times] and then [extract_stops] can raise. *)
Definition extract_row (fuel : nat) (c : card) (travel_year : Z)
  : option (result dict) :=
  match content c with
  | Stale => Some (Raise StaleElementReferenceException)
  | Got container =>
      let price := extract_price container in
      let airlines := extract_airlines container in
      match extract_times fuel container travel_year with
      | None => None
      | Some (Raise e) => Some (Raise e)
      | Some (Ok times) =>
          let duration := extract_duration container in
          match extract_stops container with
          | Raise e => Some (Raise e)
          | Ok stops =>
              Some (Ok [ ("airlines", VStr airlines);
                         ("price", VStr price);
                         ("departure", get_default times "departure" (VStr ""));
                         ("departure_date", get_default times "departure_date" (VStr ""));
                         ("arrival", get_default times "arrival" (VStr ""));
                         ("arrival_date", get_default times "arrival_date" (VStr ""));
                         ("duration", VStr duration);
                         ("stops_text", get_default stops "stops_text" (VStr ""));
                         ("stops_count", get stops "stops_count") ])
          end
      end
  end.

(* ----------------------------------------------------------------- *)
(** *** The harvest loop: [gather_cards] *)

(** A "show more" element: what [is_displayed] reads on it (line 405, outside
    any [try]), and whether the click script runs on it without raising. *)
Record control : Type := { is_displayed : read bool; click_runs : bool }.

(** What the page shows during one pass of the [while True] loop. *)
Record tick : Type := {
  found_cards : list card;              (* line 366 *)
  more_controls : list (list control);  (* line 403, one list for each locator *)
  recount : nat                         (* line 422: the cards found after the scroll *)
}.

(** The browser session as [gather_cards] sees it: whether a card shows up
    before the wait of line 351 times out, and what each pass finds. *)
Record driver : Type := {
  cards_present : bool;
  pass : nat -> tick
}.

Definition id_eqb (a b : option string) : bool :=
  match a, b with
  | None, None => true
  | Some x, Some y => (x =? y)%string
  | _, _ => false
  end.

(** [card_id in seen_ids] *)
Definition id_in (i : option string) (seen_ids : list (option string)) : bool :=
  existsb (id_eqb i) seen_ids.

Inductive scan : Type :=
| Scanned (seen_ids : list (option string)) (results : list dict)
| Returned (results : list dict).

(** The [for card in cards] loop, lines 367-396. *)
Fixpoint scan_cards (fuel : nat) (cards : list card) (max_results travel_year : Z)
    (seen_ids : list (option string)) (results : list dict) : option (result scan) :=
  match cards with
  | [] => Some (Ok (Scanned seen_ids results))
  | c :: rest =>
      match data_id c with
      | Stale => Some (Raise StaleElementReferenceException)
      | Got card_id =>
          if id_in card_id seen_ids then
            scan_cards fuel rest max_results travel_year seen_ids results
          else
            match extract_row fuel c travel_year with
            | None => None
            | Some (Raise StaleElementReferenceException) =>
                scan_cards fuel rest max_results travel_year seen_ids results
            | Some (Raise e) => Some (Raise e)
            | Some (Ok row) =>
                let results := (results ++ [row])%list in
                let seen_ids := card_id :: seen_ids in
                if negb (max_results =? 0)
                   && (max_results <=? Z.of_nat (List.length results))
                then Some (Ok (Returned results))
                else scan_cards fuel rest max_results travel_year seen_ids results
            end
      end
  end.

(** Lines 404-413, the elements of one locator: whether one of them was
    clicked.  An element that is not displayed, or on which the click raises,
    is passed over. *)
Fixpoint click_first (elements : list control) : result bool :=
  match elements with
  | [] => Ok false
  | element :: rest =>
      match is_displayed element with
      | Stale => Raise StaleElementReferenceException
      | Got false => click_first rest
      | Got true => if click_runs element then Ok true else click_first rest
      end
  end.

(** Lines 401-415: whether some displayed control was clicked. *)
Fixpoint clicked_more (controls : list (list control)) : result bool :=
  match controls with
  | [] => Ok false
  | elements :: rest =>
      match click_first elements with
      | Raise e => Raise e
      | Ok true => Ok true
      | Ok false => clicked_more rest
      end
  end.

(** The [while True] loop, lines 365-423, from pass [i] on; [passes] bounds
    the number of passes and [fuel] the loops inside the extractors. *)
Fixpoint harvest (passes fuel : nat) (page : nat -> tick) (i : nat)
    (max_results travel_year : Z)
    (seen_ids : list (option string)) (results : list dict)
  : option (result (list dict)) :=
  match passes with
  | O => None
  | S passes' =>
      let t := page i in
      let cards := found_cards t in
      match scan_cards fuel cards max_results travel_year seen_ids results with
      | None => None
      | Some (Raise e) => Some (Raise e)
      | Some (Ok (Returned results)) => Some (Ok results)
      | Some (Ok (Scanned seen_ids results)) =>
          match clicked_more (more_controls t) with
          | Raise e => Some (Raise e)
          | Ok true =>
              harvest passes' fuel page (S i) max_results travel_year seen_ids results
          | Ok false =>
              let prev_count := List.length cards in
              if (recount t <=? prev_count)%nat then Some (Ok results)
              else harvest passes' fuel page (S i) max_results travel_year seen_ids results
          end
      end
  end.

Definition gather_cards (fuel : nat) (d : driver) (max_results travel_year : Z)
  : option (result (list dict)) :=
  if cards_present d then harvest fuel fuel (pass d) 0 max_results travel_year [] []
  else Some (Ok []).

End Extractors.

(** The cards that the passes before pass [n] found, in the order of the scan. *)
Definition visited (page : nat -> tick) (n : nat) : list card :=
  flat_map (fun p => found_cards (page p)) (seq 0 n).

(** An element that [is_displayed] reads as displayed. *)
Definition shown (e : control) : bool :=
  match is_displayed e with
  | Got b => b
  | Stale => false
  end.

(** A pass that shows no "show more" control and, after its two scrolls, no
    more cards than it started with. *)
Definition quiet (t : tick) : bool :=
  forallb (forallb (fun e => negb (shown e))) (more_controls t)
  && (recount t <=? List.length (found_cards t))%nat.

(** Lines 416-423 after the scan of a pass: the loop goes on to another pass
    (a control was clicked, or the scroll brought more cards), or it ends
    with the [break] of line 423. *)
Definition goes_on (t : tick) : bool :=
  match clicked_more (more_controls t) with
  | Ok true => true
  | Ok false => negb (recount t <=? List.length (found_cards t))%nat
  | Raise _ => false
  end.

Definition ends (t : tick) : bool :=
  match clicked_more (more_controls t) with
  | Ok false => (recount t <=? List.length (found_cards t))%nat
  | _ => false
  end.

Section HarvestState.

Context {U : Unicodedata}.

Variables (fuel : nat) (travel_year : Z).

(** The identifier and the row of a recorded card come from one of [cards]. *)
Definition recorded_from (cards : list card) (x : option string * dict) : Prop :=
  exists c, In c cards /\ data_id c = Got (fst x)
            /\ extract_row fuel c travel_year = Some (Ok (snd x)).

(** The state of the harvest after the cards [cards]: the rows so far are
    those of the recorded cards, in order; the identifiers seen are theirs,
    each once; every card of [cards] that can be read has its identifier
    among them. *)
Definition harvested (cards : list card) (seen_ids : list (option string))
    (results : list dict) : Prop :=
  exists recorded,
    results = map snd recorded
    /\ seen_ids = rev (map fst recorded)
    /\ NoDup seen_ids
    /\ (forall x, In x recorded -> recorded_from cards x)
    /\ (forall c i row, In c cards -> data_id c = Got i ->
          extract_row fuel c travel_year = Some (Ok row) -> In i seen_ids).

(** What a harvest returns: the rows of recorded cards with different
    identifiers, and, for a harvest that no cap cut short, every readable
    card accounted for. *)
Definition harvest_result (cards : list card) (complete : bool) (rows : list dict) : Prop :=
  exists recorded,
    rows = map snd recorded
    /\ NoDup (map fst recorded)
    /\ (forall x, In x recorded -> recorded_from cards x)
    /\ (complete = true ->
        forall c i row, In c cards -> data_id c = Got i ->
          extract_row fuel c travel_year = Some (Ok row) -> In i (map fst recorded)).

End HarvestState.

(* ================================================================= *)
(** ** base64: [base64.urlsafe_b64encode], [base64.urlsafe_b64decode] *)

Definition byte_of_N (n : N) : byte :=
  match Byte.of_N (n mod 256) with
  | Some b => b
  | None => x00
  end.

Definition BASE64_PAD : byte := "="%byte.

(** The character of a sextet. *)
Definition table_b2a_base64 (n : N) : byte :=
  (if n <? 26 then byte_of_N (65 + n)
   else if n <? 52 then byte_of_N (97 + (n - 26))
   else if n <? 62 then byte_of_N (48 + (n - 52))
   else if n =? 62 then "+"%byte
   else "/"%byte)%N.

(** The sextet of a character; [None] for a character outside the alphabet. *)
Definition table_a2b_base64 (c : byte) : option N :=
  let n := Byte.to_N c in
  (if (65 <=? n) && (n <=? 90) then Some (n - 65)
   else if (97 <=? n) && (n <=? 122) then Some (n - 71)
   else if (48 <=? n) && (n <=? 57) then Some (n + 4)
   else if n =? 43 then Some 62
   else if n =? 47 then Some 63
   else None)%N.

Definition sextet1 (a : byte) : N := N.shiftr (Byte.to_N a) 2.

Definition sextet2 (a b : byte) : N :=
  N.lor (N.shiftl (N.land (Byte.to_N a) 3) 4) (N.shiftr (Byte.to_N b) 4).

Definition sextet3 (b c : byte) : N :=
  N.lor (N.shiftl (N.land (Byte.to_N b) 15) 2) (N.shiftr (Byte.to_N c) 6).

Definition sextet4 (c : byte) : N := N.land (Byte.to_N c) 63.

(** [binascii.b2a_base64(data, newline=False)]: three bytes give four
    characters, and a last group of one or two bytes is closed with pads. *)
Fixpoint b2a_base64 (data : list byte) : list byte :=
  match data with
  | [] => []
  | [a] =>
      [table_b2a_base64 (sextet1 a); table_b2a_base64 (sextet2 a x00);
       BASE64_PAD; BASE64_PAD]
  | [a; b] =>
      [table_b2a_base64 (sextet1 a); table_b2a_base64 (sextet2 a b);
       table_b2a_base64 (sextet3 b x00); BASE64_PAD]
  | a :: b :: c :: rest =>
      table_b2a_base64 (sextet1 a) :: table_b2a_base64 (sextet2 a b)
      :: table_b2a_base64 (sextet3 b c) :: table_b2a_base64 (sextet4 c)
      :: b2a_base64 rest
  end.

Definition push (b : byte) (r : option (list byte)) : option (list byte) :=
  option_map (cons b) r.

(** [binascii.a2b_base64(data)] without [strict_mode], from the state
    [quad_pos], [leftchar], [pads] of its loop: a character outside the
    alphabet is skipped, a pad that completes a group ends the input, and a
    group left open at the end is an error.  [None] is [binascii.Error]. *)
Fixpoint a2b_base64_from (data : list byte) (quad_pos leftchar pads : N)
  : option (list byte) :=
  match data with
  | [] => if (quad_pos =? 0)%N then Some [] else None
  | this_ch :: rest =>
      if Byte.eqb this_ch BASE64_PAD then
        if (2 <=? quad_pos)%N then
          if (4 <=? quad_pos + (pads + 1))%N then Some []
          else a2b_base64_from rest quad_pos leftchar (pads + 1)
        else a2b_base64_from rest quad_pos leftchar pads
      else
        match table_a2b_base64 this_ch with
        | None => a2b_base64_from rest quad_pos leftchar pads
        | Some v =>
            match quad_pos with
            | 0%N => a2b_base64_from rest 1 v 0
            | 1%N =>
                push (byte_of_N (N.lor (N.shiftl leftchar 2) (N.shiftr v 4)))
                     (a2b_base64_from rest 2 (N.land v 15) 0)
            | 2%N =>
                push (byte_of_N (N.lor (N.shiftl leftchar 4) (N.shiftr v 2)))
                     (a2b_base64_from rest 3 (N.land v 3) 0)
            | _ =>
                push (byte_of_N (N.lor (N.shiftl leftchar 6) v))
                     (a2b_base64_from rest 0 0 0)
            end
        end
  end.

Definition a2b_base64 (data : list byte) : option (list byte) :=
  a2b_base64_from data 0 0 0.

(** [bytes.translate] of the URL-safe alphabet: [+/] to [-_] and back. *)
Definition urlsafe_encode_translation (b : byte) : byte :=
  if Byte.eqb b "+"%byte then "-"%byte
  else if Byte.eqb b "/"%byte then "_"%byte else b.

Definition urlsafe_decode_translation (b : byte) : byte :=
  if Byte.eqb b "-"%byte then "+"%byte
  else if Byte.eqb b "_"%byte then "/"%byte else b.

Definition urlsafe_b64encode (s : list byte) : list byte :=
  map urlsafe_encode_translation (b2a_base64 s).

Definition is_ascii (c : ascii) : bool := (N_of_ascii c <? 128)%N.

(** [s.encode("ascii")]; [None] is [UnicodeEncodeError], a [ValueError]. *)
Definition encode_ascii (s : string) : option (list byte) :=
  if str_all is_ascii s then Some (list_byte_of_string s) else None.

(** [b.decode("ascii")] on the output of the encoder, which is ASCII. *)
Definition decode_ascii (b : list byte) : string := string_of_list_byte b.

(** [base64.urlsafe_b64decode(s)] on a [str]; [None] is [ValueError] or
    [binascii.Error]. *)
Definition urlsafe_b64decode (s : string) : option (list byte) :=
  match encode_ascii s with
  | None => None
  | Some b => a2b_base64 (map urlsafe_decode_translation b)
  end.

(* ================================================================= *)
(** ** The date inside the [tfs] parameter: [build_url_for_date] *)

Definition byte_is_digit (b : byte) : bool :=
  let n := Byte.to_N b in ((48 <=? n) && (n <=? 57))%N.

Definition byte_is_dash (b : byte) : bool := Byte.eqb b "-"%byte.

(** The pattern [\d{4}-\d{2}-\d{2}] at the start of [bs]. *)
Definition date_at (bs : list byte) : bool :=
  match bs with
  | y1 :: y2 :: y3 :: y4 :: h1 :: m1 :: m2 :: h2 :: d1 :: d2 :: _ =>
      byte_is_digit y1 && byte_is_digit y2 && byte_is_digit y3 && byte_is_digit y4
      && byte_is_dash h1 && byte_is_digit m1 && byte_is_digit m2
      && byte_is_dash h2 && byte_is_digit d1 && byte_is_digit d2
  | _ => false
  end.

(** [re.search(rb"\d{4}-\d{2}-\d{2}", bs)]: where the leftmost match starts;
    it ends ten bytes further. *)
Fixpoint search_date (bs : list byte) : option nat :=
  if date_at bs then Some O
  else
    match bs with
    | [] => None
    | _ :: rest => option_map S (search_date rest)
    end.

(** A query dictionary of [parse_qs]: every key has a list of values that is
    not empty, given as its first value and the others. *)
Definition query_dict : Type := list (string * (string * list string)).

Fixpoint query_get (q : query_dict) (k : string) : option (string * list string) :=
  match q with
  | [] => None
  | (k', v) :: rest => if (k' =? k)%string then Some v else query_get rest k
  end.

(** [q[k] = v]: in place when the key is there, at the end when it is not. *)
Fixpoint query_set (q : query_dict) (k : string) (v : string * list string)
  : query_dict :=
  match q with
  | [] => [(k, v)]
  | (k', v') :: rest =>
      if (k' =? k)%string then (k', v) :: rest else (k', v') :: query_set rest k v
  end.

(** The functions of [urllib.parse] the program calls.  [urlparse] raises
    [ValueError] on some URLs (a host with a bracket that has no pair, for
    one): [None]. *)
Class Urllib : Type := {
  parse_result : Type;
  urlparse : string -> option parse_result;
  query_of : parse_result -> string;                       (* [parsed.query] *)
  replace_query : parse_result -> string -> parse_result;  (* [parsed._replace(query=q)] *)
  urlunparse : parse_result -> string;
  parse_qs : string -> query_dict;
  urlencode : query_dict -> string                         (* with [doseq=True] *)
}.

(** Lines 105-109: the padding put back, and the decoding. *)
Definition decode_tfs (tfs_value : string) : option (list byte) :=
  let pad :=
    repeat_char "=" (Z.to_nat ((- Z.of_nat (String.length tfs_value)) mod 4)) in
  urlsafe_b64decode (tfs_value ++ pad).

(** Line 117: the encoding without its padding. *)
Definition encode_tfs (updated : list byte) : string :=
  rstrip (Ascii.eqb "=") (decode_ascii (urlsafe_b64encode updated)).

(** The characters of a [tfs] value written by the encoder. *)
Definition base64url_char (c : ascii) : bool :=
  is_alpha c || is_digit c || (c =? "-")%char || (c =? "_")%char.

Definition base64url_text (s : string) : bool := str_all base64url_char s.

(** What the [strftime] of the C library writes for [%Y].  From the year 1000
    on it is the four digits of the year; below, the C library of some
    platforms (glibc) writes the year as it is and that of others fills it
    with zeros up to four digits. *)
Class Strftime : Type := {
  strftime_Y : Z -> string;
  strftime_Y_four_digits : forall y, 1000 <= y <= 9999 -> strftime_Y y = str_of_int y
}.

Section DateCodec.

Context {L : Urllib} {F : Strftime}.

(** [t.strftime("%Y-%m-%d")] *)
Definition strftime_Y_m_d (t : date) : string :=
  strftime_Y (year t) ++ "-" ++ zero_pad 2 (month t) ++ "-" ++ zero_pad 2 (day t).

(** Lines 115-116: the match, from [start] to ten bytes further, replaced by
    the bytes of the date. *)
Definition replace_date (decoded : list byte) (start : nat) (target_date : date)
  : list byte :=
  let new_date_bytes := list_byte_of_string (strftime_Y_m_d target_date) in
  (firstn start decoded ++ new_date_bytes ++ skipn (start + 10) decoded)%list.

(** [query.get("tfs", [None])[0]] *)
Definition tfs_of_query (query : query_dict) : option string :=
  match query_get query "tfs" with
  | Some (v, _) => Some v
  | None => None
  end.

(** Lines 99-101 and 128-130: the [tfs] parameter read in a URL, outside any
    [try]. *)
Definition tfs_value_of (url : string) : result (option string) :=
  match urlparse url with
  | None => Raise ValueError
  | Some parsed => Ok (tfs_of_query (parse_qs (query_of parsed)))
  end.

(** Lines 119-121: the URL with [new_tfs] as its [tfs] parameter. *)
Definition set_tfs (parsed : parse_result) (new_tfs : string) : string :=
  let query := parse_qs (query_of parsed) in
  let query := query_set query "tfs" (new_tfs, []) in
  let new_query := urlencode query in
  urlunparse (replace_query parsed new_query).

Definition build_url_for_date (base_url : string) (target_date : date) : result string :=
  match urlparse base_url with
  | None => Raise ValueError
  | Some parsed =>
      let query := parse_qs (query_of parsed) in
      match tfs_of_query query with
      | None => Ok base_url
      | Some tfs_value =>
          if negb (str_nonempty tfs_value) then Ok base_url
          else
            match decode_tfs tfs_value with
            | None => Ok base_url
            | Some decoded =>
                match search_date decoded with
                | None => Ok base_url
                | Some start =>
                    let updated := replace_date decoded start target_date in
                    let new_tfs := encode_tfs updated in
                    let query := query_set query "tfs" (new_tfs, []) in
                    let new_query := urlencode query in
                    Ok (urlunparse (replace_query parsed new_query))
                end
            end
      end
  end.

(** [urllib.parse] reads in the URL that lines 119-121 make of [base_url]
    with [v] as its [tfs] parameter the value [v]. *)
Definition reads_back (base_url v : string) : Prop :=
  match urlparse base_url with
  | Some parsed => tfs_value_of (set_tfs parsed v) = Ok (Some v)
  | None => False
  end.

End DateCodec.

(* ================================================================= *)
(** ** The year inside the [tfs] parameter: [extract_year_from_url] *)

(** The pattern [Egoy[A-Za-z0-9_-]{4}] at the start of [s]: the match. *)
Definition match_year_chunk (s : string) : option string :=
  match strip_prefix "Egoy" s with
  | Some (String c1 (String c2 (String c3 (String c4 _)))) =>
      if base64url_char c1 && base64url_char c2 && base64url_char c3 && base64url_char c4
      then Some ("Egoy" ++ String c1 (String c2 (String c3 (String c4 EmptyString))))
      else None
  | _ => None
  end.

(** [re.search] of that pattern: the leftmost match. *)
Fixpoint search_year_chunk (s : string) : option string :=
  match match_year_chunk s with
  | Some chunk => Some chunk
  | None =>
      match s with
      | EmptyString => None
      | String _ r => search_year_chunk r
      end
  end.

(** The pattern [(20\d{2})] at the start of [bs]: its group 1. *)
Definition year_at (bs : list byte) : option (list byte) :=
  match bs with
  | c1 :: c2 :: c3 :: c4 :: _ =>
      if Byte.eqb c1 "2"%byte && Byte.eqb c2 "0"%byte && byte_is_digit c3 && byte_is_digit c4
      then Some [c1; c2; c3; c4] else None
  | _ => None
  end.

(** [re.search(rb"(20\d{2})", bs)] *)
Fixpoint search_year (bs : list byte) : option (list byte) :=
  match year_at bs with
  | Some g => Some g
  | None =>
      match bs with
      | [] => None
      | _ :: rest => search_year rest
      end
  end.

Section YearCodec.

Context {L : Urllib}.

(** The bytes of the year are ASCII digits, which [decode] reads one
    character each. *)
Definition extract_year_from_url (base_url : string) : result (option Z) :=
  match tfs_value_of base_url with
  | Raise e => Raise e
  | Ok None => Ok None
  | Ok (Some tfs_value) =>
      if negb (str_nonempty tfs_value) then Ok None
      else
        match search_year_chunk tfs_value with
        | None => Ok None
        | Some chunk =>
            let pad :=
              repeat_char "="
                (Z.to_nat ((4 - Z.of_nat (String.length chunk) mod 4) mod 4)) in
            match urlsafe_b64decode (chunk ++ pad) with
            | None => Ok None
            | Some decoded =>
                match search_year decoded with
                | Some digits =>
                    match int_of_str (decode_ascii digits) with
                    | Some n => Ok (Some n)
                    | None => Raise ValueError
                    end
                | None => Ok None
                end
            end
        end
  end.

End YearCodec.

(* ================================================================= *)
(** ** The dates of a run: [shift_year_safe] and the first part of [main] *)

Definition INT_MIN : Z := -2147483648.
Definition INT_MAX : Z := 2147483647.

(** [t.replace(year=y, day=d)]: a year that does not fit a C [int] is an
    [OverflowError], a date that does not exist a [ValueError]. *)
Definition date_replace (t : date) (y d : Z) : result date :=
  if (y <? INT_MIN) || (INT_MAX <? y) then Raise OverflowError
  else
    match date_new y (month t) d with
    | Some t' => Ok t'
    | None => Raise ValueError
    end.

Definition shift_year_safe (target : date) (offset : Z) : result date :=
  let y := year target + offset in
  match date_replace target y (day target) with
  | Raise ValueError => date_replace target y (day target - 1)
  | r => r
  end.

(** How the first part of [main] ends: with its value, with [SystemExit] and
    its message, or with an exception that nothing catches. *)
Inductive outcome (A : Type) : Type :=
| Done (a : A)
| SystemExit (message : string)
| Uncaught (e : exn).

Arguments Done {A} a.
Arguments SystemExit {A} message.
Arguments Uncaught {A} e.

(** The command line, as [parse_arguments] returns it: the options that
    choose the dates. *)
Record arguments : Type := {
  arg_url : string;
  arg_target_date : string;
  arg_dates : option string;
  arg_range_start : option string;
  arg_range_end : option string;
  arg_year_offsets : string
}.

(** An option that is given and not empty. *)
Definition given (a : option string) : option string :=
  match a with
  | Some s => if str_nonempty s then Some s else None
  | None => None
  end.

(** [range(n)] *)
Definition range (n : Z) : list Z := map Z.of_nat (seq 0 (Z.to_nat n)).

Definition date_in (t : date) (seen : list date) : bool := existsb (date_eqb t) seen.

(** Lines 530-535: the dates in the order they first appear. *)
Fixpoint unique_from (dates seen_dates unique_dates : list date) : list date :=
  match dates with
  | [] => unique_dates
  | dt :: rest =>
      if date_in dt seen_dates then unique_from rest seen_dates unique_dates
      else unique_from rest (dt :: seen_dates) (unique_dates ++ [dt])
  end.

Definition unique (dates : list date) : list date := unique_from dates [] [].

(** Line 513: [[start + timedelta(days=offset) for offset in offsets]]. *)
Fixpoint dates_from (start : date) (offsets : list Z) : outcome (list date) :=
  match offsets with
  | [] => Done []
  | offset :: rest =>
      match add_days start offset with
      | None => Uncaught OverflowError
      | Some t =>
          match dates_from start rest with
          | Done l => Done (t :: l)
          | stop => stop
          end
      end
  end.

(** Lines 510-513: the days from [start] to [end_], both included. *)
Definition date_range (start end_ : date) : outcome (list date) :=
  if date_ltb end_ start then SystemExit "--range-end must be on or after --range-start"
  else
    let days := toordinal end_ - toordinal start in
    dates_from start (range (days + 1)).

(** Lines 517-527: the year offsets of [--year-offsets]. *)
Fixpoint offsets_of_chunks (chunks : list string) (offsets : list Z) : outcome (list Z) :=
  match chunks with
  | [] => Done offsets
  | chunk :: rest =>
      let value := strip chunk in
      if negb (str_nonempty value) then offsets_of_chunks rest offsets
      else
        match int_of_text value with
        | Some n => offsets_of_chunks rest (offsets ++ [n])
        | None => SystemExit ("Invalid year offset: " ++ value)
        end
  end.

Definition year_offsets (text : string) : outcome (list Z) :=
  match offsets_of_chunks (split "," text) [] with
  | Done [] => Done [0]
  | r => r
  end.

(** Line 528: [[shift_year_safe(base_date, offset) for offset in offsets]]. *)
Fixpoint shifted_dates (base_date : date) (offsets : list Z) : outcome (list date) :=
  match offsets with
  | [] => Done []
  | offset :: rest =>
      match shift_year_safe base_date offset with
      | Raise e => Uncaught e
      | Ok t =>
          match shifted_dates base_date rest with
          | Done l => Done (t :: l)
          | stop => stop
          end
      end
  end.

(** The text of the day in a label that [label_to_date] splits in two and
    two. *)
Definition label_day_text (label : string) : string :=
  match split ", " label with
  | [_dow; month_day] =>
      match split " " month_day with
      | [_; day_str] => day_str
      | _ => ""
      end
  | _ => ""
  end.

Definition fits_c_int (n : Z) : bool := (INT_MIN <=? n) && (n <=? INT_MAX).

(** [label_to_date] with the exception it raises when it returns no date.  A
    label that does not split in two and two, a month that is no month name
    and a day that [int] does not read (one of more than [MAX_STR_DIGITS]
    digits among them) are a [ValueError]; then [date(year, month, day)]
    raises [OverflowError] for a year or a day that does not fit a C [int],
    and [ValueError] for a date that does not exist. *)
Definition label_to_date_result (label : string) (year : Z) : result date :=
  let too_long := (MAX_STR_DIGITS <? count_digits (label_day_text label))%nat in
  match label_month_day label with
  | None => Raise ValueError
  | Some (m, d) =>
      if too_long then Raise ValueError
      else if negb (fits_c_int year && fits_c_int d) then Raise OverflowError
      else
        match date_new year m d with
        | Some t => Ok t
        | None => Raise ValueError
        end
  end.

(** [datetime.fromisoformat(s).date()] on the text of the command line; the
    forms it reads besides [YYYY-MM-DD] depend on the version of Python.
    [None] is [ValueError]. *)
Class Isoparse : Type := { fromisoformat_date : string -> option date }.

Section Planning.

Context {L : Urllib} {P : Isoparse}.

(** [datetime.now().year] *)
Variable now_year : Z.

(** Lines 495-503: the dates of [--dates]. *)
Fixpoint dates_of_chunks (chunks : list string) (dates : list date) : outcome (list date) :=
  match chunks with
  | [] => Done dates
  | chunk :: rest =>
      let value := strip chunk in
      if negb (str_nonempty value) then dates_of_chunks rest dates
      else
        match fromisoformat_date value with
        | Some t => dates_of_chunks rest (dates ++ [t])%list
        | None => SystemExit ("Invalid date in --dates: " ++ value)
        end
  end.

(** Lines 505-513: the dates of [--range-start] and [--range-end]. *)
Definition dates_of_range (range_start range_end : string) : outcome (list date) :=
  match fromisoformat_date range_start, fromisoformat_date range_end with
  | Some start, Some end_ => date_range start end_
  | _, _ => SystemExit "Invalid --range-start or --range-end format; use YYYY-MM-DD"
  end.

(** Lines 515-528: the date of the label, moved by the year offsets. *)
Definition dates_of_label (args : arguments) : outcome (list date) :=
  match extract_year_from_url (arg_url args) with
  | Raise e => Uncaught e
  | Ok found =>
      let base_year :=
        match found with
        | Some y => if y =? 0 then now_year else y
        | None => now_year
        end in
      match label_to_date_result (arg_target_date args) base_year with
      | Raise e => Uncaught e
      | Ok base_date =>
          match year_offsets (arg_year_offsets args) with
          | Done offsets => shifted_dates base_date offsets
          | SystemExit m => SystemExit m
          | Uncaught e => Uncaught e
          end
      end
  end.

(** Lines 494-535 of [main]: the dates the run visits. *)
Definition planned_dates (args : arguments) : outcome (list date) :=
  let dates :=
    match given (arg_dates args) with
    | Some text => dates_of_chunks (split "," text) []
    | None =>
        match given (arg_range_start args), given (arg_range_end args) with
        | Some range_start, Some range_end => dates_of_range range_start range_end
        | _, _ => dates_of_label args
        end
    end in
  match dates with
  | Done dates => Done (unique dates)
  | stop => stop
  end.

End Planning.

(* ================================================================= *)
(** ** The table: [format_output] *)

Definition headers : list string :=
  ["Maskapai"; "Tanggal"; "Waktu Berangkat"; "Waktu Datang"; "Durasi"; "Transit";
   "Harga Tiket"].

(** [len(v)]; [None] is [TypeError]. *)
Definition len (v : value) : option nat :=
  match v with
  | VStr s => Some (String.length s)
  | _ => None
  end.

(** The seven [row.get(h, "")] of a row. *)
Definition cells (row : dict) : list value :=
  map (fun h => get_default row h (VStr "")) headers.

(** Lines 445-451 for one row: every width raised to the length of its cell.
    [None] is [TypeError]. *)
Fixpoint widen (widths : list nat) (vals : list value) : option (list nat) :=
  match widths, vals with
  | w :: ws, v :: vs =>
      match len v with
      | None => None
      | Some n => option_map (cons (Nat.max w n)) (widen ws vs)
      end
  | _, _ => Some []
  end.

Fixpoint column_widths (rows : list dict) (widths : list nat) : option (list nat) :=
  match rows with
  | [] => Some widths
  | row :: rest =>
      match widen widths (cells row) with
      | None => None
      | Some widths' => column_widths rest widths'
      end
  end.

Definition pad_right (w : nat) (s : string) : string :=
  s ++ repeat_char " " (w - String.length s).

(** ["{:<w}".format(v)]; [None] is [TypeError]. *)
Definition format_left (w : nat) (v : value) : option string :=
  match v with
  | VStr s => Some (pad_right w s)
  | VInt n => Some (pad_right w (str_of_int n))
  | VNone => None
  end.

Fixpoint format_cells (widths : list nat) (vals : list value) : option (list string) :=
  match widths, vals with
  | w :: ws, v :: vs =>
      match format_left w v with
      | None => None
      | Some s => option_map (cons s) (format_cells ws vs)
      end
  | _, _ => Some []
  end.

(** [row_format.format(...)]: the cells with two spaces between them. *)
Definition row_format (widths : list nat) (vals : list value) : option string :=
  option_map (join "  ") (format_cells widths vals).

Fixpoint format_rows (widths : list nat) (rows : list dict) : option (list string) :=
  match rows with
  | [] => Some []
  | row :: rest =>
      match row_format widths (cells row) with
      | None => None
      | Some line => option_map (cons line) (format_rows widths rest)
      end
  end.

Definition sum (widths : list nat) : nat := fold_right Nat.add O widths.

(** The lines [format_output] prints.  [None] is [TypeError]; the widths are
    computed before the first line is printed. *)
Definition format_output (rows : list dict) : option (list string) :=
  match rows with
  | [] => Some ["No flight results captured."]
  | _ =>
      match column_widths rows (map String.length headers) with
      | None => None
      | Some widths =>
          match row_format widths (map VStr headers), format_rows widths rows with
          | Some head, Some body =>
              Some (head :: repeat_char "-" (sum widths + 12) :: body)
          | _, _ => None
          end
      end
  end.

(* ================================================================= *)
(** ** Examples, and definitions used in the statements and the proofs *)

Fixpoint Zrange (lo : Z) (n : nat) : list Z :=
  match n with
  | O => []
  | S n' => lo :: Zrange (lo + 1) n'
  end.

(** The integers from [lo] to [hi]. *)
Definition Zseq (lo hi : Z) : list Z := Zrange lo (Z.to_nat (hi - lo + 1)).

Definition month_day (leapyear : bool) (n : Z) : Z * Z :=
  let m := Z.shiftr (n + 50) 5 in
  let preceding := DAYS_BEFORE_MONTH m + (if (2 <? m) && leapyear then 1 else 0) in
  if n <? preceding then
    let m := m - 1 in
    let preceding :=
      preceding - (DAYS_IN_MONTH m + (if (m =? 2) && leapyear then 1 else 0)) in
    (m, n - preceding + 1)
  else (m, n - preceding + 1).

Definition month_day_ok (leapyear : bool) (n : Z) : bool :=
  let '(m, d) := month_day leapyear n in
  (1 <=? m) && (m <=? 12) && (1 <=? d)
  && (d <=? (if (m =? 2) && leapyear then 29 else DAYS_IN_MONTH m))
  && (DAYS_BEFORE_MONTH m + (if (2 <? m) && leapyear then 1 else 0) + d =? n + 1).

Definition pad_ok (w : nat) (n : Z) : bool :=
  match take_digits w 0 (zero_pad w n) with
  | Some (v, EmptyString) => v =? n
  | _ => false
  end.

(* --- labels --- *)
Definition label_of (w m d : Z) : string :=
  nth (Z.to_nat w) day_abbr "" ++ ", " ++ nth (Z.to_nat (m - 1)) month_abbr ""
  ++ " " ++ str_of_int d.

Definition label_reads_back (w m d : Z) : bool :=
  match label_month_day (label_of w m d) with
  | Some (m', d') => (m' =? m) && (d' =? d)
  | None => false
  end.

Definition labels_read_back : bool :=
  forallb (fun w => forallb (fun m => forallb (label_reads_back w m) (Zseq 1 31))
                            (Zseq 1 12))
          (Zseq 0 6).

Definition rollover_label : string :=
  "Leaves on Wednesday, December 31 and arrives on Thu, Jan 1".

Definition nfkc_ascii : Unicodedata := {| normalize_NFKC := fun text => text |}.

Definition overnight_card : card_content := {|
  price_span := Some "IDR 1,250,000";
  airline_block := Some (["Garuda Indonesia"], "Garuda Indonesia");
  time_spans := ["10:00 PM"; "6:00 AM+1"];
  label_span := Some (Some "Leaves Jakarta at 10:00 PM on Monday, December 1");
  duration_label := Some "8 hr";
  stops_label := Some "Nonstop"
|}.


Definition arrival_only_card : card_content := {|
  price_span := Some "IDR 1,250,000";
  airline_block := Some (["Garuda Indonesia"], "Garuda Indonesia");
  time_spans := ["10:00 PM"; "6:00 AM+1"];
  label_span := Some (Some "Leaves Jakarta at 10:00 PM and arrives on Tuesday, December 2");
  duration_label := Some "8 hr";
  stops_label := Some "Nonstop"
|}.

Definition same_day_card : card := {|
  data_id := Got (Some "flight-1");
  content := Got {|
    price_span := Some "IDR 950,000";
    airline_block := Some (["Citilink"], "Citilink");
    time_spans := ["7:00 AM"; "10:00 AM"];
    label_span := Some (Some
      "Leaves Jakarta at 7:00 AM on Monday, December 1 and arrives at Denpasar at 10:00 AM on Monday, December 1");
    duration_label := Some "2 hr";
    stops_label := Some "Nonstop"
  |}
|}.

(** The text of a field that holds a string, and nothing for [None]. *)
Definition text_of (v : value) : string :=
  match v with VStr s => s | _ => "" end.

(** A value of type [Optional[str]]. *)
Definition optional_str (v : value) : bool :=
  match v with VNone | VStr _ => true | VInt _ => false end.

Definition same_day_row : dict :=
  [ ("airlines", VStr "Citilink"); ("price", VStr "IDR 950,000");
    ("departure", VStr "7:00 AM"); ("departure_date", VStr "2025-12-01");
    ("arrival", VStr "10:00 AM"); ("arrival_date", VStr "2025-12-01");
    ("duration", VStr "2 hr"); ("stops_text", VStr "Nonstop"); ("stops_count", VInt 0) ].

Definition unparsed_row : dict :=
  [ ("airlines", VStr "Citilink"); ("price", VStr "IDR 950,000");
    ("departure", VStr "7:00 AM"); ("departure_date", VStr "");
    ("arrival", VStr "10:00 AM"); ("arrival_date", VStr "");
    ("duration", VStr "2 hr"); ("stops_text", VStr ""); ("stops_count", VInt 0) ].

(* --- base64 --- *)
Definition all_bytes : list byte := map (fun z => byte_of_N (Z.to_N z)) (Zseq 0 255).

(** A character of the encoder, made URL-safe. *)
Definition b64char (n : N) : byte := urlsafe_encode_translation (table_b2a_base64 n).

(** What the decoder reads in a character of the encoder. *)
Definition sextet_of (c : byte) : option N :=
  if Byte.eqb c BASE64_PAD then None
  else table_a2b_base64 (urlsafe_decode_translation c).

Definition option_N_eqb (a : option N) (n : N) : bool :=
  match a with Some m => (m =? n)%N | None => false end.

Definition char_ok (c : byte) : bool :=
  is_ascii (ascii_of_byte c) && base64url_char (ascii_of_byte c).

(** Two bytes next to each other go through the tables and the shifts of the
    decoder unchanged. *)
Definition group_ok (a b : byte) : bool :=
  option_N_eqb (sextet_of (b64char (sextet1 a))) (sextet1 a)
  && option_N_eqb (sextet_of (b64char (sextet2 a b))) (sextet2 a b)
  && option_N_eqb (sextet_of (b64char (sextet3 a b))) (sextet3 a b)
  && option_N_eqb (sextet_of (b64char (sextet4 a))) (sextet4 a)
  && Byte.eqb (byte_of_N (N.lor (N.shiftl (sextet1 a) 2) (N.shiftr (sextet2 a b) 4))) a
  && (N.land (sextet2 a b) 15 =? N.shiftr (Byte.to_N b) 4)%N
  && Byte.eqb (byte_of_N (N.lor (N.shiftl (N.shiftr (Byte.to_N a) 4) 4)
                                (N.shiftr (sextet3 a b) 2))) a
  && Byte.eqb (byte_of_N (N.lor (N.shiftl (N.land (sextet3 a b) 3) 6) (sextet4 b))) b
  && char_ok (b64char (sextet1 a)) && char_ok (b64char (sextet2 a b))
  && char_ok (b64char (sextet3 a b)) && char_ok (b64char (sextet4 a)).

Definition b64_byte_ok (c : byte) : bool :=
  Bool.eqb (Byte.eqb (urlsafe_decode_translation c) BASE64_PAD) (Byte.eqb c BASE64_PAD)
  && Bool.eqb (Ascii.eqb "=" (ascii_of_byte c)) (Byte.eqb c BASE64_PAD).

Definition detr (l : list byte) : list byte := map urlsafe_decode_translation l.

(* --- the date pattern on bytes --- *)
(** What the pattern looks at in a byte. *)
Definition byte_class (b : byte) : bool * bool := (byte_is_digit b, byte_is_dash b).

Definition date_shape : list (bool * bool) :=
  let d := (true, false) in
  let h := (false, true) in
  [d; d; d; d; h; d; d; h; d; d].

Definition digit_is_no_dash (b : byte) : bool := negb (byte_is_digit b && byte_is_dash b).

Definition digit_bytes (w : nat) (n : Z) : bool :=
  let l := list_byte_of_string (zero_pad w n) in
  (List.length l =? w)%nat && forallb byte_is_digit l.

(* --- urllib.parse --- *)
(** A port of the functions of [urllib.parse] that the program calls, as
    Python 3.11 has them, for the examples.  It follows the library on text
    of the convention on [str]; a percent escape that stands for a character
    above 255, or for no character, has no text under that convention and is
    left as it is written. *)
Module urllib_parse.

Record ParseResult : Type := {
  scheme : string;
  netloc : string;
  path : string;
  params : string;
  query : string;
  fragment : string
}.

(** [c in s] for a character. *)
Fixpoint has_char (c : ascii) (s : string) : bool :=
  match s with
  | EmptyString => false
  | String x r => (x =? c)%char || has_char c r
  end.

Fixpoint remove_chars (p : ascii -> bool) (s : string) : string :=
  match s with
  | EmptyString => EmptyString
  | String c r => if p c then remove_chars p r else String c (remove_chars p r)
  end.

(** [s.rpartition(c)]: the text before and after the last [c]. *)
Fixpoint rfind_char (c : ascii) (s : string) : option (string * string) :=
  match s with
  | EmptyString => None
  | String x r =>
      match rfind_char c r with
      | Some (a, b) => Some (String x a, b)
      | None => if (x =? c)%char then Some (EmptyString, r) else None
      end
  end.

Definition uses_netloc : list string :=
  [""; "ftp"; "http"; "gopher"; "nntp"; "telnet"; "imap"; "wais"; "file"; "mms";
   "https"; "shttp"; "snews"; "prospero"; "rtsp"; "rtspu"; "rsync"; "svn";
   "svn+ssh"; "sftp"; "nfs"; "git"; "git+ssh"; "ws"; "wss"].

Definition uses_params : list string :=
  [""; "ftp"; "hdl"; "prospero"; "http"; "imap"; "https"; "shttp"; "rtsp"; "rtspu";
   "sip"; "sips"; "mms"; "sftp"; "tel"].

Definition scheme_char (c : ascii) : bool :=
  is_alpha c || is_digit c || has_char c "+-.".

(** [_WHATWG_C0_CONTROL_OR_SPACE] *)
Definition c0_control_or_space (c : ascii) : bool := (N_of_ascii c <=? 32)%N.

(** [_UNSAFE_URL_BYTES_TO_REMOVE] *)
Definition unsafe_url_byte (c : ascii) : bool :=
  let n := N_of_ascii c in ((n =? 9) || (n =? 13) || (n =? 10))%N.

Definition is_hex (c : ascii) : bool :=
  is_digit c || char_in "A" "F" c || char_in "a" "f" c.

Definition hex_val (c : ascii) : N :=
  let n := N_of_ascii c in
  (if is_digit c then n - 48 else if char_in "A" "F" c then n - 55 else n - 87)%N.

(* IPv4Address(s), IPv6Address(s): whether the text is an address *)
Definition _parse_octet (octet_str : string) : bool :=
  str_nonempty octet_str
  && str_all is_digit octet_str
  && (String.length octet_str <=? 3)%nat
  && ((octet_str =? "0")%string
      || negb match octet_str with String "0" _ => true | _ => false end)
  && match digits_value 0 false octet_str with
     | Some n => n <=? 255
     | None => false
     end.

Definition is_ipv4 (s : string) : bool :=
  negb (has_char "/" s)
  && str_nonempty s
  && match split "." s with
     | [a; b; c; d] => _parse_octet a && _parse_octet b && _parse_octet c && _parse_octet d
     | _ => false
     end.

Definition _parse_hextet (hextet_str : string) : bool :=
  str_nonempty hextet_str && str_all is_hex hextet_str
  && (String.length hextet_str <=? 4)%nat.

(** The places from 1 to [len(parts) - 2] where a part is empty. *)
Fixpoint empty_middles (i : nat) (parts : list string) : list nat :=
  match parts with
  | [] => []
  | [_] => []
  | p :: rest =>
      if negb (str_nonempty p) then i :: empty_middles (S i) rest
      else empty_middles (S i) rest
  end.

Definition _ip_int_from_string (ip_str : string) : bool :=
  if negb (str_nonempty ip_str) then false
  else
    let parts := split ":" ip_str in
    if (List.length parts <? 3)%nat then false
    else
      let last_part := last parts "" in
      (* an IPv4 suffix stands for two parts *)
      let suffix_ok := if has_char "." last_part then is_ipv4 last_part else true in
      let parts :=
        if has_char "." last_part then (removelast parts ++ ["0"; "0"])%list else parts in
      if negb suffix_ok then false
      else if (9 <? List.length parts)%nat then false
      else
        let n := List.length parts in
        let first_empty := negb (str_nonempty (hd "" parts)) in
        let last_empty := negb (str_nonempty (last parts "")) in
        match empty_middles 1 (tl parts) with
        | _ :: _ :: _ => false
        | [skip_index] =>
            let parts_hi := if first_empty then (skip_index - 1)%nat else skip_index in
            let parts_lo :=
              if last_empty then (n - skip_index - 1 - 1)%nat
              else (n - skip_index - 1)%nat in
            if first_empty && negb (parts_hi =? 0)%nat then false
            else if last_empty && negb (parts_lo =? 0)%nat then false
            else if (8 <=? parts_hi + parts_lo)%nat then false
            else
              forallb _parse_hextet (firstn parts_hi parts)
              && forallb _parse_hextet (skipn (n - parts_lo) parts)
        | [] =>
            if negb (n =? 8)%nat then false
            else if first_empty then false
            else if last_empty then false
            else forallb _parse_hextet parts
        end.

Definition is_ipv6 (s : string) : bool :=
  negb (has_char "/" s)
  && match find_sub "%" s with
     | None => _ip_int_from_string s
     | Some (addr, scope_id) =>
         str_nonempty scope_id && negb (has_char "%" scope_id)
         && _ip_int_from_string addr
     end.

(** [_check_bracketed_host]: [false] is [ValueError]. *)
Definition _check_bracketed_host (hostname : string) : bool :=
  match hostname with
  | String "v" r =>
      (* [\Av[a-fA-F0-9]+\..+\Z] *)
      let '(digits, rest) := span is_hex r in
      str_nonempty digits
      && match rest with
         | String "." more => str_nonempty more
         | _ => false
         end
  | _ => is_ipv6 hostname && negb (is_ipv4 hostname)
  end.

(** [_check_bracketed_netloc]: [false] is [ValueError]. *)
Definition _check_bracketed_netloc (netloc : string) : bool :=
  let hostname_and_port :=
    match rfind_char "@" netloc with
    | Some (_, after) => after
    | None => netloc
    end in
  match find_sub "[" hostname_and_port with
  | Some (before_bracket, bracketed) =>
      if str_nonempty before_bracket then false
      else
        let '(hostname, port) :=
          match find_sub "]" bracketed with
          | Some (h, p) => (h, p)
          | None => (bracketed, "")
          end in
        if str_nonempty port && negb match port with String ":" _ => true | _ => false end
        then false
        else _check_bracketed_host hostname
  | None =>
      let hostname :=
        match find_sub ":" hostname_and_port with
        | Some (h, _) => h
        | None => hostname_and_port
        end in
      _check_bracketed_host hostname
  end.

Section Checks.

Context {U : Unicodedata}.

(** [_checknetloc]: [false] is [ValueError]. *)
Definition _checknetloc (netloc : string) : bool :=
  if negb (str_nonempty netloc) || str_all is_ascii netloc then true
  else
    let n := remove_chars (fun c => has_char c "@:#?") netloc in
    let netloc2 := normalize_NFKC n in
    if (n =? netloc2)%string then true
    else negb (existsb (fun c => has_char c netloc2) (list_ascii_of_string "/?#@:")).

(** [urlsplit(url)]; [None] is [ValueError]. *)
Definition urlsplit (url : string) : option (string * string * string * string * string) :=
  let url := lstrip c0_control_or_space url in
  let url := remove_chars unsafe_url_byte url in
  let '(scheme, url) :=
    match find_sub ":" url with
    | Some (String c0 before, after) =>
        if is_alpha c0 && str_all scheme_char (String c0 before)
        then (lower (String c0 before), after)
        else ("", url)
    | _ => ("", url)
    end in
  let split_host :=
    match url with
    | String "/" (String "/" rest) =>
        let '(netloc, url') := span (fun c => negb (has_char c "/?#")) rest in
        let open_br := has_char "[" netloc in
        let close_br := has_char "]" netloc in
        if (open_br && negb close_br) || (close_br && negb open_br) then None
        else if open_br && close_br && negb (_check_bracketed_netloc netloc) then None
        else Some (netloc, url')
    | _ => Some ("", url)
    end in
  match split_host with
  | None => None
  | Some (netloc, url) =>
      let '(url, fragment) :=
        match find_sub "#" url with
        | Some (a, b) => (a, b)
        | None => (url, "")
        end in
      let '(url, query) :=
        match find_sub "?" url with
        | Some (a, b) => (a, b)
        | None => (url, "")
        end in
      if _checknetloc netloc then Some (scheme, netloc, url, query, fragment)
      else None
  end.

Definition _splitparams (url : string) : string * string :=
  match rfind_char "/" url with
  | Some (before, after) =>
      match find_sub ";" after with
      | Some (a, b) => (before ++ "/" ++ a, b)
      | None => (url, "")
      end
  | None =>
      match find_sub ";" url with
      | Some (a, b) => (a, b)
      | None => (url, "")
      end
  end.

(** [urlparse(url)]; [None] is [ValueError]. *)
Definition urlparse (url : string) : option ParseResult :=
  match urlsplit url with
  | None => None
  | Some (scheme, netloc, url, query, fragment) =>
      let '(url, params) :=
        if str_in scheme uses_params && has_char ";" url then _splitparams url
        else (url, "") in
      Some {| scheme := scheme; netloc := netloc; path := url; params := params;
              query := query; fragment := fragment |}
  end.

End Checks.

Definition urlunsplit (scheme netloc url query fragment : string) : string :=
  let url :=
    if str_nonempty netloc
       || (str_nonempty scheme && str_in scheme uses_netloc
           && negb match url with String "/" (String "/" _) => true | _ => false end)
    then
      let url :=
        match url with
        | EmptyString => url
        | String "/" _ => url
        | _ => "/" ++ url
        end in
      "//" ++ netloc ++ url
    else url in
  let url := if str_nonempty scheme then scheme ++ ":" ++ url else url in
  let url := if str_nonempty query then url ++ "?" ++ query else url in
  if str_nonempty fragment then url ++ "#" ++ fragment else url.

Definition urlunparse (components : ParseResult) : string :=
  let url :=
    if str_nonempty (params components)
    then path components ++ ";" ++ params components
    else path components in
  urlunsplit (scheme components) (netloc components) url (query components)
    (fragment components).

(** [parsed._replace(query=q)] *)
Definition _replace_query (parsed : ParseResult) (q : string) : ParseResult :=
  {| scheme := scheme parsed; netloc := netloc parsed; path := path parsed;
     params := params parsed; query := q; fragment := fragment parsed |}.

(** [unquote(s)] with [encoding='utf-8'] and [errors='replace']: an escape of
    a byte below 128 is its character, two escapes that are the UTF-8 form of
    a character from 128 to 255 are that character. *)
Fixpoint unquote_fuel (fuel : nat) (s : string) : string :=
  match fuel with
  | O => s
  | S fuel' =>
      match s with
      | String "%" (String h1 (String h2 rest)) =>
          if is_hex h1 && is_hex h2 then
            let b := (16 * hex_val h1 + hex_val h2)%N in
            if (b <? 128)%N then String (ascii_of_N b) (unquote_fuel fuel' rest)
            else
              match rest with
              | String "%" (String h3 (String h4 rest')) =>
                  let b2 := (16 * hex_val h3 + hex_val h4)%N in
                  if ((b =? 194) || (b =? 195))%N && is_hex h3 && is_hex h4
                     && (128 <=? b2)%N && (b2 <? 192)%N
                  then String (ascii_of_N (64 * (b - 192) + (b2 - 128)))
                         (unquote_fuel fuel' rest')
                  else String "%" (unquote_fuel fuel' (String h1 (String h2 rest)))
              | _ => String "%" (unquote_fuel fuel' (String h1 (String h2 rest)))
              end
          else String "%" (unquote_fuel fuel' (String h1 (String h2 rest)))
      | String c rest => String c (unquote_fuel fuel' rest)
      | EmptyString => EmptyString
      end
  end.

Definition unquote (s : string) : string := unquote_fuel (String.length s) s.

(** [parse_qs]: a value added to the values of its name. *)
Fixpoint query_add (q : query_dict) (name value : string) : query_dict :=
  match q with
  | [] => [(name, (value, []))]
  | (k, (v, vs)) :: rest =>
      if (k =? name)%string then (k, (v, vs ++ [value])%list) :: rest
      else (k, (v, vs)) :: query_add rest name value
  end.

Fixpoint parse_pairs (query_args : list string) (parsed_result : query_dict) : query_dict :=
  match query_args with
  | [] => parsed_result
  | name_value :: rest =>
      match find_sub "=" name_value with
      | Some (name, value) =>
          if str_nonempty value then
            let name := unquote (replace_char "+" " " name) in
            let value := unquote (replace_char "+" " " value) in
            parse_pairs rest (query_add parsed_result name value)
          else parse_pairs rest parsed_result
      | None => parse_pairs rest parsed_result
      end
  end.

Definition parse_qs (qs : string) : query_dict :=
  if str_nonempty qs then parse_pairs (split "&" qs) [] else [].

(** [_ALWAYS_SAFE] *)
Definition always_safe (c : ascii) : bool :=
  is_alpha c || is_digit c || has_char c "_.-~".

Definition hex_digit (n : N) : ascii :=
  if (n <? 10)%N then ascii_of_N (48 + n) else ascii_of_N (55 + n).

(** ['%{:02X}'.format(b)] *)
Definition percent (b : N) : string :=
  String "%" (String (hex_digit (b / 16)) (String (hex_digit (b mod 16)) "")).

(** [quote(s, safe)] for [safe] empty or a space: the UTF-8 bytes of the
    text, those that are not safe as escapes. *)
Fixpoint quote (space_safe : bool) (s : string) : string :=
  match s with
  | EmptyString => EmptyString
  | String c r =>
      let n := N_of_ascii c in
      (if always_safe c || (space_safe && (c =? " ")%char) then String c EmptyString
       else if (n <? 128)%N then percent n
       else percent (192 + n / 64) ++ percent (128 + n mod 64))
      ++ quote space_safe r
  end.

Definition quote_plus (s : string) : string :=
  if has_char " " s then replace_char " " "+" (quote true s) else quote false s.

(** [urlencode(query, doseq=True)] *)
Definition urlencode (q : query_dict) : string :=
  join "&"
    (flat_map (fun kv =>
                 let k := quote_plus (fst kv) in
                 map (fun elt => k ++ "=" ++ quote_plus elt)
                     (fst (snd kv) :: snd (snd kv)))
              q).

End urllib_parse.

(** [urllib.parse], with the Unicode database that its check of the host
    uses. *)
Definition python_urllib {U : Unicodedata} : Urllib := {|
  parse_result := urllib_parse.ParseResult;
  urlparse := urllib_parse.urlparse;
  query_of := urllib_parse.query;
  replace_query := urllib_parse._replace_query;
  urlunparse := urllib_parse.urlunparse;
  parse_qs := urllib_parse.parse_qs;
  urlencode := urllib_parse.urlencode
|}.

(** [urllib.parse] on ASCII text, which NFKC leaves as it is. *)
Definition urllib_ascii : Urllib := python_urllib (U := nfkc_ascii).

(** The C library that writes the year as it is (glibc). *)
Definition strftime_glibc : Strftime := {|
  strftime_Y := str_of_int;
  strftime_Y_four_digits := fun _ _ => eq_refl
|}.

(** The default URL of the program, lines 34-38. *)
Definition DEFAULT_URL : string :=
  "https://www.google.com/travel/flights/search?tfs=CBwQAhooEgoyMDI1LTEwLTA0agwIAhIIL20vMDQ0cnZyDAgCEggvbS8wN2Rma0ABSAFwAYIBCwj___________8BmAED&tfu=EgYIABABGAA&tcfs=ChMKCC9tLzA0NHJ2GgdKYWthcnRhUgRgAXgB".

(** A URL with a bracket in its host that has no pair, and a URL that
    [urlparse] reads, with an empty host, and that [urlunparse] writes back
    with the bracket as its host. *)
Definition url_unmatched_bracket : string := "http://[::1/search".

Definition url_empty_host : string :=
  "http:////[?tfs=CBwQAhooEgoyMDI1LTEwLTA0agwIAhIIL20vMDQ0cnZyDAgCEggvbS8wN2Rma0ABSAFwAYIBCwj___________8BmAED".

(** A blob with the date of the outward flight and that of the return, each
    after the two bytes that open its field. *)
Definition return_blob : list byte :=
  Eval vm_compute in
    ([x12; x0a] ++ list_byte_of_string "2025-10-04"
     ++ [x12; x0a] ++ list_byte_of_string "2025-10-11")%list.

Definition return_tfs : string := Eval vm_compute in encode_tfs return_blob.

Definition return_url : string :=
  Eval vm_compute in "https://www.google.com/travel/flights/search?tfs=" ++ return_tfs.

Definition overlapping_url : string :=
  "https://www.google.com/travel/flights/search?tfs=MjAyNS0xMC0wNDEyLTExLTIy".

Definition url_without_tfs : string := "https://www.google.com/travel/flights/search".
Definition url_undecodable : string := "https://www.google.com/travel/flights/search?tfs=CBwQA".
Definition url_without_date : string :=
  "https://www.google.com/travel/flights/search?tfs=CBwQAm5vIGRhdGUgaGVyZQ".

Definition sample_tfs : string :=
  "CBwQAhooEgoyMDI1LTEwLTA0agwIAhIIL20vMDQ0cnZyDAgCEggvbS8wN2Rma0ABSAFwAYIBCwj___________8BmAED".

Definition sample_blob : list byte :=
  Eval vm_compute in
    match decode_tfs sample_tfs with Some b => b | None => [] end.

Definition overlapping_blob : list byte :=
  Eval vm_compute in list_byte_of_string "2025-10-0412-11-22".

Definition flight_card (id : option string) (price : string) : card := {|
  data_id := Got id;
  content := Got {|
    price_span := Some price;
    airline_block := Some (["Garuda Indonesia"], "Garuda Indonesia");
    time_spans := ["7:00 AM"; "10:00 AM"];
    label_span := Some (Some "Leaves Jakarta at 7:00 AM on Monday, December 1");
    duration_label := Some "2 hr";
    stops_label := Some "Nonstop"
  |}
|}.

Definition shown_control : control := {| is_displayed := Got true; click_runs := true |}.

(** A page that shows two cards and a "show more" control, then five cards
    (two of them without identifier) and nothing more. *)
Definition paged_driver : driver := {|
  cards_present := true;
  pass := fun i =>
    match i with
    | O => {| found_cards := [flight_card (Some "a") "IDR 900,000";
                              flight_card (Some "b") "IDR 950,000"];
              more_controls := [[shown_control]; []; []; []];
              recount := 2 |}
    | S _ => {| found_cards := [flight_card (Some "a") "IDR 900,000";
                                flight_card (Some "b") "IDR 950,000";
                                flight_card (Some "c") "IDR 990,000";
                                flight_card None "IDR 1,100,000";
                                flight_card None "IDR 1,200,000"];
                more_controls := [[]; []; []; []];
                recount := 5 |}
    end
|}.

(** A page with two cards, none of which has an identifier. *)
Definition anonymous_driver : driver := {|
  cards_present := true;
  pass := fun _ =>
    {| found_cards := [flight_card None "IDR 1,100,000"; flight_card None "IDR 1,200,000"];
       more_controls := [[]; []; []; []];
       recount := 2 |}
|}.

Definition flight_row (price : string) : dict :=
  [ ("airlines", VStr "Garuda Indonesia"); ("price", VStr price);
    ("departure", VStr "7:00 AM"); ("departure_date", VStr "2025-12-01");
    ("arrival", VStr "10:00 AM"); ("arrival_date", VStr "");
    ("duration", VStr "2 hr"); ("stops_text", VStr "Nonstop"); ("stops_count", VInt 0) ].

Definition paged_rows : list dict :=
  [ flight_row "IDR 900,000"; flight_row "IDR 950,000"; flight_row "IDR 990,000";
    flight_row "IDR 1,100,000" ].

(* --- the year pattern --- *)
(** The year [20cd] read as a number. *)
Definition year_digits_ok (c d : byte) : bool :=
  negb (byte_is_digit c && byte_is_digit d)
  || match int_of_str (decode_ascii ["2"%byte; "0"%byte; c; d]) with
     | Some n => n =? 2000 + 10 * (Z.of_N (Byte.to_N c) - 48) + (Z.of_N (Byte.to_N d) - 48)
     | None => false
     end.

(** The month and the day read in a label, for a label that has them. *)
Definition month_day_of_label (label : string) : Z * Z :=
  match label_month_day label with
  | Some md => md
  | None => (0, 0)
  end.

(** The year [y] on four digits is the year as it is written. *)
Definition year_written_ok (y : Z) : bool := (zero_pad 4 y =? str_of_int y)%string.

(* --- the dates of a run --- *)
(** The dates of [l] without those that an earlier date of [l] equals. *)
Fixpoint first_occurrences (l : list date) : list date :=
  match l with
  | [] => []
  | t :: rest => t :: filter (fun u => negb (date_eqb u t)) (first_occurrences rest)
  end.

(** The default command line. *)
Definition default_args : arguments := {|
  arg_url := DEFAULT_URL;
  arg_target_date := "Wed, Oct 8";
  arg_dates := None;
  arg_range_start := None;
  arg_range_end := None;
  arg_year_offsets := "0,1"
|}.

(** The form [YYYY-MM-DD], which every version of Python reads. *)
Definition calendar_isoparse : Isoparse := {| fromisoformat_date := fromisoformat |}.

(* --- the table --- *)
Definition is_str (v : value) : bool :=
  match v with VStr _ => true | _ => false end.

(** The text of the cell of [row] under the heading [h]. *)
Definition cell_text (row : dict) (h : string) : string :=
  text_of (get_default row h (VStr "")).

(** The width of the column of the heading [h]: the length of the longest of
    the heading and its cells. *)
Definition column_width (rows : list dict) (h : string) : nat :=
  fold_right Nat.max (String.length h)
    (map (fun row => String.length (cell_text row h)) rows).

(** A line of the table of [rows]: each text, whole, followed by spaces up to
    the width of its column, and two spaces between the columns. *)
Definition table_line (rows : list dict) (texts : list string) : string :=
  join "  "
    (map (fun ht =>
            snd ht ++ repeat_char " " (column_width rows (fst ht) - String.length (snd ht)))
         (combine headers texts)).

(** The lines of the table of [rows]: the headings, a rule of dashes and a
    line for each row. *)
Definition table (rows : list dict) : list string :=
  table_line rows headers
  :: repeat_char "-" (sum (map (column_width rows) headers) + 12)
  :: map (fun row => table_line rows (map (cell_text row) headers)) rows.

(** A cell that is a string no longer than the width of its column. *)
Definition fits (v : value) (w : nat) : Prop :=
  exists s, v = VStr s /\ (String.length s <= w)%nat.

(* --- text --- *)
(** What a string starts with fails [p], or the string is empty. *)
Definition stops (p : ascii -> bool) (s : string) : Prop :=
  match s with
  | EmptyString => True
  | String c _ => p c = false
  end.

(** The pattern [([AP]M)(\+\d)] at the start of [s]. *)
Definition offset_at (s : string) : bool :=
  match s with
  | String a (String "M" (String "+" (String d _))) =>
      ((a =? "A") || (a =? "P"))%char && is_digit d
  | _ => false
  end.

Definition no_break_space : ascii := ascii_of_N 160.

Definition not_no_break_space (c : ascii) : bool := negb (c =? no_break_space)%char.

(* --- the year of a travel date --- *)
(** The year [y] written by [str] starts with no white space and is read back
    by [%Y] as [y], when [%Y] reads it at all. *)
Definition year_text_ok (y : Z) : bool :=
  match str_of_int y with
  | String c _ => negb (is_space c)
  | EmptyString => false
  end
  && match take_digits 4 0 (str_of_int y) with
     | Some (v, EmptyString) => v =? y
     | _ => true
     end.

(* --- the dates of a record --- *)
(** An ISO date of the year [y], or no date. *)
Definition in_year (y : Z) (iso : string) : Prop :=
  iso = "" \/ exists t, valid_date t = true /\ year t = y /\ iso = isoformat t.

(** Two ISO dates of which the second is not before the first, or one date
    at most. *)
Definition not_before (dep_iso arr_iso : string) : Prop :=
  dep_iso = "" \/ arr_iso = ""
  \/ exists dep arr,
       valid_date dep = true /\ valid_date arr = true
       /\ dep_iso = isoformat dep /\ arr_iso = isoformat arr
       /\ date_ltb arr dep = false.

(** A stops text that does not say [nonstop] and whose first run of digits
    has more than [MAX_STR_DIGITS] of them. *)
Definition long_digit_run {U : Unicodedata} (container : card_content) : Prop :=
  exists text ds,
    stops_label container = Some text
    /\ contains "nonstop" (lower (normalise text)) = false
    /\ search_digits (normalise text) = Some ds
    /\ (MAX_STR_DIGITS < String.length ds)%nat.

(* --- month and day of a label --- *)
(** A month by its name, full or abbreviated, and a day. *)
Definition month_day_text (st : name_style) (m d : Z) : string :=
  nth (Z.to_nat (m - 1)) (month_names st) "" ++ " " ++ str_of_int d.

Definition month_day_reads_back (st : name_style) (m d : Z) : bool :=
  negb (contains ", " (month_day_text st m d))
  && match label_month_day ("Mon, " ++ month_day_text st m d) with
     | Some (m', d') => (m' =? m) && (d' =? d)
     | None => false
     end.

Definition month_days_read_back : bool :=
  forallb (fun st => forallb (fun m => forallb (month_day_reads_back st m) (Zseq 1 31))
                             (Zseq 1 12))
          [Full; Abbrev].

(* --- cards --- *)
(** The texts of [l] without those that an earlier text of [l] equals. *)
Fixpoint first_texts (l : list string) : list string :=
  match l with
  | [] => []
  | s :: rest => s :: filter (fun u => negb (u =? s)%string) (first_texts rest)
  end.

(** A card whose airline block names two airlines, one of them twice. *)
Definition codeshare_card : card_content := {|
  price_span := Some "IDR 1,250,000";
  airline_block :=
    Some (["Garuda Indonesia"; " "; "Citilink"; "Garuda Indonesia "],
          "Garuda Indonesia, Citilink");
  time_spans := ["10:00 PM"; "6:00 AM+1"];
  label_span := None;
  duration_label := Some "8 hr";
  stops_label := Some "1 stop"
|}.

(* --- the year in the text of the parameter --- *)
(** The year [y] is written [20cd], and [cd] read as a number gives it back. *)
Definition century_ok (y : Z) : bool :=
  match list_byte_of_string (zero_pad 4 y) with
  | [c1; c2; c3; c4] =>
      Byte.eqb c1 "2"%byte && Byte.eqb c2 "0"%byte
      && byte_is_digit c3 && byte_is_digit c4
      && (2000 + 10 * (Z.of_N (Byte.to_N c3) - 48) + (Z.of_N (Byte.to_N c4) - 48) =? y)
  | _ => false
  end.

(** The two bytes in front of the date of the sample URL: field 2 of the
    message, ten bytes long. *)
Definition date_field_tag : list byte := [x12; x0a].



(** The sample blob around the two bytes that open its date field. *)
Definition sample_head : list byte := Eval vm_compute in firstn 6 sample_blob.
Definition sample_rest : list byte := Eval vm_compute in skipn 8 sample_blob.

(** A command line that gives its dates, one of them twice. *)
Definition dated_args : arguments := {|
  arg_url := DEFAULT_URL;
  arg_target_date := "Wed, Oct 8";
  arg_dates := Some "2025-12-24,2026-01-02,2025-12-24";
  arg_range_start := None;
  arg_range_end := None;
  arg_year_offsets := "0,1"
|}.

(* --- harvests --- *)
(** The harvest of [paged_driver] with a cap of three records. *)
Definition capped_rows : list dict :=
  [ flight_row "IDR 900,000"; flight_row "IDR 950,000"; flight_row "IDR 990,000" ].

(** A page whose second card went stale before its identifier was read. *)
Definition stale_card : card := {| data_id := Stale; content := Stale |}.

Definition stale_driver : driver := {|
  cards_present := true;
  pass := fun _ =>
    {| found_cards := [flight_card (Some "a") "IDR 900,000"; stale_card];
       more_controls := [[]; []; []; []];
       recount := 2 |}
|}.

(** A page whose card has a stops text of 4301 digits. *)
Definition long_stops_card : card := {|
  data_id := Got (Some "a");
  content := Got {|
    price_span := Some "IDR 900,000";
    airline_block := Some (["Garuda Indonesia"], "Garuda Indonesia");
    time_spans := ["7:00 AM"; "10:00 AM"];
    label_span := Some (Some "Leaves Jakarta at 7:00 AM on Monday, December 1");
    duration_label := Some "2 hr";
    stops_label := Some (repeat_char "1" 4301 ++ " stops")
  |}
|}.

Definition long_stops_driver : driver := {|
  cards_present := true;
  pass := fun _ =>
    {| found_cards := [long_stops_card];
       more_controls := [[]; []; []; []];
       recount := 1 |}
|}.

(** A page whose "show more" element went stale before it was looked at. *)
Definition stale_control_driver : driver := {|
  cards_present := true;
  pass := fun _ =>
    {| found_cards := [flight_card (Some "a") "IDR 900,000"];
       more_controls := [[]; [{| is_displayed := Stale; click_runs := true |}]; []; []];
       recount := 1 |}
|}.

(** The rows of the table of [paged_rows], for 1 December 2025. *)
Definition final_rows : list dict :=
  Eval vm_compute in normalise_output_rows paged_rows (mkdate 2025 12 1).

(* ================================================================= *)
(** ** Properties *)

(* ----------------------------------------------------------------- *)
(** *** Finite checks *)

Lemma In_Zrange : forall n lo z, lo <= z < lo + Z.of_nat n -> In z (Zrange lo n).
Proof.
  induction n as [|n IH]; intros lo z Hz; simpl.
  - lia.
  - destruct (Z.eq_dec lo z) as [->|Hne]; [now left|right].
    apply IH. lia.
Qed.

Lemma forallb_Zrange (p : Z -> bool) lo n :
  forallb p (Zrange lo n) = true ->
  forall z, lo <= z < lo + Z.of_nat n -> p z = true.
Proof.
  intros H z Hz. rewrite forallb_forall in H. apply H, In_Zrange, Hz.
Qed.

Lemma forallb_Zseq (p : Z -> bool) lo hi :
  forallb p (Zseq lo hi) = true -> forall z, lo <= z <= hi -> p z = true.
Proof.
  intros H z Hz. apply (forallb_Zrange p lo _ H). lia.
Qed.

Lemma is_leap_spec y :
  is_leap y = true <-> (y mod 4 = 0 /\ (y mod 100 <> 0 \/ y mod 400 = 0)).
Proof.
  unfold is_leap.
  rewrite andb_true_iff, orb_true_iff, negb_true_iff, !Z.eqb_eq, Z.eqb_neq.
  tauto.
Qed.

Lemma days_before_year_succ y :
  days_before_year (y + 1) = days_before_year y + 365 + (if is_leap y then 1 else 0).
Proof.
  unfold days_before_year, is_leap.
  replace (y + 1 - 1) with y by lia.
  destruct (Z.eqb_spec (y mod 4) 0), (Z.eqb_spec (y mod 100) 0), (Z.eqb_spec (y mod 400) 0);
    simpl; Z.div_mod_to_equations; lia.
Qed.

Lemma days_before_year_mono y1 y2 :
  y1 <= y2 -> days_before_year y1 <= days_before_year y2.
Proof.
  unfold days_before_year. intros H. Z.div_mod_to_equations. lia.
Qed.

(* ----------------------------------------------------------------- *)
(** *** The calendar *)

Lemma month_day_correct (leapyear : bool) (n : Z) :
  0 <= n < 365 + (if leapyear then 1 else 0) -> month_day_ok leapyear n = true.
Proof.
  intros Hn. destruct leapyear.
  - apply (forallb_Zseq (month_day_ok true) 0 365); [vm_compute; reflexivity | lia].
  - apply (forallb_Zseq (month_day_ok false) 0 364); [vm_compute; reflexivity | lia].
Qed.

Lemma ord2ymd_tail (n y : Z) (leapyear : bool) :
  (let m := Z.shiftr (n + 50) 5 in
    let preceding := DAYS_BEFORE_MONTH m + (if (2 <? m) && leapyear then 1 else 0) in
    if n <? preceding then
      let m := m - 1 in
      let preceding :=
        preceding - (DAYS_IN_MONTH m + (if (m =? 2) && leapyear then 1 else 0)) in
      mkdate y m (n - preceding + 1)
    else mkdate y m (n - preceding + 1))
  = mkdate y (fst (month_day leapyear n)) (snd (month_day leapyear n)).
Proof.
  unfold month_day. cbv zeta.
  match goal with |- (if ?c then _ else _) = _ => destruct c end; reflexivity.
Qed.

Lemma is_leap_of_parts n400 n100 n4 n1 :
  0 <= n400 -> 0 <= n100 <= 3 -> 0 <= n4 <= 24 -> 0 <= n1 <= 3 ->
  is_leap (n400 * 400 + 1 + n100 * 100 + n4 * 4 + n1)
  = (n1 =? 3) && (negb (n4 =? 24) || (n100 =? 3)).
Proof.
  intros H400 H100 H4 H1. unfold is_leap.
  set (y := n400 * 400 + 1 + n100 * 100 + n4 * 4 + n1).
  assert (E4 : y mod 4 = (n1 + 1) mod 4).
  { unfold y. Z.div_mod_to_equations. lia. }
  assert (E100 : y mod 100 = (n4 * 4 + n1 + 1) mod 100).
  { unfold y. Z.div_mod_to_equations. lia. }
  assert (E400 : y mod 400 = (n100 * 100 + n4 * 4 + n1 + 1) mod 400).
  { unfold y. Z.div_mod_to_equations. lia. }
  rewrite E4, E100, E400.
  destruct (Z.eqb_spec n1 3), (Z.eqb_spec n4 24), (Z.eqb_spec n100 3);
    destruct (Z.eqb_spec ((n1 + 1) mod 4) 0),
             (Z.eqb_spec ((n4 * 4 + n1 + 1) mod 100) 0),
             (Z.eqb_spec ((n100 * 100 + n4 * 4 + n1 + 1) mod 400) 0);
    simpl; try reflexivity; exfalso; Z.div_mod_to_equations; lia.
Qed.

Lemma days_before_year_of_parts n400 n100 n4 n1 :
  0 <= n400 -> 0 <= n100 <= 3 -> 0 <= n4 <= 24 -> 0 <= n1 <= 3 ->
  days_before_year (n400 * 400 + 1 + n100 * 100 + n4 * 4 + n1)
  = n400 * DI400Y + n100 * DI100Y + n4 * DI4Y + n1 * 365.
Proof.
  intros. unfold days_before_year, DI400Y, DI100Y, DI4Y.
  Z.div_mod_to_equations. lia.
Qed.

Lemma ord2ymd_correct n :
  1 <= n <= MAXORDINAL ->
  valid_date (ord2ymd n) = true /\ toordinal (ord2ymd n) = n.
Proof.
  intros Hn. unfold MAXORDINAL in Hn. unfold ord2ymd.
  set (N := n - 1).
  set (n400 := N / DI400Y). set (r1 := N mod DI400Y).
  set (n100 := r1 / DI100Y). set (r2 := r1 mod DI100Y).
  set (n4 := r2 / DI4Y). set (r3 := r2 mod DI4Y).
  set (n1 := r3 / 365). set (r4 := r3 mod 365).
  cbv zeta.
  assert (HN : N = n400 * DI400Y + n100 * DI100Y + n4 * DI4Y + n1 * 365 + r4
               /\ 0 <= n400 <= 24 /\ 0 <= n100 <= 4 /\ 0 <= n4 <= 24 /\ 0 <= n1 <= 4
               /\ 0 <= r4 < 365 /\ 0 <= r3 < DI4Y /\ r3 = n1 * 365 + r4
               /\ 0 <= r2 < DI100Y /\ r2 = n4 * DI4Y + r3
               /\ 0 <= r1 < DI400Y /\ r1 = n100 * DI100Y + r2).
  { unfold DI400Y, DI100Y, DI4Y in *.
    assert (A1 : N = 146097 * n400 + r1 /\ 0 <= r1 < 146097).
    { split; [apply Z.div_mod; lia | apply Z.mod_pos_bound; lia]. }
    assert (A2 : r1 = 36524 * n100 + r2 /\ 0 <= r2 < 36524).
    { split; [apply Z.div_mod; lia | apply Z.mod_pos_bound; lia]. }
    assert (A3 : r2 = 1461 * n4 + r3 /\ 0 <= r3 < 1461).
    { split; [apply Z.div_mod; lia | apply Z.mod_pos_bound; lia]. }
    assert (A4 : r3 = 365 * n1 + r4 /\ 0 <= r4 < 365).
    { split; [apply Z.div_mod; lia | apply Z.mod_pos_bound; lia]. }
    assert (0 <= N <= 3652058) by (unfold N; lia).
    lia. }
  destruct HN as (HNeq & H400 & H100 & H4 & H1 & Hr4 & Hr3 & Er3 & Hr2 & Er2 & Hr1 & Er1).
  unfold DI400Y, DI100Y, DI4Y in *.
  destruct (Z.eqb_spec n1 4) as [E1|E1]; [|destruct (Z.eqb_spec n100 4) as [E100|E100]];
    simpl orb; cbv iota.
  - (* the last day of a leap year *)
    assert (L100 : 0 <= n100 <= 3) by lia.
    assert (Hl := is_leap_of_parts n400 n100 n4 3 ltac:(lia) L100 H4 ltac:(lia)).
    assert (Hd := days_before_year_of_parts n400 n100 n4 3 ltac:(lia) L100 H4 ltac:(lia)).
    assert (Hl' : is_leap (n400 * 400 + 1 + n100 * 100 + n4 * 4 + 3) = true).
    { rewrite Hl. destruct (Z.eqb_spec n4 24), (Z.eqb_spec n100 3); simpl; try reflexivity; lia. }
    clear Hl.
    remember (n400 * 400 + 1 + n100 * 100 + n4 * 4 + 3) as Y eqn:EY.
    replace (n400 * 400 + 1 + n100 * 100 + n4 * 4 + n1 - 1) with Y by lia.
    unfold valid_date, valid_ymd, toordinal, ymd2ord, days_in_month, days_before_month,
      MINYEAR, MAXYEAR, year, month, day.
    rewrite Hl', Hd. unfold DI400Y, DI100Y, DI4Y. simpl.
    split; [|lia].
    repeat (apply andb_true_intro; split); apply Z.leb_le; lia.
  - (* the last day of a cycle of 400 years *)
    assert (E4 : n4 = 0 /\ n1 = 0 /\ r4 = 0) by lia.
    destruct E4 as (E4 & E1' & Er4).
    assert (Hl := is_leap_of_parts n400 3 24 3 ltac:(lia) ltac:(lia) ltac:(lia) ltac:(lia)).
    assert (Hd := days_before_year_of_parts n400 3 24 3 ltac:(lia) ltac:(lia) ltac:(lia) ltac:(lia)).
    change ((3 =? 3) && (negb (24 =? 24) || (3 =? 3))) with true in Hl.
    remember (n400 * 400 + 1 + 3 * 100 + 24 * 4 + 3) as Y eqn:EY.
    replace (n400 * 400 + 1 + n100 * 100 + n4 * 4 + n1 - 1) with Y by lia.
    unfold valid_date, valid_ymd, toordinal, ymd2ord, days_in_month, days_before_month,
      MINYEAR, MAXYEAR, year, month, day.
    rewrite Hl, Hd. unfold DI400Y, DI100Y, DI4Y. simpl.
    split; [|lia].
    repeat (apply andb_true_intro; split); apply Z.leb_le; lia.
  - rewrite ord2ymd_tail.
    assert (L100 : 0 <= n100 <= 3) by lia.
    assert (L1 : 0 <= n1 <= 3) by lia.
    assert (Hl := is_leap_of_parts n400 n100 n4 n1 ltac:(lia) L100 H4 L1).
    assert (Hd := days_before_year_of_parts n400 n100 n4 n1 ltac:(lia) L100 H4 L1).
    remember ((n1 =? 3) && (negb (n4 =? 24) || (n100 =? 3))) as leapyear eqn:El.
    remember (n400 * 400 + 1 + n100 * 100 + n4 * 4 + n1) as Y eqn:EY.
    assert (Hr : 0 <= r4 < 365 + (if leapyear then 1 else 0)).
    { destruct leapyear; lia. }
    assert (Hok := month_day_correct leapyear r4 Hr).
    unfold month_day_ok in Hok.
    destruct (month_day leapyear r4) as [m d]. simpl fst. simpl snd.
    rewrite !andb_true_iff, !Z.leb_le, Z.eqb_eq in Hok.
    destruct Hok as ((((Hm1 & Hm2) & Hd1) & Hd2) & Hsum).
    unfold valid_date, valid_ymd, toordinal, ymd2ord, days_in_month, days_before_month,
      MINYEAR, MAXYEAR, year, month, day.
    rewrite Hl, Hd. unfold DI400Y, DI100Y, DI4Y.
    split; [|lia].
    repeat (apply andb_true_intro; split); apply Z.leb_le; try lia.
Qed.

Lemma valid_date_spec t :
  valid_date t = true <->
  (1 <= year t <= 9999 /\ 1 <= month t <= 12 /\ 1 <= day t <= days_in_month (year t) (month t)).
Proof.
  unfold valid_date, valid_ymd, MINYEAR, MAXYEAR.
  rewrite !andb_true_iff, !Z.leb_le. tauto.
Qed.

Ltac month_cases m :=
  let H := fresh in
  assert (H : m = 1 \/ m = 2 \/ m = 3 \/ m = 4 \/ m = 5 \/ m = 6 \/ m = 7 \/ m = 8
              \/ m = 9 \/ m = 10 \/ m = 11 \/ m = 12) by lia;
  repeat (destruct H as [H|H]; [subst m|]); [..|subst m].

Ltac month_tables :=
  cbv [DAYS_BEFORE_MONTH DAYS_IN_MONTH Z.eqb Z.ltb Z.compare Pos.compare
       Pos.compare_cont Pos.eqb andb] in *.

Lemma day_of_year_bounds y m d :
  1 <= m <= 12 -> 1 <= d <= days_in_month y m ->
  1 <= days_before_month y m + d <= 365 + (if is_leap y then 1 else 0).
Proof.
  unfold days_in_month, days_before_month.
  destruct (is_leap y); intros Hm Hd; month_cases m; month_tables; lia.
Qed.

Lemma day_of_year_lt y m1 d1 m2 d2 :
  1 <= m1 <= 12 -> 1 <= d1 <= days_in_month y m1 ->
  1 <= m2 <= 12 -> 1 <= d2 <= days_in_month y m2 ->
  (m1 < m2 \/ m1 = m2 /\ d1 < d2) <->
  days_before_month y m1 + d1 < days_before_month y m2 + d2.
Proof.
  unfold days_in_month, days_before_month.
  destruct (is_leap y); intros Hm1 Hd1 Hm2 Hd2; month_cases m1; month_cases m2;
    month_tables; lia.
Qed.

Lemma toordinal_bounds t :
  valid_date t = true -> 1 <= toordinal t <= MAXORDINAL.
Proof.
  rewrite valid_date_spec. intros (Hy & Hm & Hd).
  pose proof (day_of_year_bounds _ _ _ Hm Hd) as Hb.
  pose proof (days_before_year_succ (year t)) as Hs.
  pose proof (days_before_year_mono 1 (year t) ltac:(lia)) as H1.
  pose proof (days_before_year_mono (year t + 1) 10000 ltac:(lia)) as H2.
  change (days_before_year 1) with 0 in H1.
  change (days_before_year 10000) with 3652059 in H2.
  unfold toordinal, ymd2ord, MAXORDINAL. lia.
Qed.

Lemma date_ltb_spec a b :
  date_ltb a b = true <->
  (year a < year b \/ year a = year b /\ (month a < month b \/ month a = month b /\ day a < day b)).
Proof.
  unfold date_ltb.
  rewrite !orb_true_iff, !andb_true_iff, !orb_true_iff, !andb_true_iff, !Z.ltb_lt, !Z.eqb_eq.
  tauto.
Qed.

(** Dates compare as their ordinals do. *)
Lemma date_ltb_toordinal a b :
  valid_date a = true -> valid_date b = true ->
  (date_ltb a b = true <-> toordinal a < toordinal b).
Proof.
  intros Va Vb. rewrite date_ltb_spec.
  apply valid_date_spec in Va, Vb.
  destruct Va as (Hya & Hma & Hda), Vb as (Hyb & Hmb & Hdb).
  pose proof (day_of_year_bounds _ _ _ Hma Hda) as Ba.
  pose proof (day_of_year_bounds _ _ _ Hmb Hdb) as Bb.
  pose proof (days_before_year_succ (year a)) as Sa.
  pose proof (days_before_year_succ (year b)) as Sb.
  unfold toordinal, ymd2ord.
  destruct (Z.lt_trichotomy (year a) (year b)) as [Hlt|[Heq|Hgt]].
  - pose proof (days_before_year_mono (year a + 1) (year b) ltac:(lia)). lia.
  - rewrite Heq in *.
    pose proof (day_of_year_lt (year b) _ _ _ _ Hma Hda Hmb Hdb) as Hl.
    lia.
  - pose proof (days_before_year_mono (year b + 1) (year a) ltac:(lia)). lia.
Qed.

Lemma date_eta t : mkdate (year t) (month t) (day t) = t.
Proof. destruct t; reflexivity. Qed.

Lemma toordinal_inj a b :
  valid_date a = true -> valid_date b = true -> toordinal a = toordinal b -> a = b.
Proof.
  intros Va Vb E.
  pose proof (date_ltb_toordinal a b Va Vb) as Hab.
  pose proof (date_ltb_toordinal b a Vb Va) as Hba.
  rewrite date_ltb_spec in Hab, Hba.
  rewrite <- (date_eta a), <- (date_eta b).
  assert (year a = year b /\ month a = month b /\ day a = day b) as (-> & -> & ->) by lia.
  reflexivity.
Qed.

Lemma fromordinal_toordinal t :
  valid_date t = true -> fromordinal (toordinal t) = t.
Proof.
  intros V. pose proof (toordinal_bounds t V) as B.
  destruct (ord2ymd_correct (toordinal t) B) as [V' E].
  apply toordinal_inj; assumption.
Qed.

(** Adding days adds to the ordinal, inside the calendar. *)
Lemma add_days_spec t n r :
  add_days t n = Some r ->
  valid_date r = true /\ toordinal r = toordinal t + n.
Proof.
  unfold add_days.
  destruct ((0 <? toordinal t + n) && (toordinal t + n <=? MAXORDINAL)) eqn:E; [|discriminate].
  intros [= <-]. apply andb_true_iff in E. destruct E as [E1 E2].
  apply Z.ltb_lt in E1. apply Z.leb_le in E2.
  apply ord2ymd_correct. lia.
Qed.

Lemma add_days_some t n :
  1 <= toordinal t + n <= MAXORDINAL -> add_days t n = Some (fromordinal (toordinal t + n)).
Proof.
  intros H. unfold add_days.
  replace (0 <? toordinal t + n) with true by (symmetry; apply Z.ltb_lt; lia).
  replace (toordinal t + n <=? MAXORDINAL) with true by (symmetry; apply Z.leb_le; lia).
  reflexivity.
Qed.

(* ----------------------------------------------------------------- *)
(** *** Dates as text *)

(* --- text --- *)
Lemma append_assoc (a b c : string) : ((a ++ b) ++ c = a ++ (b ++ c))%string.
Proof. induction a as [|x a IH]; simpl; [reflexivity | now rewrite IH]. Qed.

Lemma append_nil_r (a : string) : (a ++ "")%string = a.
Proof. induction a as [|x a IH]; simpl; [reflexivity | now rewrite IH]. Qed.

Lemma str_nonempty_app_r (a b : string) :
  str_nonempty b = true -> str_nonempty (a ++ b) = true.
Proof. destruct a; simpl; auto. Qed.

Lemma str_nonempty_true_iff (s : string) : str_nonempty s = true <-> s <> "".
Proof. destruct s; simpl; split; congruence. Qed.

Lemma take_digits_app k : forall acc s v rest,
  take_digits k acc s = Some (v, "") ->
  take_digits k acc (s ++ rest) = Some (v, rest).
Proof.
  induction k as [|k IH]; intros acc s v rest H; simpl in *.
  - injection H as <- ->. reflexivity.
  - destruct s as [|c r]; [discriminate|]. simpl.
    destruct (is_digit c); [|discriminate]. now apply IH.
Qed.

Lemma pad_ok_spec w n :
  pad_ok w n = true -> take_digits w 0 (zero_pad w n) = Some (n, "").
Proof.
  unfold pad_ok. destruct (take_digits w 0 (zero_pad w n)) as [[v [|c r]]|]; try discriminate.
  intros H. apply Z.eqb_eq in H. now subst.
Qed.

Lemma zero_pad_4 y : 1 <= y <= 9999 -> take_digits 4 0 (zero_pad 4 y) = Some (y, "").
Proof.
  intros H. apply pad_ok_spec.
  apply (forallb_Zseq (pad_ok 4) 1 9999); [vm_compute; reflexivity | lia].
Qed.

Lemma zero_pad_2 n : 1 <= n <= 31 -> take_digits 2 0 (zero_pad 2 n) = Some (n, "").
Proof.
  intros H. apply pad_ok_spec.
  apply (forallb_Zseq (pad_ok 2) 1 31); [vm_compute; reflexivity | lia].
Qed.

Lemma days_in_month_le y m : days_in_month y m <= 31.
Proof.
  unfold days_in_month. destruct ((m =? 2) && is_leap y); [lia|].
  unfold DAYS_IN_MONTH.
  destruct m as [|p|p]; try lia.
  do 4 (destruct p as [p|p|]; try lia).
Qed.

Lemma date_new_valid t : valid_date t = true -> date_new (year t) (month t) (day t) = Some t.
Proof.
  intros V. unfold date_new. unfold valid_date in V. rewrite V. now rewrite date_eta.
Qed.

Lemma date_new_some y m d t : date_new y m d = Some t -> valid_date t = true.
Proof.
  unfold date_new. destruct (valid_ymd y m d) eqn:E; [|discriminate].
  intros [= <-]. exact E.
Qed.

(** An ISO date reads back as the date it was written from. *)
Lemma fromisoformat_isoformat t :
  valid_date t = true -> fromisoformat (isoformat t) = Some t.
Proof.
  intros V. pose proof V as V'. apply valid_date_spec in V'. destruct V' as (Hy & Hm & Hd).
  pose proof (days_in_month_le (year t) (month t)) as Hle.
  assert (Hm' : 1 <= month t <= 31) by lia.
  assert (Hd' : 1 <= day t <= 31) by lia.
  unfold fromisoformat, isoformat.
  rewrite (take_digits_app 4 0 _ _ _ (zero_pad_4 _ Hy)). cbn [append].
  rewrite (take_digits_app 2 0 _ _ _ (zero_pad_2 _ Hm')). cbn [append].
  rewrite <- (append_nil_r (zero_pad 2 (day t))).
  rewrite (take_digits_app 2 0 _ _ _ (zero_pad_2 _ Hd')).
  now apply date_new_valid.
Qed.

Lemma isoformat_nonempty t : str_nonempty (isoformat t) = true.
Proof. unfold isoformat. apply str_nonempty_app_r. reflexivity. Qed.

Lemma isoformat_inj a b :
  valid_date a = true -> valid_date b = true -> isoformat a = isoformat b -> a = b.
Proof.
  intros Va Vb E. apply fromisoformat_isoformat in Va, Vb.
  rewrite E in Va. congruence.
Qed.

(* ----------------------------------------------------------------- *)
(** *** Date labels *)

Lemma label_month_day_label_of w m d :
  0 <= w <= 6 -> 1 <= m <= 12 -> 1 <= d <= 31 ->
  label_month_day (label_of w m d) = Some (m, d).
Proof.
  intros Hw Hm Hd.
  assert (H : labels_read_back = true) by (vm_compute; reflexivity).
  unfold labels_read_back in H.
  pose proof (forallb_Zseq _ _ _ H w Hw) as H1. cbv beta in H1.
  pose proof (forallb_Zseq _ _ _ H1 m Hm) as H2. cbv beta in H2.
  pose proof (forallb_Zseq _ _ _ H2 d Hd) as H3.
  unfold label_reads_back in H3.
  destruct (label_month_day (label_of w m d)) as [[m' d']|]; [|discriminate].
  apply andb_true_iff in H3. destruct H3 as [E1 E2].
  apply Z.eqb_eq in E1, E2. now subst.
Qed.

(** C9.  For every date [D] of the calendar, the label of [D] read back with
    the year of [D] is [D]. *)
Theorem label_round_trip (D : date) :
  valid_date D = true -> label_to_date (date_to_label D) (year D) = Some D.
Proof.
  intros V. pose proof V as V'. apply valid_date_spec in V'. destruct V' as (Hy & Hm & Hd).
  pose proof (days_in_month_le (year D) (month D)) as Hle.
  assert (Hw : 0 <= weekday D <= 6).
  { unfold weekday. pose proof (Z.mod_pos_bound (toordinal D + 6) 7 ltac:(lia)). lia. }
  unfold label_to_date.
  change (date_to_label D) with (label_of (weekday D) (month D) (day D)).
  rewrite label_month_day_label_of by lia.
  now apply date_new_valid.
Qed.

(** The default label of the program. *)
Lemma label_round_trip_witness :
  valid_date (mkdate 2025 10 8) = true
  /\ date_to_label (mkdate 2025 10 8) = "Wed, Oct 8"
  /\ label_to_date (date_to_label (mkdate 2025 10 8)) 2025 = Some (mkdate 2025 10 8).
Proof.
  split; [reflexivity|]. split; [reflexivity|].
  apply (label_round_trip (mkdate 2025 10 8)). reflexivity.
Defined.

(* --- parsed dates are dates of the calendar --- *)
Lemma strptime_date_valid wst mst s t :
  strptime_date wst mst s = Some t -> valid_date t = true.
Proof.
  unfold strptime_date.
  destruct (find_sub "," s) as [[w r1]|]; [|discriminate].
  destruct (name_index (weekday_names wst) w); [|discriminate].
  destruct (span is_space r1) as [ws1 r2].
  destruct (span not_space r2) as [mtok r3].
  destruct (span is_space r3) as [ws2 r4].
  destruct (span not_space r4) as [dtok r5].
  destruct (span is_space r5) as [ws3 r6].
  destruct (str_nonempty ws1 && str_nonempty ws2 && str_nonempty ws3); [|discriminate].
  destruct (strptime_month mst mtok); [|discriminate].
  destruct (parse_day dtok); [|discriminate].
  destruct (take_digits 4 0 r6) as [[y [|c r]]|]; try discriminate.
  apply date_new_some.
Qed.

Lemma first_format_valid fmts s t :
  first_format fmts s = Some t -> valid_date t = true.
Proof.
  induction fmts as [|[wst mst] rest IH]; simpl; [discriminate|].
  destruct (strptime_date wst mst s) eqn:E.
  - intros [= <-]. eapply strptime_date_valid, E.
  - exact IH.
Qed.

Lemma parsed_date_valid fragment travel_year t :
  parsed_date fragment travel_year = Some t -> valid_date t = true.
Proof.
  unfold parsed_date. destruct (search_on_date fragment); [|discriminate].
  apply first_format_valid.
Qed.

(* --- the rollover loop --- *)
Lemma date_ltb_irrefl t : date_ltb t t = false.
Proof.
  unfold date_ltb. rewrite !Z.ltb_irrefl, !Z.eqb_refl. reflexivity.
Qed.

Lemma advance_arrival_not_earlier fuel arr dep :
  date_ltb arr dep = false -> advance_arrival fuel arr dep = Some (Ok arr).
Proof. intros H. destruct fuel; simpl; rewrite H; reflexivity. Qed.

Lemma advance_arrival_reaches : forall (k : nat) arr dep,
  valid_date arr = true -> valid_date dep = true ->
  toordinal dep - toordinal arr = Z.of_nat k ->
  forall fuel, (k <= fuel)%nat -> advance_arrival fuel arr dep = Some (Ok dep).
Proof.
  induction k as [|k IH]; intros arr dep Va Vd E fuel Hf.
  - assert (arr = dep) as -> by (apply toordinal_inj; auto; lia).
    apply advance_arrival_not_earlier, date_ltb_irrefl.
  - destruct fuel as [|fuel]; [lia|]. simpl.
    assert (Hlt : date_ltb arr dep = true) by (apply date_ltb_toordinal; auto; lia).
    rewrite Hlt.
    pose proof (toordinal_bounds arr Va) as Ba.
    pose proof (toordinal_bounds dep Vd) as Bd.
    rewrite add_days_some by lia.
    destruct (ord2ymd_correct (toordinal arr + 1) ltac:(lia)) as [Vn En].
    apply IH; auto; [|lia]. unfold fromordinal. lia.
Qed.

(* ----------------------------------------------------------------- *)
(** *** The dates of a descriptive label *)

Lemma parse_date_fragment_of_parsed fragment travel_year t :
  parsed_date fragment travel_year = Some t ->
  _parse_date_fragment fragment travel_year = isoformat t.
Proof. unfold _parse_date_fragment. now intros ->. Qed.

(** C4.  When both fragments of a label give a date, the arrival date
    returned is the parsed arrival date advanced by [k] whole days, where [k]
    is the first number of days after which it is not earlier than the
    departure date: the departure date itself when the parsed arrival date is
    earlier, the parsed arrival date unchanged ([k = 0]) when it is not.  The
    loop needs [k] rounds. *)
Theorem parse_dates_from_label_rollover
    (label : string) (travel_year : Z) (dep arr : date) :
  parsed_date (fst (label_fragments label)) travel_year = Some dep ->
  parsed_date (snd (label_fragments label)) travel_year = Some arr ->
  let returned := if date_ltb arr dep then dep else arr in
  exists k : nat,
    add_days arr (Z.of_nat k) = Some returned
    /\ date_ltb returned dep = false
    /\ (forall j : nat, (j < k)%nat ->
          exists a, add_days arr (Z.of_nat j) = Some a /\ date_ltb a dep = true)
    /\ (forall fuel, (k <= fuel)%nat ->
          _parse_dates_from_label fuel label travel_year
          = Some (Ok (isoformat dep, isoformat returned))).
Proof.
  intros Hd Ha returned.
  pose proof (parsed_date_valid _ _ _ Hd) as Vd.
  pose proof (parsed_date_valid _ _ _ Ha) as Va.
  pose proof (toordinal_bounds dep Vd) as Bd.
  pose proof (toordinal_bounds arr Va) as Ba.
  assert (Hrun : forall fuel r,
             advance_arrival fuel arr dep = Some (Ok r) ->
             _parse_dates_from_label fuel label travel_year
             = Some (Ok (isoformat dep, isoformat r))).
  { intros fuel r Hr. unfold _parse_dates_from_label.
    destruct (label_fragments label) as [df af]. simpl fst in Hd. simpl snd in Ha.
    rewrite (parse_date_fragment_of_parsed _ _ _ Hd), (parse_date_fragment_of_parsed _ _ _ Ha).
    rewrite !isoformat_nonempty. simpl andb. cbv iota.
    rewrite !fromisoformat_isoformat by assumption.
    now rewrite Hr. }
  subst returned. destruct (date_ltb arr dep) eqn:Hlt.
  - pose proof (proj1 (date_ltb_toordinal arr dep Va Vd) Hlt) as Ho.
    exists (Z.to_nat (toordinal dep - toordinal arr)).
    rewrite Z2Nat.id by lia.
    split; [|split; [|split]].
    + rewrite add_days_some by lia.
      replace (toordinal arr + (toordinal dep - toordinal arr)) with (toordinal dep) by lia.
      now rewrite fromordinal_toordinal.
    + apply date_ltb_irrefl.
    + intros j Hj. exists (fromordinal (toordinal arr + Z.of_nat j)).
      split; [apply add_days_some; lia|].
      destruct (ord2ymd_correct (toordinal arr + Z.of_nat j) ltac:(lia)) as [Vj Ej].
      apply date_ltb_toordinal; auto. unfold fromordinal. lia.
    + intros fuel Hf. apply Hrun.
      apply (advance_arrival_reaches (Z.to_nat (toordinal dep - toordinal arr))); auto. lia.
  - exists O. split; [|split; [|split]].
    + rewrite add_days_some by (simpl; lia).
      rewrite Z.add_0_r. now rewrite fromordinal_toordinal.
    + exact Hlt.
    + intros j Hj. lia.
    + intros fuel _. apply Hrun. now apply advance_arrival_not_earlier.
Qed.

(** An arrival on 1 January read in the year of a departure on 31 December. *)
Lemma parse_dates_from_label_rollover_witness :
  exists k : nat,
    add_days (mkdate 2025 1 1) (Z.of_nat k) = Some (mkdate 2025 12 31)
    /\ date_ltb (mkdate 2025 12 31) (mkdate 2025 12 31) = false
    /\ (forall j : nat, (j < k)%nat ->
          exists a, add_days (mkdate 2025 1 1) (Z.of_nat j) = Some a
                    /\ date_ltb a (mkdate 2025 12 31) = true)
    /\ (forall fuel, (k <= fuel)%nat ->
          _parse_dates_from_label fuel rollover_label 2025
          = Some (Ok (isoformat (mkdate 2025 12 31), isoformat (mkdate 2025 12 31)))).
Proof.
  exact (parse_dates_from_label_rollover rollover_label 2025
           (mkdate 2025 12 31) (mkdate 2025 1 1) eq_refl eq_refl).
Defined.

(* ----------------------------------------------------------------- *)
(** *** The times of a card *)

Section RowFacts.

Context {U : Unicodedata}.

Lemma parse_date_fragment_cases fragment travel_year :
  _parse_date_fragment fragment travel_year = ""
  \/ exists t, valid_date t = true /\ _parse_date_fragment fragment travel_year = isoformat t.
Proof.
  unfold _parse_date_fragment.
  destruct (parsed_date fragment travel_year) as [t|] eqn:E; [right|now left].
  exists t. split; [eapply parsed_date_valid, E | reflexivity].
Qed.



Lemma search_offset_digit s d : search_offset s = Some d -> is_digit d = true.
Proof.
  induction s as [|c r IH]; simpl; [discriminate|].
  destruct r as [|d' r']; [discriminate|].
  destruct ((c =? "+")%char && is_digit d') eqn:E.
  - intros [= <-]. apply andb_true_iff in E. tauto.
  - exact IH.
Qed.

Lemma digit_val_range d : is_digit d = true -> 0 <= digit_val d <= 9.
Proof.
  unfold is_digit, char_in, digit_val, Ascii.leb, Ascii.compare.
  rewrite andb_true_iff.
  change (N_of_ascii "0") with 48%N. change (N_of_ascii "9") with 57%N.
  destruct (N.compare_spec 48 (N_of_ascii d)), (N.compare_spec (N_of_ascii d) 57);
    intros [? ?]; try discriminate; lia.
Qed.


End RowFacts.


Example overnight_card_times :
  extract_times (U := nfkc_ascii) 0 overnight_card 2025
  = Some (Ok [ ("departure", VStr "10:00 PM"); ("arrival", VStr "6:00 AM +1");
               ("departure_date", VStr "2025-12-01"); ("arrival_date", VStr "2025-12-02") ]).
Proof. vm_compute. reflexivity. Qed.


(** A label that gives an arrival date and no departure date: the arrival
    date of the label is returned, and the day offset of the arrival time is
    not added to anything. *)
Example arrival_only_label :
  label_dates (U := nfkc_ascii) 0 arrival_only_card 2025 = Some (Ok ("", "2025-12-02"))
  /\ search_offset (arrival_text (U := nfkc_ascii) arrival_only_card) = Some "1"%char
  /\ extract_times (U := nfkc_ascii) 0 arrival_only_card 2025
     = Some (Ok [ ("departure", VStr "10:00 PM"); ("arrival", VStr "6:00 AM +1");
                  ("departure_date", VStr ""); ("arrival_date", VStr "2025-12-02") ]).
Proof. repeat split; vm_compute; reflexivity. Qed.

(* ----------------------------------------------------------------- *)
(** *** The final rows *)

Lemma or_else_optional_str v fallback :
  optional_str v = true ->
  or_else v (VStr fallback)
  = VStr (if str_nonempty (text_of v) then text_of v else fallback).
Proof. destruct v as [|s|n]; simpl; try discriminate; intros _; [reflexivity|]. 
  unfold or_else. simpl. destruct (str_nonempty s); reflexivity. Qed.

(** C6, as the code has it.  The arrival display of a row is the arrival
    time text followed by the arrival date in brackets whenever the row has an
    arrival date, whatever the departure date is; without arrival date it is
    the arrival time text alone (and the date alone when the text is empty). *)
Theorem arrival_display_annotation
    (raw_rows : list dict) (target_date : date) (row : dict) :
  In row raw_rows ->
  optional_str (get row "arrival") = true ->
  optional_str (get row "arrival_date") = true ->
  let arrival := text_of (get row "arrival") in
  let arrival_date := text_of (get row "arrival_date") in
  let final := normalise_output_row row target_date in
  In final (normalise_output_rows raw_rows target_date)
  /\ get final "Waktu Datang"
     = VStr (if str_nonempty arrival_date then
               if str_nonempty arrival then arrival ++ " (" ++ arrival_date ++ ")"
               else arrival_date
             else arrival).
Proof.
  intros Hin Ha Hd arrival arrival_date final. split.
  - unfold normalise_output_rows. apply (in_map (fun r => normalise_output_row r target_date)), Hin.
  - subst final arrival arrival_date. unfold normalise_output_row, get at 1. simpl dict_get.
    destruct (get row "arrival") as [|a|n]; try discriminate;
      destruct (get row "arrival_date") as [|b|m]; try discriminate;
      try destruct a; try destruct b; reflexivity.
Qed.

(** C7.  The departure date of a final row is never empty: it is the date
    text parsed from the card when there is one, and the ISO form of the
    target date otherwise. *)
Theorem departure_date_never_empty
    (raw_rows : list dict) (target_date : date) (row : dict) :
  In row raw_rows ->
  optional_str (get row "departure_date") = true ->
  let parsed := text_of (get row "departure_date") in
  let final := normalise_output_row row target_date in
  In final (normalise_output_rows raw_rows target_date)
  /\ exists tanggal,
       get final "Tanggal" = VStr tanggal
       /\ str_nonempty tanggal = true
       /\ (str_nonempty parsed = true -> tanggal = parsed)
       /\ (str_nonempty parsed = false -> tanggal = isoformat target_date).
Proof.
  intros Hin Ht parsed final. split.
  - unfold normalise_output_rows. apply (in_map (fun r => normalise_output_row r target_date)), Hin.
  - subst final parsed. unfold normalise_output_row, get at 1. simpl dict_get.
    rewrite (or_else_optional_str _ _ Ht).
    eexists. split; [reflexivity|].
    destruct (str_nonempty (text_of (get row "departure_date"))) eqn:E.
    + split; [exact E|]. split; [reflexivity | discriminate].
    + split; [apply isoformat_nonempty|]. split; [discriminate | reflexivity].
Qed.

(** The row of a flight that lands on the day it leaves. *)
Lemma arrival_display_annotation_witness :
  In (normalise_output_row same_day_row (mkdate 2025 12 1))
     (normalise_output_rows [unparsed_row; same_day_row] (mkdate 2025 12 1))
  /\ get (normalise_output_row same_day_row (mkdate 2025 12 1)) "Waktu Datang"
     = VStr "10:00 AM (2025-12-01)".
Proof.
  exact (arrival_display_annotation [unparsed_row; same_day_row] (mkdate 2025 12 1)
           same_day_row (or_intror (or_introl eq_refl)) eq_refl eq_refl).
Defined.

(** A row whose card gave no date. *)
Lemma departure_date_never_empty_witness :
  In (normalise_output_row unparsed_row (mkdate 2025 12 1))
     (normalise_output_rows [unparsed_row; same_day_row] (mkdate 2025 12 1))
  /\ exists tanggal,
       get (normalise_output_row unparsed_row (mkdate 2025 12 1)) "Tanggal" = VStr tanggal
       /\ str_nonempty tanggal = true
       /\ (false = true -> tanggal = "")
       /\ (false = false -> tanggal = isoformat (mkdate 2025 12 1)).
Proof.
  exact (departure_date_never_empty [unparsed_row; same_day_row] (mkdate 2025 12 1)
           unparsed_row (or_introl eq_refl) eq_refl).
Defined.

(** C6 as the specification states it fails: a flight that lands on the day
    it leaves has its arrival date equal to its departure date, and its
    arrival display carries the date all the same. *)
Lemma same_day_arrival_is_annotated :
  extract_row (U := nfkc_ascii) 0 same_day_card 2025 = Some (Ok same_day_row)
  /\ get same_day_row "arrival_date" = get same_day_row "departure_date"
  /\ normalise_output_rows [same_day_row] (mkdate 2025 12 1)
     = [ [ ("Maskapai", VStr "Citilink"); ("Tanggal", VStr "2025-12-01");
           ("Waktu Berangkat", VStr "7:00 AM");
           ("Waktu Datang", VStr "10:00 AM (2025-12-01)");
           ("Durasi", VStr "2 hr"); ("Transit", VStr "Nonstop");
           ("Harga Tiket", VStr "IDR 950,000") ] ]
  /\ VStr "10:00 AM (2025-12-01)" <> get same_day_row "arrival".
Proof.
  split; [vm_compute; reflexivity|]. split; [reflexivity|].
  split; [vm_compute; reflexivity|]. discriminate.
Qed.

(* ----------------------------------------------------------------- *)
(** *** base64 *)

Lemma in_all_bytes (b : byte) : In b all_bytes.
Proof.
  unfold all_bytes.
  replace b with (byte_of_N (Z.to_N (Z.of_N (Byte.to_N b)))).
  - apply (in_map (fun z => byte_of_N (Z.to_N z))).
    apply In_Zrange. pose proof (Byte.to_N_bounded b). lia.
  - rewrite N2Z.id. unfold byte_of_N.
    pose proof (Byte.to_N_bounded b).
    rewrite N.mod_small by lia. now rewrite Byte.of_to_N.
Qed.

Lemma forall_bytes (p : byte -> bool) :
  forallb p all_bytes = true -> forall b, p b = true.
Proof. intros H b. rewrite forallb_forall in H. apply H, in_all_bytes. Qed.

Lemma forall_bytes2 (p : byte -> byte -> bool) :
  forallb (fun a => forallb (p a) all_bytes) all_bytes = true ->
  forall a b, p a b = true.
Proof.
  intros H a b. apply forall_bytes. exact (forall_bytes _ H a).
Qed.

Lemma option_N_eqb_eq a n : option_N_eqb a n = true -> a = Some n.
Proof. destruct a as [m|]; simpl; [|discriminate]. intros H. apply N.eqb_eq in H. now subst. Qed.

Lemma groups_ok : forall a b, group_ok a b = true.
Proof. apply forall_bytes2. vm_compute. reflexivity. Qed.

Lemma byte_eqb_eq (a b : byte) : Byte.eqb a b = true -> a = b.
Proof. apply Byte.byte_dec_bl. Qed.

Lemma group_facts a b :
  sextet_of (b64char (sextet1 a)) = Some (sextet1 a)
  /\ sextet_of (b64char (sextet2 a b)) = Some (sextet2 a b)
  /\ sextet_of (b64char (sextet3 a b)) = Some (sextet3 a b)
  /\ sextet_of (b64char (sextet4 a)) = Some (sextet4 a)
  /\ byte_of_N (N.lor (N.shiftl (sextet1 a) 2) (N.shiftr (sextet2 a b) 4)) = a
  /\ N.land (sextet2 a b) 15 = N.shiftr (Byte.to_N b) 4
  /\ byte_of_N (N.lor (N.shiftl (N.shiftr (Byte.to_N a) 4) 4) (N.shiftr (sextet3 a b) 2)) = a
  /\ byte_of_N (N.lor (N.shiftl (N.land (sextet3 a b) 3) 6) (sextet4 b)) = b.
Proof.
  pose proof (groups_ok a b) as H. unfold group_ok in H.
  rewrite !andb_true_iff in H.
  destruct H as (((((((((((H1 & H2) & H3) & H4) & H5) & H6) & H7) & H8) & _) & _) & _) & _).
  repeat split; try (now apply option_N_eqb_eq); try (now apply byte_eqb_eq).
  now apply N.eqb_eq.
Qed.

Lemma group_chars a b :
  char_ok (b64char (sextet1 a)) = true /\ char_ok (b64char (sextet2 a b)) = true
  /\ char_ok (b64char (sextet3 a b)) = true /\ char_ok (b64char (sextet4 a)) = true.
Proof.
  pose proof (groups_ok a b) as H. unfold group_ok in H.
  rewrite !andb_true_iff in H.
  destruct H as (((((((((((_ & _) & _) & _) & _) & _) & _) & _) & H9) & H10) & H11) & H12).
  auto.
Qed.

Lemma b64_bytes_ok : forall c, b64_byte_ok c = true.
Proof. apply forall_bytes. vm_compute. reflexivity. Qed.

Lemma sextet_of_facts c v :
  sextet_of c = Some v ->
  Byte.eqb (urlsafe_decode_translation c) BASE64_PAD = false
  /\ table_a2b_base64 (urlsafe_decode_translation c) = Some v
  /\ Ascii.eqb "=" (ascii_of_byte c) = false.
Proof.
  intros H. pose proof (b64_bytes_ok c) as K. unfold b64_byte_ok in K.
  unfold sextet_of in H.
  destruct (Byte.eqb c BASE64_PAD) eqn:E; [discriminate|].
  rewrite !andb_true_iff in K. destruct K as (K1 & K2).
  apply Bool.eqb_prop in K1, K2. auto.
Qed.

Lemma a2b_step c v rest quad_pos leftchar pads :
  sextet_of c = Some v ->
  a2b_base64_from (urlsafe_decode_translation c :: rest) quad_pos leftchar pads
  = match quad_pos with
    | 0%N => a2b_base64_from rest 1 v 0
    | 1%N =>
        push (byte_of_N (N.lor (N.shiftl leftchar 2) (N.shiftr v 4)))
             (a2b_base64_from rest 2 (N.land v 15) 0)
    | 2%N =>
        push (byte_of_N (N.lor (N.shiftl leftchar 4) (N.shiftr v 2)))
             (a2b_base64_from rest 3 (N.land v 3) 0)
    | _ =>
        push (byte_of_N (N.lor (N.shiftl leftchar 6) v))
             (a2b_base64_from rest 0 0 0)
    end.
Proof.
  intros H. destruct (sextet_of_facts c v H) as (E1 & E2 & _).
  cbn [a2b_base64_from]. rewrite E1, E2. reflexivity.
Qed.

Lemma a2b_group a b c rest :
  a2b_base64_from
    (detr (b64char (sextet1 a) :: b64char (sextet2 a b) :: b64char (sextet3 b c)
           :: b64char (sextet4 c) :: rest)) 0 0 0
  = push a (push b (push c (a2b_base64_from (detr rest) 0 0 0))).
Proof.
  destruct (group_facts a b) as (A1 & A2 & _ & _ & A5 & A6 & _ & _).
  destruct (group_facts b c) as (_ & _ & B3 & _ & _ & _ & B7 & B8).
  destruct (group_facts c c) as (_ & _ & _ & C4 & _).
  unfold detr. cbn [map].
  rewrite (a2b_step _ _ _ _ _ _ A1).
  rewrite (a2b_step _ _ _ _ _ _ A2). rewrite A5, A6.
  rewrite (a2b_step _ _ _ _ _ _ B3). rewrite B7.
  rewrite (a2b_step _ _ _ _ _ _ C4). rewrite B8.
  reflexivity.
Qed.

Lemma a2b_tail1 a :
  a2b_base64_from
    (detr [b64char (sextet1 a); b64char (sextet2 a x00); BASE64_PAD; BASE64_PAD]) 0 0 0
  = Some [a].
Proof.
  destruct (group_facts a x00) as (A1 & A2 & _ & _ & A5 & _).
  unfold detr. cbn [map].
  rewrite (a2b_step _ _ _ _ _ _ A1).
  rewrite (a2b_step _ _ _ _ _ _ A2). rewrite A5.
  reflexivity.
Qed.

Lemma a2b_tail2 a b :
  a2b_base64_from
    (detr [b64char (sextet1 a); b64char (sextet2 a b); b64char (sextet3 b x00);
           BASE64_PAD]) 0 0 0
  = Some [a; b].
Proof.
  destruct (group_facts a b) as (A1 & A2 & _ & _ & A5 & A6 & _ & _).
  destruct (group_facts b x00) as (_ & _ & B3 & _ & _ & _ & B7 & _).
  unfold detr. cbn [map].
  rewrite (a2b_step _ _ _ _ _ _ A1).
  rewrite (a2b_step _ _ _ _ _ _ A2). rewrite A5, A6.
  rewrite (a2b_step _ _ _ _ _ _ B3). rewrite B7.
  reflexivity.
Qed.

(** Induction on a list of bytes by groups of three. *)
Lemma list_ind3 (A : Type) (P : list A -> Prop) :
  P [] -> (forall a, P [a]) -> (forall a b, P [a; b]) ->
  (forall a b c rest, P rest -> P (a :: b :: c :: rest)) ->
  forall l, P l.
Proof.
  intros H0 H1 H2 H3.
  assert (H : forall l, P l /\ (forall a, P (a :: l)) /\ (forall a b, P (a :: b :: l))).
  { induction l as [|x l (IH0 & IH1 & IH2)].
    - auto.
    - repeat split; auto. }
  intros l. apply H.
Qed.

Lemma urlsafe_b64encode_cons3 a b c rest :
  urlsafe_b64encode (a :: b :: c :: rest)
  = b64char (sextet1 a) :: b64char (sextet2 a b) :: b64char (sextet3 b c)
    :: b64char (sextet4 c) :: urlsafe_b64encode rest.
Proof. reflexivity. Qed.

(** Decoding what the encoder wrote gives the bytes back. *)
Lemma a2b_b2a bs : a2b_base64 (detr (urlsafe_b64encode bs)) = Some bs.
Proof.
  unfold a2b_base64. induction bs as [|a|a b|a b c rest IH] using list_ind3.
  - reflexivity.
  - apply a2b_tail1.
  - apply a2b_tail2.
  - rewrite urlsafe_b64encode_cons3, a2b_group, IH. reflexivity.
Qed.

Lemma string_of_list_byte_cons a l :
  string_of_list_byte (a :: l) = String (ascii_of_byte a) (string_of_list_byte l).
Proof. reflexivity. Qed.

Lemma rstrip_keep (p : ascii -> bool) c r :
  p c = false -> rstrip p (String c r) = String c (rstrip p r).
Proof. intros H. cbn [rstrip]. rewrite H. now destruct (rstrip p r). Qed.

Lemma pad_count_add4 (n : nat) :
  Z.to_nat ((- Z.of_nat (4 + n)) mod 4) = Z.to_nat ((- Z.of_nat n) mod 4).
Proof.
  f_equal. replace (- Z.of_nat (4 + n)) with (- Z.of_nat n + (-1) * 4) by lia.
  apply Z_mod_plus_full.
Qed.

Lemma b64char_not_pad a b :
  Ascii.eqb "=" (ascii_of_byte (b64char (sextet1 a))) = false
  /\ Ascii.eqb "=" (ascii_of_byte (b64char (sextet2 a b))) = false
  /\ Ascii.eqb "=" (ascii_of_byte (b64char (sextet3 a b))) = false
  /\ Ascii.eqb "=" (ascii_of_byte (b64char (sextet4 a))) = false.
Proof.
  destruct (group_facts a b) as (A1 & A2 & A3 & A4 & _).
  repeat split; eapply sextet_of_facts; eassumption.
Qed.

Lemma char_ok_spec c :
  char_ok c = true ->
  is_ascii (ascii_of_byte c) = true /\ base64url_char (ascii_of_byte c) = true.
Proof. unfold char_ok. now rewrite andb_true_iff. Qed.

(** The encoder writes ASCII text. *)
Lemma urlsafe_b64encode_ascii bs :
  str_all is_ascii (string_of_list_byte (urlsafe_b64encode bs)) = true.
Proof.
  induction bs as [|a|a b|a b c rest IH] using list_ind3.
  - reflexivity.
  - destruct (group_chars a x00) as (C1 & C2 & _).
    apply char_ok_spec in C1, C2.
    change (urlsafe_b64encode [a])
      with [b64char (sextet1 a); b64char (sextet2 a x00); BASE64_PAD; BASE64_PAD].
    rewrite !string_of_list_byte_cons. cbn [str_all].
    rewrite (proj1 C1), (proj1 C2). reflexivity.
  - destruct (group_chars a b) as (C1 & C2 & _).
    destruct (group_chars b x00) as (_ & _ & C3 & _).
    apply char_ok_spec in C1, C2, C3.
    change (urlsafe_b64encode [a; b])
      with [b64char (sextet1 a); b64char (sextet2 a b); b64char (sextet3 b x00); BASE64_PAD].
    rewrite !string_of_list_byte_cons. cbn [str_all].
    rewrite (proj1 C1), (proj1 C2), (proj1 C3). reflexivity.
  - destruct (group_chars a b) as (C1 & C2 & _).
    destruct (group_chars b c) as (_ & _ & C3 & _).
    destruct (group_chars c c) as (_ & _ & _ & C4).
    apply char_ok_spec in C1, C2, C3, C4.
    rewrite urlsafe_b64encode_cons3, !string_of_list_byte_cons. cbn [str_all].
    rewrite (proj1 C1), (proj1 C2), (proj1 C3), (proj1 C4), IH. reflexivity.
Qed.

(** The value written in the URL: URL-safe text, to which the padding of
    lines 105-107 gives back the padded encoding. *)
Lemma encode_tfs_spec bs :
  base64url_text (encode_tfs bs) = true
  /\ (encode_tfs bs
      ++ repeat_char "=" (Z.to_nat ((- Z.of_nat (String.length (encode_tfs bs))) mod 4))
      = string_of_list_byte (urlsafe_b64encode bs))%string.
Proof.
  unfold encode_tfs, decode_ascii, base64url_text.
  induction bs as [|a|a b|a b c rest IH] using list_ind3.
  - split; reflexivity.
  - destruct (group_chars a x00) as (C1 & C2 & _).
    apply char_ok_spec in C1, C2.
    destruct (b64char_not_pad a x00) as (N1 & N2 & _).
    change (urlsafe_b64encode [a])
      with [b64char (sextet1 a); b64char (sextet2 a x00); BASE64_PAD; BASE64_PAD].
    rewrite !string_of_list_byte_cons.
    rewrite (rstrip_keep _ _ _ N1), (rstrip_keep _ _ _ N2).
    change (rstrip (Ascii.eqb "=") _) with EmptyString.
    cbn [str_all String.length append]. rewrite (proj2 C1), (proj2 C2).
    split; reflexivity.
  - destruct (group_chars a b) as (C1 & C2 & _).
    destruct (group_chars b x00) as (_ & _ & C3 & _).
    apply char_ok_spec in C1, C2, C3.
    destruct (b64char_not_pad a b) as (N1 & N2 & _).
    destruct (b64char_not_pad b x00) as (_ & _ & N3 & _).
    change (urlsafe_b64encode [a; b])
      with [b64char (sextet1 a); b64char (sextet2 a b); b64char (sextet3 b x00); BASE64_PAD].
    rewrite !string_of_list_byte_cons.
    rewrite (rstrip_keep _ _ _ N1), (rstrip_keep _ _ _ N2), (rstrip_keep _ _ _ N3).
    change (rstrip (Ascii.eqb "=") _) with EmptyString.
    cbn [str_all String.length append]. rewrite (proj2 C1), (proj2 C2), (proj2 C3).
    split; reflexivity.
  - destruct IH as [IH1 IH2].
    destruct (group_chars a b) as (C1 & C2 & _).
    destruct (group_chars b c) as (_ & _ & C3 & _).
    destruct (group_chars c c) as (_ & _ & _ & C4).
    apply char_ok_spec in C1, C2, C3, C4.
    destruct (b64char_not_pad a b) as (N1 & N2 & _).
    destruct (b64char_not_pad b c) as (_ & _ & N3 & _).
    destruct (b64char_not_pad c c) as (_ & _ & _ & N4).
    rewrite urlsafe_b64encode_cons3, !string_of_list_byte_cons.
    rewrite (rstrip_keep _ _ _ N1), (rstrip_keep _ _ _ N2), (rstrip_keep _ _ _ N3),
      (rstrip_keep _ _ _ N4).
    cbn [str_all String.length append].
    rewrite (proj2 C1), (proj2 C2), (proj2 C3), (proj2 C4), IH1.
    split; [reflexivity|].
    change (S (S (S (S ?n)))) with (4 + n)%nat.
    rewrite pad_count_add4, IH2. reflexivity.
Qed.

(** Decoding the value that [encode_tfs] writes gives the bytes back. *)
Lemma decode_encode_tfs bs : decode_tfs (encode_tfs bs) = Some bs.
Proof.
  unfold decode_tfs. rewrite (proj2 (encode_tfs_spec bs)).
  unfold urlsafe_b64decode, encode_ascii.
  rewrite urlsafe_b64encode_ascii, list_byte_of_string_of_list_byte.
  apply a2b_b2a.
Qed.

(* ----------------------------------------------------------------- *)
(** *** The date inside the blob *)

Lemma digits_are_no_dashes : forall b, digit_is_no_dash b = true.
Proof. apply forall_bytes. vm_compute. reflexivity. Qed.

Lemma digit_class b : byte_is_digit b = true -> byte_class b = (true, false).
Proof.
  intros H. pose proof (digits_are_no_dashes b) as K. unfold digit_is_no_dash in K.
  unfold byte_class. rewrite H in *. now destruct (byte_is_dash b).
Qed.

Lemma dash_class b : byte_is_dash b = true -> byte_class b = (false, true).
Proof.
  intros H. pose proof (digits_are_no_dashes b) as K. unfold digit_is_no_dash in K.
  unfold byte_class. rewrite H in *. now destruct (byte_is_digit b).
Qed.

Lemma date_at_shape bs :
  date_at bs = true <-> map byte_class (firstn 10 bs) = date_shape.
Proof.
  unfold date_at, date_shape.
  do 10 (destruct bs as [|? bs]; [split; discriminate|]).
  cbn [firstn map]. rewrite !andb_true_iff. split.
  - intros (((((((((H1 & H2) & H3) & H4) & H5) & H6) & H7) & H8) & H9) & H10).
    rewrite (digit_class _ H1), (digit_class _ H2), (digit_class _ H3), (digit_class _ H4),
      (dash_class _ H5), (digit_class _ H6), (digit_class _ H7), (dash_class _ H8),
      (digit_class _ H9), (digit_class _ H10).
    reflexivity.
  - unfold byte_class. intros [= -> _ -> _ -> _ -> _ _ -> -> _ -> _ _ -> -> _ -> _]. 
    repeat split.
Qed.

Lemma date_at_ext l1 l2 :
  map byte_class l1 = map byte_class l2 -> date_at l1 = date_at l2.
Proof.
  intros E.
  assert (E' : map byte_class (firstn 10 l1) = map byte_class (firstn 10 l2)).
  { now rewrite <- !firstn_map, E. }
  destruct (date_at l1) eqn:H1.
  - symmetry. apply date_at_shape. rewrite <- E'. now apply date_at_shape.
  - destruct (date_at l2) eqn:H2; [|reflexivity].
    apply date_at_shape in H2. rewrite <- E' in H2. apply date_at_shape in H2. congruence.
Qed.

(** The search looks at the classes of the bytes only. *)
Lemma search_date_ext : forall l1 l2,
  map byte_class l1 = map byte_class l2 -> search_date l1 = search_date l2.
Proof.
  induction l1 as [|a l1 IH]; intros [|b l2] E; try discriminate.
  - reflexivity.
  - cbn [search_date]. rewrite (date_at_ext _ _ E).
    destruct (date_at (b :: l2)); [reflexivity|].
    cbn [map] in E. injection E as _ _ E. now rewrite (IH _ E).
Qed.

(** The match starts at the first place where the pattern holds. *)
Lemma search_date_spec : forall bs start,
  search_date bs = Some start ->
  date_at (skipn start bs) = true
  /\ forall p, (p < start)%nat -> date_at (skipn p bs) = false.
Proof.
  induction bs as [|a bs IH]; intros start H.
  - cbn in H. discriminate.
  - cbn [search_date] in H. destruct (date_at (a :: bs)) eqn:E.
    + injection H as <-. split; [exact E|]. intros p Hp. inversion Hp.
    + destruct (search_date bs) as [s|] eqn:Es; [|discriminate].
      injection H as <-. destruct (IH s eq_refl) as [H1 H2].
      split; [exact H1|].
      intros [|p] Hp; [exact E|]. apply H2. apply PeanoNat.lt_S_n, Hp.
Qed.

Lemma date_at_length bs : date_at bs = true -> (10 <= List.length (firstn 10 bs))%nat.
Proof.
  intros H. apply date_at_shape in H.
  apply (f_equal (@List.length _)) in H. rewrite length_map in H. rewrite H. apply le_n.
Qed.

Lemma list_byte_of_string_app (a b : string) :
  list_byte_of_string (a ++ b) = (list_byte_of_string a ++ list_byte_of_string b)%list.
Proof.
  induction a as [|c a IH]; [reflexivity|].
  change (list_byte_of_string (String c a ++ b))
    with (byte_of_ascii c :: list_byte_of_string (a ++ b)).
  now rewrite IH.
Qed.

Lemma year_bytes y :
  1 <= y <= 9999 ->
  exists y1 y2 y3 y4,
    list_byte_of_string (zero_pad 4 y) = [y1; y2; y3; y4]
    /\ byte_is_digit y1 = true /\ byte_is_digit y2 = true
    /\ byte_is_digit y3 = true /\ byte_is_digit y4 = true.
Proof.
  intros H.
  assert (K : digit_bytes 4 y = true).
  { apply (forallb_Zseq (digit_bytes 4) 1 9999); [vm_compute; reflexivity | lia]. }
  unfold digit_bytes in K. apply andb_true_iff in K. destruct K as [K1 K2].
  apply Nat.eqb_eq in K1.
  destruct (list_byte_of_string (zero_pad 4 y)) as [|y1 [|y2 [|y3 [|y4 [|]]]]];
    try discriminate.
  cbn [forallb] in K2. rewrite !andb_true_iff in K2.
  exists y1, y2, y3, y4. tauto.
Qed.

Lemma two_digit_bytes n :
  1 <= n <= 31 ->
  exists d1 d2,
    list_byte_of_string (zero_pad 2 n) = [d1; d2]
    /\ byte_is_digit d1 = true /\ byte_is_digit d2 = true.
Proof.
  intros H.
  assert (K : digit_bytes 2 n = true).
  { apply (forallb_Zseq (digit_bytes 2) 1 31); [vm_compute; reflexivity | lia]. }
  unfold digit_bytes in K. apply andb_true_iff in K. destruct K as [K1 K2].
  apply Nat.eqb_eq in K1.
  destruct (list_byte_of_string (zero_pad 2 n)) as [|d1 [|d2 [|]]]; try discriminate.
  cbn [forallb] in K2. rewrite !andb_true_iff in K2.
  exists d1, d2. tauto.
Qed.

(** The ISO form of a date of the calendar: ten bytes of the date shape. *)
Lemma isoformat_bytes t :
  valid_date t = true ->
  date_at (list_byte_of_string (isoformat t)) = true
  /\ List.length (list_byte_of_string (isoformat t)) = 10%nat.
Proof.
  intros V. apply valid_date_spec in V. destruct V as (Hy & Hm & Hd).
  pose proof (days_in_month_le (year t) (month t)) as Hle.
  destruct (year_bytes _ Hy) as (y1 & y2 & y3 & y4 & Ey & Y1 & Y2 & Y3 & Y4).
  destruct (two_digit_bytes (month t) ltac:(lia)) as (m1 & m2 & Em & M1 & M2).
  destruct (two_digit_bytes (day t) ltac:(lia)) as (d1 & d2 & Ed & D1 & D2).
  unfold isoformat. rewrite !list_byte_of_string_app, Ey, Em, Ed.
  change (list_byte_of_string "-") with ["-"%byte].
  cbn [app date_at List.length].
  rewrite Y1, Y2, Y3, Y4, M1, M2, D1, D2. split; reflexivity.
Qed.

(* ----------------------------------------------------------------- *)
(** *** build_url_for_date *)

Lemma zero_pad_four y : 1000 <= y <= 9999 -> zero_pad 4 y = str_of_int y.
Proof.
  intros H. apply String.eqb_eq.
  apply (forallb_Zseq year_written_ok 1000 9999); [vm_compute; reflexivity | exact H].
Qed.

Section DateCodecFacts.

Context {L : Urllib} {F : Strftime}.

Lemma decode_tfs_empty : decode_tfs "" = Some [].
Proof. reflexivity. Qed.

Lemma encode_tfs_nonempty bs : bs <> [] -> str_nonempty (encode_tfs bs) = true.
Proof.
  intros H. destruct (encode_tfs bs) eqn:E; [|reflexivity].
  pose proof (decode_encode_tfs bs) as K. rewrite E, decode_tfs_empty in K. congruence.
Qed.

Lemma tfs_value_of_parsed base_url v :
  tfs_value_of base_url = Ok v ->
  exists parsed,
    urlparse base_url = Some parsed /\ tfs_of_query (parse_qs (query_of parsed)) = v.
Proof.
  unfold tfs_value_of. destruct (urlparse base_url) as [parsed|]; [|discriminate].
  intros [= <-]. now exists parsed.
Qed.

(** The URL that [build_url_for_date] returns when the blob has a date. *)
Lemma build_url_for_date_rewritten base_url target_date parsed tfs_value decoded start :
  urlparse base_url = Some parsed ->
  tfs_of_query (parse_qs (query_of parsed)) = Some tfs_value ->
  decode_tfs tfs_value = Some decoded ->
  search_date decoded = Some start ->
  build_url_for_date base_url target_date
  = Ok (set_tfs parsed (encode_tfs (replace_date decoded start target_date))).
Proof.
  intros Hp Ht Hd Hs. unfold build_url_for_date. rewrite Hp, Ht.
  destruct tfs_value as [|c r].
  { rewrite decode_tfs_empty in Hd. injection Hd as <-. discriminate. }
  cbn [str_nonempty negb]. now rewrite Hd, Hs.
Qed.

Lemma strftime_four_digits t :
  1000 <= year t <= 9999 -> strftime_Y_m_d t = isoformat t.
Proof.
  intros H. unfold strftime_Y_m_d, isoformat.
  now rewrite (strftime_Y_four_digits _ H), (zero_pad_four _ H).
Qed.

(** What line 116 makes of the blob, whatever [strftime] writes: the bytes
    before the match, the bytes of the date, the bytes after the match. *)
Lemma replace_date_parts decoded start target_date :
  search_date decoded = Some start ->
  let new_date_bytes := list_byte_of_string (strftime_Y_m_d target_date) in
  let updated := replace_date decoded start target_date in
  firstn start updated = firstn start decoded
  /\ firstn (List.length new_date_bytes) (skipn start updated) = new_date_bytes
  /\ skipn (start + List.length new_date_bytes) updated = skipn (start + 10) decoded.
Proof.
  intros Hs new_date_bytes updated.
  destruct (search_date_spec _ _ Hs) as [Hat _].
  pose proof (date_at_length _ Hat) as Hold.
  rewrite length_firstn, length_skipn in Hold.
  assert (Lf : List.length (firstn start decoded) = start) by (rewrite length_firstn; lia).
  subst updated. unfold replace_date. fold new_date_bytes.
  split; [|split].
  - rewrite firstn_app, Lf, Nat.sub_diag. cbn [firstn].
    rewrite firstn_all2 by lia. apply app_nil_r.
  - rewrite skipn_app, Lf, Nat.sub_diag.
    rewrite skipn_all2 by lia. cbn [skipn app].
    rewrite firstn_app, Nat.sub_diag, firstn_O, app_nil_r.
    apply firstn_all2, le_n.
  - rewrite app_assoc, skipn_app, length_app, Lf, Nat.sub_diag.
    rewrite skipn_all2 by (rewrite length_app, Lf; apply le_n). reflexivity.
Qed.

(** Replacing the match by ten bytes of the date shape moves nothing. *)
Lemma replace_date_spec decoded start target_date :
  search_date decoded = Some start ->
  valid_date target_date = true ->
  1000 <= year target_date ->
  let updated := replace_date decoded start target_date in
  search_date updated = Some start
  /\ firstn 10 (skipn start updated) = list_byte_of_string (isoformat target_date)
  /\ firstn start updated = firstn start decoded
  /\ skipn (start + 10) updated = skipn (start + 10) decoded
  /\ List.length updated = List.length decoded.
Proof.
  intros Hs V Hy updated.
  assert (HY : 1000 <= year target_date <= 9999).
  { apply valid_date_spec in V. lia. }
  destruct (search_date_spec _ _ Hs) as [Hat _].
  destruct (isoformat_bytes _ V) as [Hnew Hlen].
  pose proof (date_at_length _ Hat) as Hold.
  rewrite length_firstn, length_skipn in Hold.
  assert (Hsl : (start + 10 <= List.length decoded)%nat) by lia.
  set (new := list_byte_of_string (isoformat target_date)) in *.
  assert (Eu : updated = (firstn start decoded ++ new ++ skipn (start + 10) decoded)%list).
  { subst updated new. unfold replace_date. now rewrite (strftime_four_digits _ HY). }
  assert (Lf : List.length (firstn start decoded) = start) by (rewrite length_firstn; lia).
  assert (Ed : decoded
               = (firstn start decoded ++ firstn 10 (skipn start decoded)
                  ++ skipn (start + 10) decoded)%list).
  { replace (start + 10)%nat with (10 + start)%nat by lia.
    now rewrite <- skipn_skipn, !firstn_skipn. }
  assert (Hcls : map byte_class updated = map byte_class decoded).
  { etransitivity; [|apply (f_equal (map byte_class)); symmetry; exact Ed].
    rewrite Eu, !map_app. f_equal. f_equal.
    apply date_at_shape in Hat. rewrite Hat.
    apply date_at_shape in Hnew. rewrite <- Hnew.
    rewrite firstn_all2 by (rewrite Hlen; apply le_n). reflexivity. }
  split; [|split; [|split; [|split]]].
  - now rewrite (search_date_ext _ _ Hcls).
  - rewrite Eu, skipn_app, Lf, Nat.sub_diag.
    rewrite skipn_all2 by lia. cbn [skipn app].
    rewrite firstn_app, Hlen, Nat.sub_diag, firstn_O, app_nil_r.
    apply firstn_all2. rewrite Hlen. apply le_n.
  - rewrite Eu, firstn_app, Lf, Nat.sub_diag. cbn [firstn].
    rewrite firstn_all2 by lia. apply app_nil_r.
  - rewrite Eu, app_assoc, skipn_app, length_app, Lf, Hlen, Nat.sub_diag.
    rewrite skipn_all2 by (rewrite length_app, Lf, Hlen; apply le_n). reflexivity.
  - rewrite Eu, !length_app, Lf, Hlen, length_skipn. lia.
Qed.

(** The blob written is never empty. *)
Lemma replace_date_nonempty decoded start target_date :
  search_date decoded = Some start ->
  replace_date decoded start target_date <> [].
Proof.
  intros Hs E. destruct (search_date_spec _ _ Hs) as [Hat _].
  pose proof (date_at_length _ Hat) as Hl.
  rewrite length_firstn, length_skipn in Hl.
  apply (f_equal (@List.length byte)) in E. unfold replace_date in E.
  rewrite !length_app, length_firstn, length_skipn in E. cbn in E.
  assert (start = O) by lia. subst start.
  destruct (list_byte_of_string (strftime_Y_m_d target_date)) eqn:El; [|cbn in E; lia].
  apply (f_equal string_of_list_byte) in El.
  rewrite string_of_list_byte_of_string in El.
  unfold strftime_Y_m_d in El. destruct (strftime_Y (year target_date)); discriminate.
Qed.

(** What is read in the URL written, when [urllib.parse] reads it back. *)
Lemma build_url_for_date_read base_url target_date tfs_value decoded start :
  tfs_value_of base_url = Ok (Some tfs_value) ->
  decode_tfs tfs_value = Some decoded ->
  search_date decoded = Some start ->
  reads_back base_url (encode_tfs (replace_date decoded start target_date)) ->
  exists url,
    build_url_for_date base_url target_date = Ok url
    /\ tfs_value_of url = Ok (Some (encode_tfs (replace_date decoded start target_date))).
Proof.
  intros Ht Hd Hs Hrb.
  destruct (tfs_value_of_parsed _ _ Ht) as (parsed & Hp & Hq).
  unfold reads_back in Hrb. rewrite Hp in Hrb.
  exists (set_tfs parsed (encode_tfs (replace_date decoded start target_date))).
  split; [|exact Hrb].
  exact (build_url_for_date_rewritten _ target_date _ _ _ _ Hp Hq Hd Hs).
Qed.

End DateCodecFacts.

Section DateCodecTheorems.

Context {L : Urllib} {F : Strftime}.


(** C3, as the code has it.  When [urlparse] reads the base URL and the [tfs]
    parameter is absent, or its decoding fails, or the decoded bytes contain
    no date, [build_url_for_date] returns the base URL itself, for every
    target date; when [urlparse] raises on the base URL, so does
    [build_url_for_date]. *)
Theorem build_url_for_date_identity (base_url : string) (target_date : date) :
  (tfs_value_of base_url = Ok None
   \/ (exists tfs_value,
         tfs_value_of base_url = Ok (Some tfs_value) /\ decode_tfs tfs_value = None)
   \/ (exists tfs_value decoded,
         tfs_value_of base_url = Ok (Some tfs_value)
         /\ decode_tfs tfs_value = Some decoded
         /\ search_date decoded = None) ->
   build_url_for_date base_url target_date = Ok base_url)
  /\ (urlparse base_url = None ->
      build_url_for_date base_url target_date = Raise ValueError).
Proof.
  split.
  - intros H.
    assert (K : exists v, tfs_value_of base_url = Ok v)
      by (destruct H as [H|[(v & H & _)|(v & d & H & _)]]; eexists; exact H).
    destruct K as (v0 & K). destruct (tfs_value_of_parsed _ _ K) as (parsed & Hp & Hq).
    unfold build_url_for_date. rewrite Hp, Hq.
    destruct H as [H|[(v & H & Hd)|(v & decoded & H & Hd & Hs)]];
      rewrite K in H; injection H as ->; try reflexivity.
    + destruct (negb (str_nonempty v)); [reflexivity|]. now rewrite Hd.
    + destruct (negb (str_nonempty v)); [reflexivity|]. now rewrite Hd, Hs.
  - intros H. unfold build_url_for_date. now rewrite H.
Qed.

(** C10, as the code has it.  [build_url_for_date] writes the bytes of the
    target date over the earliest match of the pattern, and only there: no
    match starts before it, the bytes before it are kept, and so is the blob
    from the end of that match on, so that every later date-shaped run of
    bytes that starts at or after the end of the replaced one is found as it
    was, ten bytes after the end of the bytes written where it was ten bytes
    after the end of the match.  For a date of the calendar from the year 1000
    on the bytes written are the ten bytes of its ISO form. *)
Theorem build_url_for_date_first_date_only
    (base_url : string) (target_date : date)
    (tfs_value : string) (decoded : list byte) (start : nat) :
  tfs_value_of base_url = Ok (Some tfs_value) ->
  decode_tfs tfs_value = Some decoded ->
  search_date decoded = Some start ->
  let new_date_bytes := list_byte_of_string (strftime_Y_m_d target_date) in
  let stop := (start + List.length new_date_bytes)%nat in
  exists parsed updated,
    urlparse base_url = Some parsed
    /\ build_url_for_date base_url target_date = Ok (set_tfs parsed (encode_tfs updated))
    /\ decode_tfs (encode_tfs updated) = Some updated
    /\ (forall p, (p < start)%nat -> date_at (skipn p decoded) = false)
    /\ firstn start updated = firstn start decoded
    /\ firstn (List.length new_date_bytes) (skipn start updated) = new_date_bytes
    /\ (forall k,
          skipn (stop + k) updated = skipn (start + 10 + k) decoded
          /\ date_at (skipn (stop + k) updated) = date_at (skipn (start + 10 + k) decoded))
    /\ (valid_date target_date = true -> 1000 <= year target_date ->
        new_date_bytes = list_byte_of_string (isoformat target_date)
        /\ stop = (start + 10)%nat).
Proof.
  intros Ht Hd Hs new_date_bytes stop.
  destruct (tfs_value_of_parsed _ _ Ht) as (parsed & Hp & Hq).
  destruct (replace_date_parts decoded start target_date Hs) as (P1 & P2 & P3).
  exists parsed, (replace_date decoded start target_date).
  split; [exact Hp|].
  split; [exact (build_url_for_date_rewritten _ target_date _ _ _ _ Hp Hq Hd Hs)|].
  split; [apply decode_encode_tfs|].
  split; [apply (search_date_spec _ _ Hs)|].
  split; [exact P1|]. split; [exact P2|]. split.
  - intros k.
    assert (E : skipn (stop + k) (replace_date decoded start target_date)
                = skipn (start + 10 + k) decoded).
    { subst stop. fold new_date_bytes in P3.
      replace (start + List.length new_date_bytes + k)%nat
        with (k + (start + List.length new_date_bytes))%nat by lia.
      replace (start + 10 + k)%nat with (k + (start + 10))%nat by lia.
      rewrite <- (skipn_skipn k (start + List.length new_date_bytes)).
      rewrite <- (skipn_skipn k (start + 10)). now rewrite P3. }
    now rewrite E.
  - intros V Hy.
    assert (HY : 1000 <= year target_date <= 9999).
    { apply valid_date_spec in V. lia. }
    subst stop new_date_bytes. rewrite (strftime_four_digits _ HY).
    split; [reflexivity|]. now rewrite (proj2 (isoformat_bytes _ V)).
Qed.

End DateCodecTheorems.

Example default_url_parameters :
  tfs_value_of (L := urllib_ascii) DEFAULT_URL = Ok (Some sample_tfs)
  /\ decode_tfs sample_tfs = Some sample_blob
  /\ search_date sample_blob = Some 8%nat.
Proof. repeat split; vm_compute; reflexivity. Qed.


Example default_url_rewritten :
  build_url_for_date (L := urllib_ascii) (F := strftime_glibc) DEFAULT_URL (mkdate 2026 1 15)
  = Ok "https://www.google.com/travel/flights/search?tfs=CBwQAhooEgoyMDI2LTAxLTE1agwIAhIIL20vMDQ0cnZyDAgCEggvbS8wN2Rma0ABSAFwAYIBCwj___________8BmAED&tfu=EgYIABABGAA&tcfs=ChMKCC9tLzA0NHJ2GgdKYWthcnRhUgRgAXgB".
Proof. vm_compute. reflexivity. Qed.


(** A URL that [urlparse] reads and whose rewriting it does not read:
    [urlunparse] writes the URL, whose host is empty, with the bracket that
    follows as its host. *)
Example rewritten_url_unread :
  tfs_value_of (L := urllib_ascii) url_empty_host = Ok (Some sample_tfs)
  /\ build_url_for_date (L := urllib_ascii) (F := strftime_glibc)
       url_empty_host (mkdate 2026 1 15)
     = Ok "http://[?tfs=CBwQAhooEgoyMDI2LTAxLTE1agwIAhIIL20vMDQ0cnZyDAgCEggvbS8wN2Rma0ABSAFwAYIBCwj___________8BmAED"
  /\ tfs_value_of (L := urllib_ascii)
       "http://[?tfs=CBwQAhooEgoyMDI2LTAxLTE1agwIAhIIL20vMDQ0cnZyDAgCEggvbS8wN2Rma0ABSAFwAYIBCwj___________8BmAED"
     = Raise ValueError.
Proof. repeat split; vm_compute; reflexivity. Qed.

(** One URL for each of the three cases, and a URL that [urlparse] refuses. *)
Lemma build_url_for_date_identity_witness :
  build_url_for_date (L := urllib_ascii) (F := strftime_glibc)
    url_without_tfs (mkdate 2026 1 15) = Ok url_without_tfs
  /\ build_url_for_date (L := urllib_ascii) (F := strftime_glibc)
       url_undecodable (mkdate 2026 1 15) = Ok url_undecodable
  /\ build_url_for_date (L := urllib_ascii) (F := strftime_glibc)
       url_without_date (mkdate 2026 1 15) = Ok url_without_date
  /\ build_url_for_date (L := urllib_ascii) (F := strftime_glibc)
       url_unmatched_bracket (mkdate 2026 1 15) = Raise ValueError.
Proof.
  split; [|split; [|split]].
  - apply (build_url_for_date_identity (L := urllib_ascii)). left. reflexivity.
  - apply (build_url_for_date_identity (L := urllib_ascii)). right. left.
    exists "CBwQA". split; reflexivity.
  - apply (build_url_for_date_identity (L := urllib_ascii)). right. right.
    exists "CBwQAm5vIGRhdGUgaGVyZQ", (list_byte_of_string
      (String (ascii_of_N 8) (String (ascii_of_N 28) (String (ascii_of_N 16)
         (String (ascii_of_N 2) "no date here"))))).
    split; [reflexivity|]. split; reflexivity.
  - apply (build_url_for_date_identity (L := urllib_ascii)). reflexivity.
Defined.

(** C3 as the specification states it fails: a URL without [tfs] parameter
    whose host has a bracket without its pair is not returned unchanged,
    [build_url_for_date] raises the [ValueError] of [urlparse] on it. *)
Lemma unmatched_bracket_raises :
  contains "tfs" url_unmatched_bracket = false
  /\ urlparse (Urllib := urllib_ascii) url_unmatched_bracket = None
  /\ build_url_for_date (L := urllib_ascii) (F := strftime_glibc)
       url_unmatched_bracket (mkdate 2026 1 15) = Raise ValueError
  /\ build_url_for_date (L := urllib_ascii) (F := strftime_glibc)
       url_unmatched_bracket (mkdate 2026 1 15) <> Ok url_unmatched_bracket.
Proof.
  split; [reflexivity|]. split; [reflexivity|]. split; [reflexivity|]. discriminate.
Qed.

(** A blob with the date of the return after that of the outward flight: the
    first is written anew, the second, fourteen bytes further, is as it
    was. *)
Lemma build_url_for_date_first_date_only_witness :
  exists parsed updated,
    urlparse (Urllib := urllib_ascii) return_url = Some parsed
    /\ build_url_for_date (L := urllib_ascii) (F := strftime_glibc)
         return_url (mkdate 2026 1 15)
       = Ok (set_tfs (L := urllib_ascii) parsed (encode_tfs updated))
    /\ decode_tfs (encode_tfs updated) = Some updated
    /\ search_date return_blob = Some 2%nat
    /\ date_at (skipn 14 return_blob) = true
    /\ firstn 2 updated = firstn 2 return_blob
    /\ firstn 10 (skipn 2 updated) = list_byte_of_string "2026-01-15"
    /\ firstn 10 (skipn 14 updated) = list_byte_of_string "2025-10-11"
    /\ skipn 12 updated = skipn 12 return_blob
    /\ date_at (skipn 14 updated) = true.
Proof.
  destruct (build_url_for_date_first_date_only (L := urllib_ascii) (F := strftime_glibc)
              return_url (mkdate 2026 1 15) return_tfs return_blob 2
              eq_refl eq_refl eq_refl)
    as (parsed & updated & H1 & H2 & H3 & H4 & H5 & H6 & H7 & H8).
  exists parsed, updated.
  split; [exact H1|]. split; [exact H2|]. split; [exact H3|].
  split; [reflexivity|]. split; [reflexivity|]. split; [exact H5|].
  split; [exact H6|].
  destruct (H7 O) as [K0 _]. destruct (H7 2%nat) as [K2 D2].
  split; [exact (f_equal (firstn 10) K2)|]. split; [exact K0 | exact D2].
Defined.

(** C10 as stated fails: a date-shaped run of bytes that starts eight bytes
    into the first one is a later match of the pattern, it shares its first
    two bytes with the replaced ones, and these change. *)
Lemma later_overlapping_date_changes :
  tfs_value_of (L := urllib_ascii) overlapping_url = Ok (Some "MjAyNS0xMC0wNDEyLTExLTIy")
  /\ decode_tfs "MjAyNS0xMC0wNDEyLTExLTIy" = Some overlapping_blob
  /\ search_date overlapping_blob = Some 0%nat
  /\ date_at (skipn 8 overlapping_blob) = true
  /\ firstn 10 (skipn 8 overlapping_blob) = list_byte_of_string "0412-11-22"
  /\ exists url new_tfs updated,
       build_url_for_date (L := urllib_ascii) (F := strftime_glibc)
         overlapping_url (mkdate 2026 1 15) = Ok url
       /\ tfs_value_of (L := urllib_ascii) url = Ok (Some new_tfs)
       /\ decode_tfs new_tfs = Some updated
       /\ firstn 10 (skipn 8 updated) = list_byte_of_string "1512-11-22"
       /\ firstn 10 (skipn 8 updated) <> firstn 10 (skipn 8 overlapping_blob).
Proof.
  repeat (split; [vm_compute; reflexivity|]).
  eexists. exists "MjAyNi0wMS0xNTEyLTExLTIy", (list_byte_of_string "2026-01-1512-11-22").
  repeat (split; [vm_compute; reflexivity|]).
  vm_compute. discriminate.
Qed.

(* ----------------------------------------------------------------- *)
(** *** The harvest *)

Section HarvestFacts.

Context {U : Unicodedata}.

Variables (fuel : nat) (max_results travel_year : Z).

Lemma id_eqb_eq a b : id_eqb a b = true <-> a = b.
Proof.
  destruct a as [x|], b as [y|]; simpl; try (split; congruence).
  rewrite String.eqb_eq. split; congruence.
Qed.

Lemma id_in_spec i seen_ids : id_in i seen_ids = true <-> In i seen_ids.
Proof.
  unfold id_in. rewrite existsb_exists. split.
  - intros (x & Hx & E). apply id_eqb_eq in E. now subst.
  - intros H. exists i. split; [exact H | now apply id_eqb_eq].
Qed.

Lemma recorded_from_mono cards more x :
  recorded_from fuel travel_year cards x -> recorded_from fuel travel_year (cards ++ more) x.
Proof.
  intros (c & Hc & H). exists c. split; [apply in_or_app; now left | exact H].
Qed.

Lemma harvested_skip cards c seen_ids results :
  harvested fuel travel_year cards seen_ids results ->
  (forall i row, data_id c = Got i -> extract_row fuel c travel_year = Some (Ok row) ->
                 In i seen_ids) ->
  harvested fuel travel_year (cards ++ [c]) seen_ids results.
Proof.
  intros (recorded & E1 & E2 & E3 & E4 & E5) Hc.
  exists recorded. repeat split; auto.
  - intros x Hx. apply recorded_from_mono, E4, Hx.
  - intros c' i row Hin Hid Hrow. apply in_app_or in Hin. destruct Hin as [Hin|[<-|[]]].
    + eapply E5; eassumption.
    + eapply Hc; eassumption.
Qed.

Lemma harvested_record cards c i row seen_ids results :
  harvested fuel travel_year cards seen_ids results ->
  data_id c = Got i -> extract_row fuel c travel_year = Some (Ok row) ->
  ~ In i seen_ids ->
  harvested fuel travel_year (cards ++ [c]) (i :: seen_ids) (results ++ [row]).
Proof.
  intros (recorded & E1 & E2 & E3 & E4 & E5) Hid Hrow Hnew.
  exists (recorded ++ [(i, row)])%list. split; [|split; [|split; [|split]]].
  - now rewrite map_app, E1.
  - now rewrite map_app, rev_app_distr, E2.
  - now constructor.
  - intros x Hx. apply in_app_or in Hx. destruct Hx as [Hx|[<-|[]]].
    + apply recorded_from_mono, E4, Hx.
    + exists c. split; [apply in_or_app; right; now left|]. now split.
  - intros c' i' row' Hin Hid' Hrow'. apply in_app_or in Hin.
    destruct Hin as [Hin|[<-|[]]].
    + right. eapply E5; eassumption.
    + left. congruence.
Qed.

Lemma harvested_result cards seen_ids results :
  harvested fuel travel_year cards seen_ids results -> harvest_result fuel travel_year cards true results.
Proof.
  intros (recorded & E1 & E2 & E3 & E4 & E5).
  exists recorded. repeat split; auto.
  - apply NoDup_rev in E3. now rewrite E2, rev_involutive in E3.
  - intros _ c i row Hc Hid Hrow. apply in_rev. rewrite <- E2. eapply E5; eassumption.
Qed.

Lemma harvest_result_capped cards more seen_ids results :
  harvested fuel travel_year cards seen_ids results -> harvest_result fuel travel_year (cards ++ more) false results.
Proof.
  intros (recorded & E1 & E2 & E3 & E4 & E5).
  exists recorded. repeat split; auto.
  - apply NoDup_rev in E3. now rewrite E2, rev_involutive in E3.
  - intros x Hx. apply recorded_from_mono, E4, Hx.
  - discriminate.
Qed.

Lemma scan_cards_harvested : forall cards prior seen_ids results out,
  harvested fuel travel_year prior seen_ids results ->
  scan_cards fuel cards max_results travel_year seen_ids results = Some (Ok out) ->
  match out with
  | Scanned seen_ids' results' => harvested fuel travel_year (prior ++ cards) seen_ids' results'
  | Returned results' =>
      max_results <> 0 /\ harvest_result fuel travel_year (prior ++ cards) false results'
  end.
Proof.
  induction cards as [|c rest IH]; intros prior seen_ids results out Hinv Hscan.
  - cbn in Hscan. injection Hscan as <-. now rewrite app_nil_r.
  - cbn [scan_cards] in Hscan.
    replace (prior ++ c :: rest)%list with ((prior ++ [c]) ++ rest)%list
      by (now rewrite <- app_assoc).
    destruct (data_id c) as [|i] eqn:Hid; [discriminate|].
    destruct (id_in i seen_ids) eqn:Hseen.
    + apply (IH (prior ++ [c])%list seen_ids results out); [|exact Hscan].
      apply harvested_skip; [exact Hinv|].
      intros i' row E _. rewrite Hid in E. injection E as <-. now apply id_in_spec.
    + destruct (extract_row fuel c travel_year) as [[row|e]|] eqn:Hrow; [| |discriminate].
      * assert (Hnew : ~ In i seen_ids).
        { intros K. apply id_in_spec in K. congruence. }
        pose proof (harvested_record prior c i row _ _ Hinv Hid Hrow Hnew) as Hinv'.
        destruct (negb (max_results =? 0)
                  && (max_results <=? Z.of_nat (List.length (results ++ [row])))) eqn:Hcap.
        -- injection Hscan as <-. split.
           ++ apply andb_true_iff in Hcap. destruct Hcap as [Hcap _].
              apply negb_true_iff, Z.eqb_neq in Hcap. exact Hcap.
           ++ eapply harvest_result_capped, Hinv'.
        -- apply (IH (prior ++ [c])%list _ _ _ Hinv' Hscan).
      * destruct e; try discriminate.
        apply (IH (prior ++ [c])%list seen_ids results out); [|exact Hscan].
        apply harvested_skip; [exact Hinv|].
        intros i' row' _ K. rewrite Hrow in K. discriminate.
Qed.

Lemma visited_succ page n :
  visited page (S n) = (visited page n ++ found_cards (page n))%list.
Proof.
  unfold visited. rewrite seq_S, flat_map_app. cbn. now rewrite app_nil_r.
Qed.

(** The passes of a harvest that returns: every pass before the last one was
    followed by another, and the last one ended the loop or reached the cap. *)
Lemma harvest_harvested page : forall passes i seen_ids results rows,
  harvested fuel travel_year (visited page i) seen_ids results ->
  harvest passes fuel page i max_results travel_year seen_ids results = Some (Ok rows) ->
  exists last,
    (i <= last < i + passes)%nat
    /\ (forall p, (i <= p < last)%nat -> goes_on (page p) = true)
    /\ (max_results = 0 -> ends (page last) = true)
    /\ harvest_result fuel travel_year (visited page (S last)) (max_results =? 0) rows.
Proof.
  induction passes as [|passes IH]; intros i seen_ids results rows Hinv Hrun.
  - discriminate.
  - cbn [harvest] in Hrun.
    destruct (scan_cards fuel (found_cards (page i)) max_results travel_year seen_ids results)
      as [[out|e]|] eqn:Hscan; try discriminate.
    pose proof (scan_cards_harvested _ _ _ _ _ Hinv Hscan) as Hout.
    rewrite <- visited_succ in Hout.
    destruct out as [seen_ids' results'|results'].
    + assert (Hnext : goes_on (page i) = true ->
                 forall rows',
                 harvest passes fuel page (S i) max_results travel_year seen_ids' results'
                 = Some (Ok rows') ->
                 exists last,
                   (i <= last < i + S passes)%nat
                   /\ (forall p, (i <= p < last)%nat -> goes_on (page p) = true)
                   /\ (max_results = 0 -> ends (page last) = true)
                   /\ harvest_result fuel travel_year (visited page (S last))
                        (max_results =? 0) rows').
      { intros Hgo rows' K. destruct (IH _ _ _ _ Hout K) as (last & Hl & Hbefore & Hend & Hres).
        exists last. split; [lia|]. split; [|now split].
        intros p Hp. destruct (Nat.eq_dec p i) as [->|Hne]; [exact Hgo|].
        apply Hbefore. lia. }
      destruct (clicked_more (more_controls (page i))) as [[|]|e] eqn:Hc; [| |discriminate].
      * apply Hnext; [|exact Hrun]. unfold goes_on. now rewrite Hc.
      * destruct (recount (page i) <=? List.length (found_cards (page i)))%nat eqn:Hcount.
        2:{ apply Hnext; [|exact Hrun]. unfold goes_on. now rewrite Hc, Hcount. }
        injection Hrun as <-. exists i. split; [lia|]. split; [intros p Hp; lia|].
        split; [intros _; unfold ends; now rewrite Hc|].
        apply harvested_result in Hout.
        destruct Hout as (recorded & R1 & R2 & R3 & R4).
        exists recorded. split; [exact R1|]. split; [exact R2|]. split; [exact R3|].
        intros _. now apply R4.
    + injection Hrun as <-. destruct Hout as [Hmax Hres]. exists i.
      split; [lia|]. split; [intros p Hp; lia|]. split; [intros K; contradiction|].
      apply Z.eqb_neq in Hmax. now rewrite Hmax.
Qed.

End HarvestFacts.

Section HarvestTheorems.

Context {U : Unicodedata}.

(** C1, as the code has it.  A harvest that returns records at most one card
    for each identifier, and the absent identifier is one identifier among the
    others.  The harvest ran the passes up to a pass [last], each pass before
    it followed by another, and, when no cap is set, [last] is the pass that
    ended the loop; the rows returned are the rows of a list of recorded cards
    whose identifiers are pairwise different; each of them is a card that one
    of these passes found, with that identifier, whose extraction gave that
    row; and, when no cap is set, every card that these passes found and whose
    identifier and content could be read has its identifier among the
    recorded ones, so that the cards that carry one identifier yield exactly
    one row between them.  Without a card on the page before the wait runs
    out, the harvest is empty. *)
Theorem gather_cards_one_record_per_identifier
    (fuel : nat) (d : driver) (max_results travel_year : Z) (rows : list dict) :
  gather_cards fuel d max_results travel_year = Some (Ok rows) ->
  (cards_present d = false /\ rows = [])
  \/ (cards_present d = true
      /\ exists (last : nat) (recorded : list (option string * dict)),
           (forall p, (p < last)%nat -> goes_on (pass d p) = true)
           /\ (max_results = 0 -> ends (pass d last) = true)
           /\ rows = map snd recorded
           /\ NoDup (map fst recorded)
           /\ (forall x, In x recorded ->
                 exists c, In c (visited (pass d) (S last)) /\ data_id c = Got (fst x)
                           /\ extract_row fuel c travel_year = Some (Ok (snd x)))
           /\ (max_results = 0 ->
               forall c i row, In c (visited (pass d) (S last)) -> data_id c = Got i ->
                 extract_row fuel c travel_year = Some (Ok row) ->
                 In i (map fst recorded))).
Proof.
  unfold gather_cards. destruct (cards_present d).
  - intros H. right. split; [reflexivity|].
    assert (H0 : harvested fuel travel_year (visited (pass d) 0) [] []).
    { exists []. repeat split; try constructor; intros; contradiction. }
    destruct (harvest_harvested fuel max_results travel_year (pass d) _ _ _ _ _ H0 H)
      as (last & _ & Hbefore & Hend & recorded & R1 & R2 & R3 & R4).
    exists last, recorded.
    split; [intros p Hp; apply Hbefore; lia|]. split; [exact Hend|].
    repeat split; auto.
    intros Hmax. apply R4. subst. reflexivity.
  - intros [= <-]. left. now split.
Qed.

(* --- termination --- *)
Lemma advance_arrival_total fuel arr dep :
  valid_date arr = true -> valid_date dep = true ->
  (Z.to_nat MAXORDINAL <= fuel)%nat ->
  exists r, advance_arrival fuel arr dep = Some (Ok r).
Proof.
  intros Va Vd Hf. destruct (date_ltb arr dep) eqn:Hlt.
  - exists dep. pose proof (toordinal_bounds arr Va). pose proof (toordinal_bounds dep Vd).
    pose proof (proj1 (date_ltb_toordinal arr dep Va Vd) Hlt).
    apply (advance_arrival_reaches (Z.to_nat (toordinal dep - toordinal arr))); auto; lia.
  - exists arr. now apply advance_arrival_not_earlier.
Qed.

Lemma parse_dates_from_label_total fuel label travel_year :
  (Z.to_nat MAXORDINAL <= fuel)%nat ->
  exists r, _parse_dates_from_label fuel label travel_year = Some r.
Proof.
  intros Hf. unfold _parse_dates_from_label.
  destruct (label_fragments label) as [df af].
  destruct (parse_date_fragment_cases df travel_year) as [->|(dep & Vd & ->)];
    [eexists; reflexivity|].
  destruct (parse_date_fragment_cases af travel_year) as [->|(arr & Va & ->)];
    [rewrite andb_false_r; eexists; reflexivity|].
  rewrite !isoformat_nonempty. cbn [andb].
  rewrite !fromisoformat_isoformat by assumption.
  destruct (advance_arrival_total fuel arr dep Va Vd Hf) as [r ->].
  eexists; reflexivity.
Qed.

Lemma extract_row_total fuel c travel_year :
  (Z.to_nat MAXORDINAL <= fuel)%nat ->
  exists r, extract_row fuel c travel_year = Some r.
Proof.
  intros Hf. unfold extract_row. destruct (content c) as [|container]; [eexists; reflexivity|].
  assert (Ht : exists r, extract_times fuel container travel_year = Some r).
  { unfold extract_times, label_dates.
    destruct (str_nonempty _).
    - destruct (parse_dates_from_label_total fuel
                  (normalise match label_span container with
                             | Some (Some l) => l
                             | _ => ""
                             end) travel_year Hf) as [[[a b]|e] ->].
      + destruct (offset_fallback _ a b); eexists; reflexivity.
      + eexists; reflexivity.
    - destruct (offset_fallback _ "" ""); eexists; reflexivity. }
  destruct Ht as [[times|e] ->]; [destruct (extract_stops container)|];
    eexists; reflexivity.
Qed.

Lemma scan_cards_total fuel max_results travel_year :
  (Z.to_nat MAXORDINAL <= fuel)%nat ->
  forall cards seen_ids results,
  exists r, scan_cards fuel cards max_results travel_year seen_ids results = Some r.
Proof.
  intros Hf. induction cards as [|c rest IH]; intros seen_ids results.
  - eexists; reflexivity.
  - cbn [scan_cards]. destruct (data_id c) as [|i]; [eexists; reflexivity|].
    destruct (id_in i seen_ids); [apply IH|].
    destruct (extract_row_total fuel c travel_year Hf) as [[row|e] ->].
    + destruct (negb _ && _); [eexists; reflexivity | apply IH].
    + destruct e; try (eexists; reflexivity). apply IH.
Qed.

Lemma click_first_not_shown elements :
  forallb (fun e => negb (shown e)) elements = true ->
  click_first elements <> Ok true.
Proof.
  induction elements as [|e l IH]; [discriminate|].
  cbn [forallb click_first]. intros H. apply andb_true_iff in H. destruct H as [He Hl].
  unfold shown in He. destruct (is_displayed e) as [|[|]]; try discriminate.
  exact (IH Hl).
Qed.

Lemma quiet_spec t :
  quiet t = true ->
  clicked_more (more_controls t) <> Ok true
  /\ (recount t <=? List.length (found_cards t))%nat = true.
Proof.
  unfold quiet. rewrite andb_true_iff. intros [H1 H2]. split; [|exact H2].
  induction (more_controls t) as [|l ls IH]; [discriminate|].
  cbn [forallb clicked_more] in *. apply andb_true_iff in H1. destruct H1 as [Hl Hls].
  pose proof (click_first_not_shown l Hl) as K.
  destruct (click_first l) as [[|]|e]; [congruence | exact (IH Hls) | discriminate].
Qed.

Lemma harvest_total fuel max_results travel_year page k :
  (Z.to_nat MAXORDINAL <= fuel)%nat ->
  (forall i, (k <= i)%nat -> quiet (page i) = true) ->
  forall passes i seen_ids results,
    (0 < passes)%nat -> (k < i + passes)%nat ->
    exists out,
      harvest passes fuel page i max_results travel_year seen_ids results = Some out.
Proof.
  intros Hf Hq. induction passes as [|passes IH]; intros i seen_ids results Hp Hk.
  - inversion Hp.
  - cbn [harvest].
    destruct (scan_cards_total fuel max_results travel_year Hf
                (found_cards (page i)) seen_ids results) as [[[s r|r]|e] ->];
      try (eexists; reflexivity).
    destruct (Nat.le_gt_cases k i) as [Hi|Hi].
    + (* pass [i] is quiet: the loop ends here *)
      destruct (quiet_spec _ (Hq i Hi)) as [Hc ->].
      destruct (clicked_more _) as [[|]|e]; [congruence | |]; eexists; reflexivity.
    + destruct (clicked_more _) as [[|]|e]; [apply IH; lia | | eexists; reflexivity].
      destruct (_ <=? _)%nat; [eexists; reflexivity | apply IH; lia].
Qed.

(** C8.  When from pass [k] on the page shows no "show more" control and
    the two scrolls of a pass bring no new card, the loop of [gather_cards]
    ends within [k + 1] passes: with that many passes allowed, and fuel for
    the inner loops, it returns or raises. *)
Theorem gather_cards_terminates
    (d : driver) (max_results travel_year : Z) (k : nat) :
  (forall i, (k <= i)%nat -> quiet (pass d i) = true) ->
  (forall passes fuel,
      (k < passes)%nat -> (Z.to_nat MAXORDINAL <= fuel)%nat ->
      exists out,
        harvest passes fuel (pass d) 0 max_results travel_year [] [] = Some out)
  /\ (forall fuel,
        (k < fuel)%nat -> (Z.to_nat MAXORDINAL <= fuel)%nat ->
        exists out, gather_cards fuel d max_results travel_year = Some out).
Proof.
  intros Hq. split.
  - intros passes fuel Hp Hf.
    apply (harvest_total fuel max_results travel_year (pass d) k Hf Hq); lia.
  - intros fuel Hp Hf. unfold gather_cards.
    destruct (cards_present d); [|eexists; reflexivity].
    apply (harvest_total fuel max_results travel_year (pass d) k Hf Hq); lia.
Qed.

End HarvestTheorems.

(** The page of [paged_driver]: four rows for two passes, the second card
    without identifier left out. *)
Lemma gather_cards_one_record_per_identifier_witness :
  (cards_present paged_driver = false /\ paged_rows = [])
  \/ (cards_present paged_driver = true
      /\ exists (last : nat) (recorded : list (option string * dict)),
           (forall p, (p < last)%nat -> goes_on (pass paged_driver p) = true)
           /\ (0 = 0 -> ends (pass paged_driver last) = true)
           /\ paged_rows = map snd recorded
           /\ NoDup (map fst recorded)
           /\ (forall x, In x recorded ->
                 exists c, In c (visited (pass paged_driver) (S last))
                           /\ data_id c = Got (fst x)
                           /\ extract_row (U := nfkc_ascii) 2 c 2025 = Some (Ok (snd x)))
           /\ (0 = 0 ->
               forall c i row, In c (visited (pass paged_driver) (S last)) ->
                 data_id c = Got i ->
                 extract_row (U := nfkc_ascii) 2 c 2025 = Some (Ok row) ->
                 In i (map fst recorded))).
Proof.
  exact (gather_cards_one_record_per_identifier (U := nfkc_ascii) 2 paged_driver 0 2025
           paged_rows eq_refl).
Defined.

(** The page of [paged_driver] is quiet from its second pass on. *)
Lemma gather_cards_terminates_witness :
  (forall passes fuel,
      (1 < passes)%nat -> (Z.to_nat MAXORDINAL <= fuel)%nat ->
      exists out,
        harvest (U := nfkc_ascii) passes fuel (pass paged_driver) 0 0 2025 [] [] = Some out)
  /\ (forall fuel,
        (1 < fuel)%nat -> (Z.to_nat MAXORDINAL <= fuel)%nat ->
        exists out, gather_cards (U := nfkc_ascii) fuel paged_driver 0 2025 = Some out).
Proof.
  apply (gather_cards_terminates (U := nfkc_ascii) paged_driver 0 2025 1).
  intros [|i] Hi; [inversion Hi | reflexivity].
Defined.

(** C1 as the specification states it fails: of two cards without identifier
    the second one, whose content is read without failure, has no row. *)
Lemma second_anonymous_card_is_dropped :
  data_id (flight_card None "IDR 1,200,000") = Got None
  /\ extract_row (U := nfkc_ascii) 2 (flight_card None "IDR 1,200,000") 2025
     = Some (Ok (flight_row "IDR 1,200,000"))
  /\ gather_cards (U := nfkc_ascii) 2 anonymous_driver 0 2025
     = Some (Ok [flight_row "IDR 1,100,000"])
  /\ ~ In (flight_row "IDR 1,200,000") [flight_row "IDR 1,100,000"].
Proof.
  split; [reflexivity|]. split; [vm_compute; reflexivity|].
  split; [vm_compute; reflexivity|].
  intros [H|[]]. discriminate.
Qed.

(* ================================================================= *)
(** ** Further properties *)

(* ----------------------------------------------------------------- *)
(** *** [shift_year_safe] *)

Lemma days_in_month_other_year y y' m :
  1 <= m <= 12 -> m <> 2 -> days_in_month y' m = days_in_month y m.
Proof.
  intros Hm H2. unfold days_in_month.
  replace (m =? 2) with false by (symmetry; apply Z.eqb_neq; exact H2).
  reflexivity.
Qed.

Lemma days_in_february y : days_in_month y 2 = if is_leap y then 29 else 28.
Proof. unfold days_in_month. simpl. destruct (is_leap y); reflexivity. Qed.

Lemma valid_ymd_spec y m d :
  valid_ymd y m d = true <->
  (1 <= y <= 9999 /\ 1 <= m <= 12 /\ 1 <= d <= days_in_month y m).
Proof. apply (valid_date_spec (mkdate y m d)). Qed.

Lemma date_replace_in_range t y d :
  1 <= y <= 9999 ->
  date_replace t y d =
    if valid_ymd y (month t) d then Ok (mkdate y (month t) d) else Raise ValueError.
Proof.
  intros Hy. unfold date_replace, date_new, INT_MIN, INT_MAX.
  replace (y <? -2147483648) with false by (symmetry; apply Z.ltb_ge; lia).
  replace (2147483647 <? y) with false by (symmetry; apply Z.ltb_ge; lia).
  simpl. destruct (valid_ymd y (month t) d); reflexivity.
Qed.

Lemma shift_year_safe_moved (target : date) (offset : Z) :
  valid_date target = true ->
  1 <= year target + offset <= 9999 ->
  let moved :=
    mkdate (year target + offset) (month target)
      (if (month target =? 2) && (day target =? 29)
          && negb (is_leap (year target + offset))
       then 28 else day target) in
  shift_year_safe target offset = Ok moved /\ valid_date moved = true.
Proof.
  intros Hv Hy moved.
  apply valid_date_spec in Hv. destruct Hv as (_ & Hm & Hd).
  unfold shift_year_safe. rewrite !date_replace_in_range by exact Hy.
  subst moved.
  destruct (Z.eq_dec (month target) 2) as [E2 | N2].
  - rewrite E2 in *. rewrite days_in_february in Hd.
    change (2 =? 2) with true.
    destruct (is_leap (year target + offset)) eqn:El;
      destruct (day target =? 29) eqn:E29; cbn [andb negb].
    + assert (Hok : valid_ymd (year target + offset) 2 (day target) = true).
      { apply valid_ymd_spec. rewrite days_in_february, El.
        destruct (is_leap (year target)); lia. }
      rewrite Hok. split; [reflexivity | exact Hok].
    + assert (Hok : valid_ymd (year target + offset) 2 (day target) = true).
      { apply valid_ymd_spec. rewrite days_in_february, El.
        destruct (is_leap (year target)); lia. }
      rewrite Hok. split; [reflexivity | exact Hok].
    + apply Z.eqb_eq in E29.
      assert (Hno : valid_ymd (year target + offset) 2 (day target) = false).
      { apply Bool.not_true_is_false. intros H. apply valid_ymd_spec in H.
        rewrite days_in_february, El in H. lia. }
      rewrite Hno.
      assert (Hok : valid_ymd (year target + offset) 2 28 = true).
      { apply valid_ymd_spec. rewrite days_in_february, El. lia. }
      rewrite E29. change (29 - 1) with 28. rewrite Hok.
      split; [reflexivity | exact Hok].
    + apply Z.eqb_neq in E29.
      assert (Hok : valid_ymd (year target + offset) 2 (day target) = true).
      { apply valid_ymd_spec. rewrite days_in_february, El.
        destruct (is_leap (year target)); lia. }
      rewrite Hok. split; [reflexivity | exact Hok].
  - replace (month target =? 2) with false by (symmetry; apply Z.eqb_neq; exact N2).
    cbn [andb].
    assert (Hok : valid_ymd (year target + offset) (month target) (day target) = true).
    { apply valid_ymd_spec.
      rewrite (days_in_month_other_year (year target)) by assumption. lia. }
    rewrite Hok. split; [reflexivity | exact Hok].
Qed.

(** X1.  A date moved by a number of years that keeps the year between 1
    and 9999 keeps its month and its day, except that 29 February becomes
    28 February in a year that is not a leap year; the result is a date of
    the calendar. *)
Theorem shift_year_safe_in_range (target : date) (offset : Z) :
  valid_date target = true ->
  MINYEAR <= year target + offset <= MAXYEAR ->
  let moved :=
    mkdate (year target + offset) (month target)
      (if (month target =? 2) && (day target =? 29)
          && negb (is_leap (year target + offset))
       then 28 else day target) in
  shift_year_safe target offset = Ok moved /\ valid_date moved = true.
Proof. exact (shift_year_safe_moved target offset). Qed.

(** 29 February 2024, a year later. *)
Lemma shift_year_safe_in_range_witness :
  shift_year_safe (mkdate 2024 2 29) 1 = Ok (mkdate 2025 2 28)
  /\ valid_date (mkdate 2025 2 28) = true.
Proof.
  apply (shift_year_safe_in_range (mkdate 2024 2 29) 1);
    [reflexivity | unfold MINYEAR, MAXYEAR; simpl; lia].
Defined.

Lemma date_new_out_of_range y m d : ~ (1 <= y <= 9999) -> date_new y m d = None.
Proof.
  intros Hy. unfold date_new.
  replace (valid_ymd y m d) with false; [reflexivity|].
  symmetry. apply Bool.not_true_is_false. intros H. apply valid_ymd_spec in H. lia.
Qed.

(** X2.  A shift that takes the year out of the calendar (below 1 or above
    9999) returns no date: it raises [ValueError], and [OverflowError] when
    the year does not fit a C [int]; the fallback to the day before does not
    hide the error. *)
Theorem shift_year_safe_out_of_range (target : date) (offset : Z) :
  ~ (MINYEAR <= year target + offset <= MAXYEAR) ->
  shift_year_safe target offset =
    Raise (if (year target + offset <? INT_MIN) || (INT_MAX <? year target + offset)
           then OverflowError else ValueError).
Proof.
  intros Hy. unfold MINYEAR, MAXYEAR in Hy.
  unfold shift_year_safe, date_replace.
  destruct ((year target + offset <? INT_MIN) || (INT_MAX <? year target + offset));
    [reflexivity|].
  rewrite !date_new_out_of_range by exact Hy. reflexivity.
Qed.

(** The last year of the calendar, a year later. *)
Lemma shift_year_safe_out_of_range_witness :
  shift_year_safe (mkdate 9999 6 1) 1 = Raise ValueError.
Proof.
  apply (shift_year_safe_out_of_range (mkdate 9999 6 1) 1).
  unfold MINYEAR, MAXYEAR. simpl. lia.
Defined.

(* ----------------------------------------------------------------- *)
(** *** [extract_year_from_url] *)

Lemma year_at_shape bs g :
  year_at bs = Some g ->
  exists c d, g = ["2"%byte; "0"%byte; c; d]
              /\ byte_is_digit c = true /\ byte_is_digit d = true.
Proof.
  unfold year_at. destruct bs as [|c1 [|c2 [|c3 [|c4 r]]]]; try discriminate.
  destruct (Byte.eqb c1 "2") eqn:E1; [|discriminate].
  destruct (Byte.eqb c2 "0") eqn:E2; [|discriminate].
  destruct (byte_is_digit c3) eqn:E3; [|discriminate].
  destruct (byte_is_digit c4) eqn:E4; [|discriminate].
  cbn [andb]. intros H. injection H as <-.
  apply byte_eqb_eq in E1, E2. subst. now exists c3, c4.
Qed.

Lemma search_year_shape : forall bs g,
  search_year bs = Some g ->
  exists c d, g = ["2"%byte; "0"%byte; c; d]
              /\ byte_is_digit c = true /\ byte_is_digit d = true.
Proof.
  induction bs as [|a bs IH]; intros g H.
  - cbn in H. discriminate.
  - cbn [search_year] in H. destruct (year_at (a :: bs)) eqn:E.
    + injection H as <-. exact (year_at_shape _ _ E).
    + exact (IH _ H).
Qed.

Lemma years_digits_ok : forall c d, year_digits_ok c d = true.
Proof. apply forall_bytes2. vm_compute. reflexivity. Qed.

Lemma byte_is_digit_range b :
  byte_is_digit b = true -> 0 <= Z.of_N (Byte.to_N b) - 48 <= 9.
Proof.
  unfold byte_is_digit. intros H. apply andb_prop in H. destruct H as [H1 H2].
  apply N.leb_le in H1, H2. lia.
Qed.

Lemma int_of_year_digits c d :
  byte_is_digit c = true -> byte_is_digit d = true ->
  exists y, int_of_str (decode_ascii ["2"%byte; "0"%byte; c; d]) = Some y
            /\ 2000 <= y <= 2099.
Proof.
  intros Hc Hd. pose proof (years_digits_ok c d) as H. unfold year_digits_ok in H.
  rewrite Hc, Hd in H. cbn [andb negb orb] in H.
  destruct (int_of_str (decode_ascii ["2"%byte; "0"%byte; c; d])) as [n|]; [|discriminate].
  apply Z.eqb_eq in H. exists n. split; [reflexivity|].
  pose proof (byte_is_digit_range c Hc). pose proof (byte_is_digit_range d Hd). lia.
Qed.

Lemma extract_year_from_url_cases {L : Urllib} (base_url : string) :
  (urlparse base_url = None /\ extract_year_from_url base_url = Raise ValueError)
  \/ (urlparse base_url <> None
      /\ (extract_year_from_url base_url = Ok None
          \/ exists y, 2000 <= y <= 2099 /\ extract_year_from_url base_url = Ok (Some y))).
Proof.
  unfold extract_year_from_url, tfs_value_of.
  destruct (urlparse base_url) as [parsed|]; [right|left; now split].
  split; [discriminate|].
  destruct (tfs_of_query (parse_qs (query_of parsed))) as [tfs_value|]; [|now left].
  destruct (str_nonempty tfs_value); cbn [negb]; [|now left].
  destruct (search_year_chunk tfs_value) as [chunk|]; [|now left].
  destruct (urlsafe_b64decode _) as [decoded|]; [|now left].
  destruct (search_year decoded) as [digits|] eqn:E; [|now left].
  destruct (search_year_shape _ _ E) as (c & d & -> & Hc & Hd).
  destruct (int_of_year_digits c d Hc Hd) as (y & -> & Hy).
  right. now exists y.
Qed.

(** X3.  [extract_year_from_url] raises when [urlparse] raises on the URL
    (line 128 is outside the [try]), a [ValueError], and in no other case; on
    a URL that [urlparse] reads it returns either no year or a year from 2000
    to 2099. *)
Theorem extract_year_from_url_range {L : Urllib} (base_url : string) :
  (urlparse base_url = None /\ extract_year_from_url base_url = Raise ValueError)
  \/ (urlparse base_url <> None
      /\ (extract_year_from_url base_url = Ok None
          \/ exists y, 2000 <= y <= 2099 /\ extract_year_from_url base_url = Ok (Some y))).
Proof. exact (extract_year_from_url_cases base_url). Qed.

Example extract_year_from_default_url :
  extract_year_from_url (L := urllib_ascii) DEFAULT_URL = Ok (Some 2025).
Proof. vm_compute. reflexivity. Qed.

Example extract_year_from_unmatched_bracket :
  extract_year_from_url (L := urllib_ascii) url_unmatched_bracket = Raise ValueError.
Proof. vm_compute. reflexivity. Qed.

(* ----------------------------------------------------------------- *)
(** *** The dates of a run *)

Lemma date_eqb_eq a b : date_eqb a b = true <-> a = b.
Proof.
  unfold date_eqb. split.
  - intros H. apply andb_prop in H. destruct H as [H Hd].
    apply andb_prop in H. destruct H as [Hy Hm].
    apply Z.eqb_eq in Hy, Hm, Hd. destruct a, b. simpl in *. congruence.
  - intros ->. now rewrite !Z.eqb_refl.
Qed.

Lemma date_in_spec t l : date_in t l = true <-> In t l.
Proof.
  unfold date_in. rewrite existsb_exists. split.
  - intros (u & Hu & E). apply date_eqb_eq in E. now subst.
  - intros H. exists t. split; [exact H | now apply date_eqb_eq].
Qed.

Lemma filter_filter {A} (p q : A -> bool) l :
  filter p (filter q l) = filter (fun x => q x && p x) l.
Proof.
  induction l as [|a l IH]; [reflexivity|].
  cbn [filter]. destruct (q a); cbn [andb filter]; [destruct (p a)|]; now rewrite IH.
Qed.

Lemma unique_from_spec : forall dates seen_dates unique_dates,
  unique_from dates seen_dates unique_dates
  = (unique_dates
     ++ filter (fun u => negb (date_in u seen_dates)) (first_occurrences dates))%list.
Proof.
  induction dates as [|t rest IH]; intros seen uniq.
  - cbn. now rewrite app_nil_r.
  - cbn [unique_from first_occurrences filter].
    destruct (date_in t seen) eqn:E; cbn [negb].
    + rewrite IH, filter_filter. f_equal. apply filter_ext. intros u.
      destruct (date_eqb u t) eqn:Eu; cbn [negb andb]; [|reflexivity].
      apply date_eqb_eq in Eu. subst u. now rewrite E.
    + rewrite IH, filter_filter, <- app_assoc. cbn [app]. do 2 f_equal.
      apply filter_ext. intros u. unfold date_in. cbn [existsb].
      now rewrite Bool.negb_orb.
Qed.

Lemma unique_first_occurrences dates : unique dates = first_occurrences dates.
Proof.
  unfold unique. rewrite unique_from_spec. cbn [app].
  rewrite <- (filter_ext (fun _ => true)) by reflexivity.
  induction (first_occurrences dates) as [|a l IH]; [reflexivity|].
  cbn [filter]. now rewrite IH.
Qed.

Lemma first_occurrences_In l t : In t (first_occurrences l) <-> In t l.
Proof.
  induction l as [|a l IH]; [reflexivity|].
  cbn [first_occurrences In]. rewrite filter_In, IH. split.
  - intros [H | [H _]]; [now left | now right].
  - intros [H | H]; [now left|].
    destruct (date_eqb t a) eqn:E.
    + apply date_eqb_eq in E. now left.
    + right. now split.
Qed.

Lemma first_occurrences_NoDup l : NoDup (first_occurrences l).
Proof.
  induction l as [|a l IH]; [constructor|].
  cbn [first_occurrences]. constructor.
  - rewrite filter_In. intros [_ H].
    assert (E : date_eqb a a = true) by now apply date_eqb_eq.
    now rewrite E in H.
  - now apply NoDup_filter.
Qed.

Lemma first_occurrences_of_NoDup l : NoDup l -> first_occurrences l = l.
Proof.
  induction 1 as [|a l Hn Hd IH]; [reflexivity|].
  cbn [first_occurrences]. rewrite IH. f_equal.
  apply forallb_filter_id. apply forallb_forall. intros u Hu.
  destruct (date_eqb u a) eqn:E; [|reflexivity].
  apply date_eqb_eq in E. now subst.
Qed.

(** X4.  The dates a run visits are the dates asked for, each once, a date
    that comes again being dropped where it comes again: the order of first
    appearance is kept. *)
Theorem unique_dates_first_appearance (dates : list date) :
  unique dates = first_occurrences dates
  /\ NoDup (unique dates)
  /\ (forall t, In t (unique dates) <-> In t dates).
Proof.
  rewrite unique_first_occurrences. split; [reflexivity|]. split.
  - apply first_occurrences_NoDup.
  - intros t. apply first_occurrences_In.
Qed.

Lemma In_range k n : In k (range n) <-> 0 <= k < n.
Proof.
  unfold range. rewrite in_map_iff. split.
  - intros (i & <- & Hi). apply in_seq in Hi. lia.
  - intros H. exists (Z.to_nat k). split; [lia|]. apply in_seq. lia.
Qed.

Lemma dates_from_days start : forall offsets,
  valid_date start = true ->
  (forall k, In k offsets -> 1 <= toordinal start + k <= MAXORDINAL) ->
  dates_from start offsets
  = Done (map (fun k => fromordinal (toordinal start + k)) offsets).
Proof.
  intros offsets Hv. induction offsets as [|k rest IH]; intros H; [reflexivity|].
  cbn [dates_from map]. rewrite add_days_some by (apply H; now left).
  rewrite IH by (intros j Hj; apply H; now right). reflexivity.
Qed.

Lemma range_succ n : 0 <= n -> range (n + 1) = (range n ++ [n])%list.
Proof.
  intros Hn. unfold range.
  replace (Z.to_nat (n + 1)) with (S (Z.to_nat n)) by lia.
  rewrite seq_S, map_app. cbn [map plus]. now rewrite Z2Nat.id.
Qed.

Lemma day_after_NoDup o : forall l : list nat,
  NoDup l -> NoDup (map (fun i => o + Z.of_nat i) l).
Proof.
  induction 1 as [|a l Hn Hd IH]; [constructor|].
  cbn [map]. constructor; [|exact IH].
  rewrite in_map_iff. intros (i & E & Hi).
  assert (i = a) by lia. now subst.
Qed.

(** X5.  A range whose end is not before its start gives the days from the
    start to the end, both included, one after the other: as many as the
    number of days between them plus one, the first the start, the last the
    end, no date past the calendar, and none dropped as a repetition. *)
Theorem date_range_days (start end_ : date) :
  valid_date start = true -> valid_date end_ = true ->
  date_ltb end_ start = false ->
  exists days,
    date_range start end_ = Done days
    /\ Z.of_nat (List.length days) = toordinal end_ - toordinal start + 1
    /\ hd_error days = Some start
    /\ last days start = end_
    /\ (forall k t, nth_error days k = Some t ->
          valid_date t = true /\ toordinal t = toordinal start + Z.of_nat k)
    /\ unique days = days.
Proof.
  intros Hs He Hlt.
  assert (Hn : 0 <= toordinal end_ - toordinal start).
  { destruct (Z.lt_ge_cases (toordinal end_) (toordinal start)) as [H|H]; [|lia].
    apply (date_ltb_toordinal end_ start He Hs) in H. congruence. }
  pose proof (toordinal_bounds _ Hs) as Bs. pose proof (toordinal_bounds _ He) as Be.
  set (n := toordinal end_ - toordinal start) in *.
  exists (map (fun k => fromordinal (toordinal start + k)) (range (n + 1))).
  assert (Hnth : forall k t,
    nth_error (map (fun k => fromordinal (toordinal start + k)) (range (n + 1))) k = Some t ->
    valid_date t = true /\ toordinal t = toordinal start + Z.of_nat k).
  { intros k t H. unfold range in H. rewrite !nth_error_map in H.
    destruct (nth_error (seq 0 (Z.to_nat (n + 1))) k) as [i|] eqn:E; [|discriminate].
    cbn in H. injection H as <-.
    assert (Hk : (k < Z.to_nat (n + 1))%nat).
    { assert (K : (k < List.length (seq 0 (Z.to_nat (n + 1))))%nat)
        by (apply nth_error_Some; congruence).
      now rewrite length_seq in K. }
    rewrite (nth_error_nth' _ O) in E by (now rewrite length_seq).
    rewrite seq_nth in E by exact Hk. injection E as <-. cbn [plus].
    apply ord2ymd_correct. lia. }
  split; [|split; [|split; [|split; [|split]]]].
  - unfold date_range. rewrite Hlt. fold n. apply dates_from_days; [exact Hs|].
    intros k Hk. apply In_range in Hk. lia.
  - rewrite length_map. unfold range. rewrite length_map, length_seq. lia.
  - destruct (map (fun k => fromordinal (toordinal start + k)) (range (n + 1)))
      as [|t days] eqn:E.
    + apply (f_equal (@List.length date)) in E.
      rewrite length_map in E. unfold range in E.
      rewrite length_map, length_seq in E. cbn in E. lia.
    + destruct (Hnth O t eq_refl) as [Hv Ho]. cbn [hd_error]. f_equal.
      apply toordinal_inj; [exact Hv | exact Hs | cbn in Ho; lia].
  - rewrite range_succ by exact Hn. rewrite map_app. cbn [map].
    rewrite last_last. subst n.
    replace (toordinal start + (toordinal end_ - toordinal start)) with (toordinal end_) by lia.
    now apply fromordinal_toordinal.
  - exact Hnth.
  - rewrite unique_first_occurrences. apply first_occurrences_of_NoDup.
    apply (NoDup_map_inv toordinal). rewrite map_map.
    rewrite (map_ext_in _ (fun k => toordinal start + k)).
    + unfold range. rewrite map_map. apply day_after_NoDup, seq_NoDup.
    + intros k Hk. apply In_range in Hk. apply ord2ymd_correct. lia.
Qed.

(** The last three days of 2025 and the first of 2026. *)
Lemma date_range_days_witness :
  exists days,
    date_range (mkdate 2025 12 29) (mkdate 2026 1 1) = Done days
    /\ Z.of_nat (List.length days)
       = toordinal (mkdate 2026 1 1) - toordinal (mkdate 2025 12 29) + 1
    /\ hd_error days = Some (mkdate 2025 12 29)
    /\ last days (mkdate 2025 12 29) = mkdate 2026 1 1
    /\ (forall k t, nth_error days k = Some t ->
          valid_date t = true
          /\ toordinal t = toordinal (mkdate 2025 12 29) + Z.of_nat k)
    /\ unique days = days.
Proof.
  apply (date_range_days (mkdate 2025 12 29) (mkdate 2026 1 1)); reflexivity.
Defined.

Example date_range_over_new_year :
  date_range (mkdate 2025 12 29) (mkdate 2026 1 1)
  = Done [mkdate 2025 12 29; mkdate 2025 12 30; mkdate 2025 12 31; mkdate 2026 1 1].
Proof. vm_compute. reflexivity. Qed.

Lemma is_leap_next_year y : is_leap y = true -> is_leap (y + 1) = false.
Proof.
  intros H. apply is_leap_spec in H. apply Bool.not_true_is_false. intros K.
  apply is_leap_spec in K. destruct H as [H _], K as [K _].
  pose proof (Z.div_mod y 4). pose proof (Z.div_mod (y + 1) 4). lia.
Qed.

(** X6.  With the default [--year-offsets], neither [--dates] nor a whole
    range, a URL that [urlparse] reads and a current year before 9999, the run
    visits the date of the label in the base year (the year read in the URL,
    the current year when the URL gives none) and the same date a year later,
    28 February when the date is 29 February. *)
Theorem planned_dates_default {L : Urllib} {P : Isoparse}
    (now_year : Z) (args : arguments) (found : option Z) (base_date : date) :
  given (arg_dates args) = None ->
  given (arg_range_start args) = None \/ given (arg_range_end args) = None ->
  arg_year_offsets args = "0,1" ->
  extract_year_from_url (arg_url args) = Ok found ->
  let base_year :=
    match found with
    | Some y => y
    | None => now_year
    end in
  label_to_date_result (arg_target_date args) base_year = Ok base_date ->
  now_year < MAXYEAR ->
  planned_dates now_year args
  = Done [ base_date;
           mkdate (year base_date + 1) (month base_date)
             (if (month base_date =? 2) && (day base_date =? 29) then 28
              else day base_date) ].
Proof.
  intros Hd Hr Ho Hfound base_year Hres Hnow. unfold MAXYEAR in Hnow.
  assert (Hy : base_year < 9999).
  { subst base_year. destruct found as [y|]; [|exact Hnow].
    destruct (extract_year_from_url_cases (arg_url args))
      as [[_ E] | [_ [E | (y' & By & E)]]]; rewrite E in Hfound; try discriminate.
    injection Hfound as <-. lia. }
  assert (Hl : date_new base_year (fst (month_day_of_label (arg_target_date args)))
                 (snd (month_day_of_label (arg_target_date args))) = Some base_date).
  { unfold label_to_date_result, month_day_of_label in *.
    destruct (label_month_day (arg_target_date args)) as [[m d]|]; [|discriminate].
    destruct (MAX_STR_DIGITS <? _)%nat; [discriminate|].
    destruct (negb _); [discriminate|]. cbn [fst snd].
    destruct (date_new base_year m d); [congruence | discriminate]. }
  assert (Hv : valid_date base_date = true) by exact (date_new_some _ _ _ _ Hl).
  assert (Eyear : year base_date = base_year).
  { unfold date_new in Hl. destruct (valid_ymd _ _ _); [|discriminate].
    now injection Hl as <-. }
  assert (Hlabel : dates_of_label now_year args
                   = shifted_dates base_date [0; 1]).
  { unfold dates_of_label. rewrite Hfound. subst base_year.
    destruct found as [y|].
    - destruct (extract_year_from_url_cases (arg_url args))
        as [[_ E] | [_ [E | (y' & By & E)]]]; rewrite E in Hfound; try discriminate.
      injection Hfound as <-.
      replace (y' =? 0) with false by (symmetry; apply Z.eqb_neq; lia).
      rewrite Hres, Ho. reflexivity.
    - rewrite Hres, Ho. reflexivity. }
  assert (Hplan : planned_dates now_year args
                  = match shifted_dates base_date [0; 1] with
                    | Done dates => Done (unique dates)
                    | stop => stop
                    end).
  { unfold planned_dates. rewrite Hd.
    destruct (given (arg_range_start args)), (given (arg_range_end args));
      [destruct Hr; discriminate | | |];
      rewrite Hlabel; now destruct (shifted_dates base_date [0; 1]). }
  rewrite Hplan. cbn [shifted_dates].
  pose proof (valid_date_spec base_date) as [Hspec _]. specialize (Hspec Hv).
  destruct (shift_year_safe_moved base_date 0 Hv ltac:(lia)) as [E0 _].
  destruct (shift_year_safe_moved base_date 1 Hv ltac:(lia)) as [E1 _].
  cbv zeta in E0, E1. rewrite E0, E1. clear E0 E1.
  rewrite Z.add_0_r.
  assert (Eday0 : (if (month base_date =? 2) && (day base_date =? 29)
                      && negb (is_leap (year base_date))
                   then 28 else day base_date) = day base_date).
  { destruct ((month base_date =? 2) && (day base_date =? 29)) eqn:E; [|reflexivity].
    apply andb_prop in E. destruct E as [Em Ed]. apply Z.eqb_eq in Em, Ed.
    destruct (is_leap (year base_date)) eqn:El; [reflexivity|].
    rewrite Em, days_in_february, El in Hspec. lia. }
  assert (Eday1 : (if (month base_date =? 2) && (day base_date =? 29)
                      && negb (is_leap (year base_date + 1))
                   then 28 else day base_date)
                  = if (month base_date =? 2) && (day base_date =? 29) then 28
                    else day base_date).
  { destruct ((month base_date =? 2) && (day base_date =? 29)) eqn:E; [|reflexivity].
    apply andb_prop in E. destruct E as [Em Ed]. apply Z.eqb_eq in Em, Ed.
    destruct (is_leap (year base_date)) eqn:El.
    - now rewrite (is_leap_next_year _ El).
    - rewrite Em, days_in_february, El in Hspec. lia. }
  rewrite Eday0, Eday1. rewrite (date_eta base_date).
  f_equal. rewrite unique_first_occurrences. apply first_occurrences_of_NoDup.
  constructor; [|constructor; [intros []|constructor]].
  intros [E | []]. apply (f_equal year) in E. cbn in E. lia.
Qed.

(** The default command line, run in 2026 on the default URL, whose date is
    in 2025. *)
Lemma planned_dates_default_witness :
  planned_dates (L := urllib_ascii) (P := calendar_isoparse) 2026 default_args
  = Done [mkdate 2025 10 8; mkdate 2026 10 8].
Proof.
  apply (planned_dates_default (L := urllib_ascii) (P := calendar_isoparse)
           2026 default_args (Some 2025) (mkdate 2025 10 8)).
  - reflexivity.
  - left. reflexivity.
  - reflexivity.
  - vm_compute. reflexivity.
  - vm_compute. reflexivity.
  - vm_compute. reflexivity.
Defined.

(** On a URL that [urlparse] refuses the run ends before the first date, with
    the [ValueError] of line 515. *)
Example planned_dates_unmatched_bracket :
  planned_dates (L := urllib_ascii) (P := calendar_isoparse) 2026
    {| arg_url := url_unmatched_bracket; arg_target_date := "Wed, Oct 8";
       arg_dates := None; arg_range_start := None; arg_range_end := None;
       arg_year_offsets := "0,1" |}
  = Uncaught ValueError.
Proof. vm_compute. reflexivity. Qed.

(* ----------------------------------------------------------------- *)
(** *** [format_output] *)

Lemma length_append (a b : string) :
  String.length (a ++ b) = (String.length a + String.length b)%nat.
Proof. induction a as [|c a IH]; cbn; [reflexivity | now rewrite IH]. Qed.

Lemma length_repeat_char c n : String.length (repeat_char c n) = n.
Proof. induction n as [|n IH]; cbn; [reflexivity | now rewrite IH]. Qed.

Lemma length_pad_right w s :
  (String.length s <= w)%nat -> String.length (pad_right w s) = w.
Proof.
  intros H. unfold pad_right. rewrite length_append, length_repeat_char. lia.
Qed.

Lemma length_join sep : forall (widths : list nat) (texts : list string),
  Forall2 (fun w s => String.length s = w) widths texts ->
  widths <> [] ->
  String.length (join sep texts)
  = (sum widths + String.length sep * (List.length widths - 1))%nat.
Proof.
  induction 1 as [|w s ws ss Hs Hrest IH]; intros Hne; [congruence|].
  destruct Hrest as [|w' s' ws' ss' Hs' Hrest'].
  - cbn. lia.
  - change (join sep (s :: s' :: ss')) with (s ++ sep ++ join sep (s' :: ss')).
    rewrite !length_append, IH by discriminate.
    cbn [sum fold_right List.length]. cbn [sum fold_right] in *. lia.
Qed.

Lemma is_str_fits v : is_str v = true -> fits v (String.length (format_value v)).
Proof. destruct v; try discriminate. intros _. exists s. split; [reflexivity | cbn; lia]. Qed.

Lemma widen_some : forall widths vals,
  List.length widths = List.length vals ->
  forallb is_str vals = true ->
  exists widths',
    widen widths vals = Some widths'
    /\ Forall2 le widths widths'
    /\ Forall2 fits vals widths'.
Proof.
  induction widths as [|w ws IH]; intros [|v vs] Hlen Hstr; try discriminate.
  - exists []. repeat split; constructor.
  - cbn in Hstr. apply andb_prop in Hstr. destruct Hstr as [Hv Hvs].
    destruct (IH vs ltac:(cbn in Hlen; lia) Hvs) as (ws' & E & Hle & Hfit).
    destruct v as [|s|n]; try discriminate.
    exists (Nat.max w (String.length s) :: ws'). cbn [widen len]. rewrite E.
    split; [reflexivity|]. split; constructor; auto; [lia|].
    exists s. split; [reflexivity | lia].
Qed.

Lemma widen_none : forall widths vals,
  List.length widths = List.length vals ->
  forallb is_str vals = false ->
  widen widths vals = None.
Proof.
  induction widths as [|w ws IH]; intros [|v vs] Hlen Hstr; try discriminate.
  cbn in Hstr. cbn [widen]. destruct v as [|s|n]; try reflexivity.
  cbn in Hstr. rewrite (IH vs); [reflexivity | cbn in Hlen; lia | exact Hstr].
Qed.

Lemma Forall2_le_trans : forall a b c : list nat,
  Forall2 le a b -> Forall2 le b c -> Forall2 le a c.
Proof.
  intros a b c H. revert c. induction H as [|x y a b Hxy Hab IH]; intros c Hc.
  - inversion Hc. constructor.
  - inversion Hc as [|y' z b' c' Hyz Hbc]; subst. constructor; [lia | now apply IH].
Qed.

Lemma fits_wider : forall vals (a b : list nat),
  Forall2 fits vals a -> Forall2 le a b -> Forall2 fits vals b.
Proof.
  intros vals a b H. revert b. induction H as [|v x vals a Hv Hrest IH]; intros b Hb.
  - inversion Hb. constructor.
  - inversion Hb as [|x' y a' b' Hxy Hab]; subst. constructor; [|now apply IH].
    destruct Hv as (s & -> & Hs). exists s. split; [reflexivity | lia].
Qed.

Lemma Forall2_le_length (a b : list nat) : Forall2 le a b -> List.length b = List.length a.
Proof. induction 1; cbn; congruence. Qed.

Lemma length_cells row : List.length (cells row) = 7%nat.
Proof. reflexivity. Qed.

Lemma column_widths_some : forall rows widths,
  List.length widths = 7%nat ->
  (forall row, In row rows -> forallb is_str (cells row) = true) ->
  exists widths',
    column_widths rows widths = Some widths'
    /\ Forall2 le widths widths'
    /\ (forall row, In row rows -> Forall2 fits (cells row) widths').
Proof.
  induction rows as [|row rows IH]; intros widths Hlen Hstr.
  - exists widths. split; [reflexivity|]. split; [|intros ? []].
    clear. induction widths; constructor; auto.
  - destruct (widen_some widths (cells row)) as (w1 & E1 & Hle1 & Hfit1);
      [now rewrite length_cells | apply Hstr; now left|].
    destruct (IH w1) as (w2 & E2 & Hle2 & Hfit2).
    + rewrite (Forall2_le_length _ _ Hle1). exact Hlen.
    + intros r Hr. apply Hstr. now right.
    + exists w2. cbn [column_widths]. rewrite E1, E2. split; [reflexivity|].
      split; [exact (Forall2_le_trans _ _ _ Hle1 Hle2)|].
      intros r [<- | Hr]; [exact (fits_wider _ _ _ Hfit1 Hle2) | now apply Hfit2].
Qed.

Lemma column_widths_none : forall rows widths,
  List.length widths = 7%nat ->
  (exists row, In row rows /\ forallb is_str (cells row) = false) ->
  column_widths rows widths = None.
Proof.
  induction rows as [|row rows IH]; intros widths Hlen (bad & Hin & Hbad);
    [contradiction|].
  cbn [column_widths].
  destruct (forallb is_str (cells row)) eqn:E.
  - destruct (widen_some widths (cells row)) as (w1 & E1 & Hle1 & _);
      [now rewrite length_cells | exact E|].
    rewrite E1. apply IH.
    + rewrite (Forall2_le_length _ _ Hle1). exact Hlen.
    + destruct Hin as [<- | Hin]; [congruence|]. now exists bad.
  - rewrite widen_none; [reflexivity | now rewrite length_cells | exact E].
Qed.

Lemma format_cells_fits : forall vals widths,
  Forall2 fits vals widths ->
  exists texts,
    format_cells widths vals = Some texts
    /\ Forall2 (fun w s => String.length s = w) widths texts.
Proof.
  induction 1 as [|v w vals widths Hv Hrest IH].
  - exists []. split; [reflexivity | constructor].
  - destruct IH as (texts & E & Hlen). destruct Hv as (s & -> & Hs).
    exists (pad_right w s :: texts). cbn [format_cells format_left]. rewrite E.
    split; [reflexivity|]. constructor; [now apply length_pad_right | exact Hlen].
Qed.

Lemma row_format_fits vals widths :
  Forall2 fits vals widths -> List.length widths = 7%nat ->
  exists line,
    row_format widths vals = Some line
    /\ String.length line = (sum widths + 12)%nat.
Proof.
  intros Hfit Hlen. destruct (format_cells_fits _ _ Hfit) as (texts & E & Ht).
  exists (join "  " texts). unfold row_format. rewrite E. split; [reflexivity|].
  rewrite (length_join _ widths) by (try exact Ht; destruct widths; discriminate).
  rewrite Hlen. reflexivity.
Qed.

Lemma format_rows_fits widths : forall rows,
  List.length widths = 7%nat ->
  (forall row, In row rows -> Forall2 fits (cells row) widths) ->
  exists body,
    format_rows widths rows = Some body
    /\ List.length body = List.length rows
    /\ Forall (fun line => String.length line = (sum widths + 12)%nat) body.
Proof.
  induction rows as [|row rows IH]; intros Hlen Hfit.
  - exists []. repeat split; constructor.
  - destruct (row_format_fits (cells row) widths) as (line & E & Hl);
      [apply Hfit; now left | exact Hlen|].
    destruct IH as (body & Eb & Hb & Hall);
      [exact Hlen | intros r Hr; apply Hfit; now right|].
    exists (line :: body). cbn [format_rows]. rewrite E, Eb.
    split; [reflexivity|]. split; [cbn; congruence | now constructor].
Qed.

Lemma headers_fit widths :
  Forall2 le (map String.length headers) widths ->
  Forall2 fits (map VStr headers) widths.
Proof.
  intros H. apply (fits_wider _ (map String.length headers)); [|exact H].
  unfold headers. cbn [map].
  repeat (apply Forall2_cons; [eexists; split; [reflexivity | cbn; lia] |]).
  apply Forall2_nil.
Qed.

Lemma sum_le : forall a b : list nat, Forall2 le a b -> (sum a <= sum b)%nat.
Proof. induction 1; unfold sum in *; cbn [fold_right] in *; lia. Qed.

Lemma format_output_strings rows :
  rows <> [] ->
  (forall row, In row rows -> forallb is_str (cells row) = true) ->
  exists width head body,
    format_output rows = Some (head :: repeat_char "-" width :: body)
    /\ List.length body = List.length rows
    /\ Forall (fun line => String.length line = width)
         (head :: repeat_char "-" width :: body)
    /\ (sum (map String.length headers) + 12 <= width)%nat.
Proof.
  intros Hne Hstr.
  destruct (column_widths_some rows (map String.length headers) eq_refl Hstr)
    as (widths & E & Hle & Hfit).
  assert (Hlen : List.length widths = 7%nat)
    by (now rewrite (Forall2_le_length _ _ Hle)).
  destruct (row_format_fits _ _ (headers_fit _ Hle) Hlen) as (head & Eh & Hh).
  destruct (format_rows_fits widths rows Hlen Hfit) as (body & Eb & Hb & Hall).
  exists (sum widths + 12)%nat, head, body.
  unfold format_output. rewrite E, Eh, Eb.
  destruct rows as [|row rows]; [congruence|].
  split; [reflexivity|]. split; [exact Hb|]. split.
  - constructor; [exact Hh|]. constructor; [apply length_repeat_char | exact Hall].
  - pose proof (sum_le _ _ Hle). lia.
Qed.

(* --- the widths are those of the longest cells --- *)
Lemma fold_max_swap : forall (l : list nat) (w x : nat),
  fold_left Nat.max l (Nat.max w x) = Nat.max (fold_left Nat.max l w) x.
Proof.
  induction l as [|a l IH]; intros w x; [reflexivity|].
  cbn [fold_left]. rewrite <- IH. f_equal. lia.
Qed.

Lemma fold_left_max_right : forall (l : list nat) (w : nat),
  fold_left Nat.max l w = fold_right Nat.max w l.
Proof.
  induction l as [|a l IH]; intros w; [reflexivity|].
  cbn [fold_left fold_right]. rewrite fold_max_swap, IH. apply Nat.max_comm.
Qed.

Lemma fold_right_max_ge : forall (l : list nat) (w : nat),
  (w <= fold_right Nat.max w l)%nat
  /\ forall x, In x l -> (x <= fold_right Nat.max w l)%nat.
Proof.
  induction l as [|a l IH]; intros w.
  - split; [apply le_n | intros x []].
  - destruct (IH w) as [H1 H2]. cbn [fold_right]. split; [lia|].
    intros x [<- | Hx]; [lia|]. specialize (H2 x Hx). lia.
Qed.

Lemma cells_texts row :
  forallb is_str (cells row) = true -> cells row = map VStr (map (cell_text row) headers).
Proof.
  unfold cells, cell_text. rewrite map_map. intros H. apply map_ext_in.
  intros h Hh. rewrite forallb_forall in H.
  specialize (H (get_default row h (VStr "")) (in_map _ _ _ Hh)).
  now destruct (get_default row h (VStr "")).
Qed.

Lemma widen_texts : forall (hs : list string) (ws : list nat) (f : string -> string),
  List.length ws = List.length hs ->
  widen ws (map VStr (map f hs))
  = Some (map (fun hw => Nat.max (snd hw) (String.length (f (fst hw)))) (combine hs ws)).
Proof.
  induction hs as [|h hs IH]; intros [|w ws] f Hlen; try discriminate; [reflexivity|].
  cbn [map widen len combine fst snd]. rewrite IH by (cbn in Hlen; lia). reflexivity.
Qed.

Lemma combine_map_snd {A B C} (g : A * B -> C) : forall (l : list A) (m : list B),
  combine l (map g (combine l m)) = map (fun p => (fst p, g p)) (combine l m).
Proof.
  induction l as [|a l IH]; intros [|b m]; try reflexivity.
  cbn [combine map fst]. now rewrite IH.
Qed.

Lemma length_combine_same {A B} (l : list A) (m : list B) :
  List.length m = List.length l -> List.length (combine l m) = List.length l.
Proof. intros H. rewrite length_combine, H. apply Nat.min_id. Qed.

Lemma column_widths_texts : forall rows ws,
  List.length ws = List.length headers ->
  (forall row, In row rows -> forallb is_str (cells row) = true) ->
  column_widths rows ws
  = Some (map (fun hw =>
                 fold_left Nat.max
                   (map (fun row => String.length (cell_text row (fst hw))) rows) (snd hw))
              (combine headers ws)).
Proof.
  induction rows as [|row rows IH]; intros ws Hlen Hstr.
  - cbn [column_widths map fold_left]. f_equal. revert Hlen.
    generalize headers as hs. revert ws.
    induction ws as [|w ws IHw]; intros [|h hs] Hl; try discriminate; [reflexivity|].
    cbn [combine map snd]. f_equal. apply IHw. cbn in Hl. lia.
  - cbn [column_widths].
    rewrite (cells_texts row) by (apply Hstr; now left).
    rewrite (widen_texts headers ws (cell_text row) Hlen).
    rewrite IH.
    + f_equal. rewrite combine_map_snd, map_map. apply map_ext.
      intros [h w]. reflexivity.
    + rewrite length_map. now apply length_combine_same.
    + intros r Hr. apply Hstr. now right.
Qed.

Lemma column_widths_longest rows :
  (forall row, In row rows -> forallb is_str (cells row) = true) ->
  column_widths rows (map String.length headers) = Some (map (column_width rows) headers).
Proof.
  intros Hstr. rewrite column_widths_texts; [|apply length_map | exact Hstr].
  f_equal. unfold column_width.
  generalize headers as hs. induction hs as [|h hs IH]; [reflexivity|].
  cbn [map combine fst snd]. now rewrite IH, fold_left_max_right.
Qed.

Lemma format_cells_texts (f : string -> nat) : forall (hs texts : list string),
  List.length texts = List.length hs ->
  format_cells (map f hs) (map VStr texts)
  = Some (map (fun ht => snd ht ++ repeat_char " " (f (fst ht) - String.length (snd ht)))
              (combine hs texts)).
Proof.
  induction hs as [|h hs IH]; intros [|s texts] Hlen; try discriminate; [reflexivity|].
  cbn [map format_cells format_left combine fst snd]. rewrite IH by (cbn in Hlen; lia).
  reflexivity.
Qed.

Lemma row_format_line rows (texts : list string) :
  List.length texts = List.length headers ->
  row_format (map (column_width rows) headers) (map VStr texts)
  = Some (table_line rows texts).
Proof.
  intros Hlen. unfold row_format, table_line. now rewrite format_cells_texts.
Qed.

Lemma format_rows_lines rows : forall some_rows,
  (forall row, In row some_rows -> forallb is_str (cells row) = true) ->
  format_rows (map (column_width rows) headers) some_rows
  = Some (map (fun row => table_line rows (map (cell_text row) headers)) some_rows).
Proof.
  induction some_rows as [|row rest IH]; intros Hstr; [reflexivity|].
  cbn [format_rows map].
  rewrite (cells_texts row) by (apply Hstr; now left).
  rewrite row_format_line by (now rewrite length_map).
  rewrite IH by (intros r Hr; apply Hstr; now right). reflexivity.
Qed.

Lemma format_output_lines rows :
  rows <> [] ->
  (forall row, In row rows -> forallb is_str (cells row) = true) ->
  format_output rows = Some (table rows).
Proof.
  intros Hne Hstr. unfold format_output, table.
  rewrite (column_widths_longest rows Hstr), (row_format_line rows headers eq_refl),
    (format_rows_lines rows rows Hstr).
  destruct rows; [congruence | reflexivity].
Qed.

Lemma table_lengths rows :
  rows <> [] ->
  (forall row, In row rows -> forallb is_str (cells row) = true) ->
  Forall (fun line => String.length line = (sum (map (column_width rows) headers) + 12)%nat)
    (table rows).
Proof.
  intros Hne Hstr.
  destruct (format_output_strings rows Hne Hstr) as (width & head & body & E & _ & Hall & _).
  rewrite (format_output_lines rows Hne Hstr) in E.
  assert (E' : table rows = head :: repeat_char "-" width :: body) by congruence.
  pose proof (f_equal (fun l => String.length (nth 1 l "")) E') as Ew.
  unfold table in Ew. cbn [nth] in Ew. rewrite !length_repeat_char in Ew.
  rewrite E', Ew. exact Hall.
Qed.

(** X7.  When every cell of every row is a string, [format_output] prints
    the table of the rows: the headings, a rule of dashes and a line for each
    row, in the order of the rows.  Every column is as wide as the longest of
    its heading and its cells; in a line every heading or cell is written
    whole, followed by spaces up to the width of its column, with two spaces
    between the columns; all the lines, the rule among them, have the same
    length, the sum of the widths plus 12. *)
Theorem format_output_table (rows : list dict) :
  rows <> [] ->
  (forall row, In row rows -> forallb is_str (cells row) = true) ->
  format_output rows = Some (table rows)
  /\ Forall (fun line =>
               String.length line = (sum (map (column_width rows) headers) + 12)%nat)
       (table rows)
  /\ (forall h, In h headers ->
        (String.length h <= column_width rows h)%nat
        /\ forall row, In row rows ->
             (String.length (cell_text row h) <= column_width rows h)%nat).
Proof.
  intros Hne Hstr.
  split; [exact (format_output_lines rows Hne Hstr)|].
  split; [exact (table_lengths rows Hne Hstr)|].
  intros h _. unfold column_width.
  destruct (fold_right_max_ge (map (fun row => String.length (cell_text row h)) rows)
              (String.length h)) as [H1 H2].
  split; [exact H1|]. intros row Hrow. apply H2.
  exact (in_map (fun row => String.length (cell_text row h)) rows row Hrow).
Qed.

(** X8.  [format_output] raises [TypeError], before it prints anything,
    exactly when some cell of some row is not a string; on the empty list it
    prints the one line that says that nothing was captured. *)
Theorem format_output_type_error (rows : list dict) :
  (format_output rows = None
   <-> exists row, In row rows /\ forallb is_str (cells row) = false)
  /\ (rows = [] -> format_output rows = Some ["No flight results captured."]).
Proof.
  split; [|intros ->; reflexivity].
  split.
  - intros H. destruct rows as [|r rows]; [discriminate|].
    destruct (forallb (fun row => forallb is_str (cells row)) (r :: rows)) eqn:E.
    + rewrite forallb_forall in E.
      destruct (format_output_strings (r :: rows) ltac:(discriminate) E)
        as (? & ? & ? & K & _). congruence.
    + clear H. induction (r :: rows) as [|a l IH]; [discriminate|].
      cbn [forallb] in E. destruct (forallb is_str (cells a)) eqn:Ea.
      * destruct (IH E) as (row & Hin & Hrow). exists row. split; [now right | exact Hrow].
      * exists a. split; [now left | exact Ea].
  - intros H. unfold format_output.
    rewrite (column_widths_none rows (map String.length headers) eq_refl H).
    destruct rows; [|reflexivity]. destruct H as (? & [] & _).
Qed.

(* ----------------------------------------------------------------- *)
(** *** Text *)

Lemma forall_ascii (p : ascii -> bool) :
  forallb (fun b => p (ascii_of_byte b)) all_bytes = true -> forall c, p c = true.
Proof.
  intros H c. rewrite <- (ascii_of_byte_of_ascii c).
  exact (forall_bytes (fun b => p (ascii_of_byte b)) H (byte_of_ascii c)).
Qed.

Lemma alpha_not_space c : is_alpha c = true -> is_space c = false.
Proof.
  intros H.
  pose proof (forall_ascii (fun c => implb (is_alpha c) (negb (is_space c)))
                ltac:(vm_compute; reflexivity) c) as K.
  cbv beta in K. rewrite H in K. cbn in K. now destruct (is_space c).
Qed.

Lemma alpha_not_comma c : is_alpha c = true -> (c =? ",")%char = false.
Proof.
  intros H.
  pose proof (forall_ascii (fun c => implb (is_alpha c) (negb (c =? ",")%char))
                ltac:(vm_compute; reflexivity) c) as K.
  cbv beta in K. rewrite H in K. cbn in K. now destruct (c =? ",")%char.
Qed.

Lemma digit_not_space c : is_digit c = true -> is_space c = false.
Proof.
  intros H.
  pose proof (forall_ascii (fun c => implb (is_digit c) (negb (is_space c)))
                ltac:(vm_compute; reflexivity) c) as K.
  cbv beta in K. rewrite H in K. cbn in K. now destruct (is_space c).
Qed.

Lemma str_all_impl (p q : ascii -> bool) s :
  (forall c, p c = true -> q c = true) -> str_all p s = true -> str_all q s = true.
Proof.
  intros Hpq. induction s as [|c r IH]; [reflexivity|].
  cbn. intros H. apply andb_prop in H. destruct H as [Hc Hr].
  now rewrite (Hpq c Hc), (IH Hr).
Qed.


Lemma span_app p a b :
  str_all p a = true -> stops p b -> span p (a ++ b) = (a, b).
Proof.
  intros Ha Hb. induction a as [|c a IH].
  - destruct b as [|c b]; [reflexivity|]. cbn in *. now rewrite Hb.
  - cbn in Ha. apply andb_prop in Ha. destruct Ha as [Hc Ha].
    cbn. now rewrite Hc, (IH Ha).
Qed.

Lemma span_fst_all p : forall s a b, span p s = (a, b) -> str_all p a = true.
Proof.
  induction s as [|c s IH]; intros a b H.
  - cbn in H. now injection H as <- _.
  - cbn in H. destruct (p c) eqn:E.
    + destruct (span p s) as [a' b'] eqn:Es. injection H as <- _.
      cbn. now rewrite E, (IH a' b' eq_refl).
    + now injection H as <- _.
Qed.

Lemma lstrip_keep p c r : p c = false -> lstrip p (String c r) = String c r.
Proof. intros H. cbn. now rewrite H. Qed.

Lemma rstrip_none p s :
  str_all (fun c => negb (p c)) s = true -> rstrip p s = s.
Proof.
  induction s as [|c r IH]; [reflexivity|].
  cbn [str_all]. intros H. apply andb_prop in H. destruct H as [Hc Hr].
  rewrite rstrip_keep by (now destruct (p c)). now rewrite (IH Hr).
Qed.

Lemma rstrip_app p a b :
  str_nonempty (rstrip p b) = true -> rstrip p (a ++ b) = a ++ rstrip p b.
Proof.
  intros Hb. induction a as [|c a IH]; [reflexivity|].
  cbn [append rstrip]. rewrite IH.
  destruct (a ++ rstrip p b) eqn:E; [|reflexivity].
  destruct a; [|discriminate]. cbn in E. rewrite E in Hb. discriminate.
Qed.

Lemma find_sub_char_first (c : ascii) a b :
  str_all (fun x => negb (x =? c)%char) a = true ->
  find_sub (String c "") (a ++ String c b) = Some (a, b).
Proof.
  induction a as [|x a IH]; intros H.
  - cbn. now rewrite Ascii.eqb_refl.
  - cbn [str_all] in H. apply andb_prop in H. destruct H as [Hx Ha].
    cbn [append find_sub strip_prefix].
    rewrite Ascii.eqb_sym. apply negb_true_iff in Hx. rewrite Hx.
    now rewrite (IH Ha).
Qed.

(* ----------------------------------------------------------------- *)
(** *** The date of a fragment *)

Lemma stops_alpha_space m rest :
  str_all is_alpha m = true -> str_nonempty m = true -> stops is_space (m ++ rest).
Proof.
  destruct m as [|c m]; [discriminate|]. cbn. intros H _.
  apply andb_prop in H. now apply alpha_not_space.
Qed.

Lemma stops_digit_space ds rest :
  str_all is_digit ds = true -> str_nonempty ds = true -> stops is_space (ds ++ rest).
Proof.
  destruct ds as [|c ds]; [discriminate|]. cbn. intros H _.
  apply andb_prop in H. now apply digit_not_space.
Qed.

Lemma alpha_all_not_space m : str_all is_alpha m = true -> str_all not_space m = true.
Proof.
  apply str_all_impl. intros c H. unfold not_space. now rewrite alpha_not_space.
Qed.

Lemma digit_all_not_space ds : str_all is_digit ds = true -> str_all not_space ds = true.
Proof.
  apply str_all_impl. intros c H. unfold not_space. now rewrite digit_not_space.
Qed.

(** [strptime] on the text that [_parse_date_fragment] gives it. *)
Lemma strptime_date_text wst mst w m ds ystr :
  str_all is_alpha w = true ->
  str_all is_alpha m = true -> str_nonempty m = true ->
  str_all is_digit ds = true -> str_nonempty ds = true ->
  stops is_space ystr ->
  strptime_date wst mst (w ++ ", " ++ m ++ " " ++ ds ++ " " ++ ystr)
  = match name_index (weekday_names wst) w with
    | None => None
    | Some _ =>
        match strptime_month mst m, parse_day ds, take_digits 4 0 ystr with
        | Some mo, Some d, Some (y, EmptyString) => date_new y mo d
        | _, _, _ => None
        end
    end.
Proof.
  intros Hw Hm Hmne Hd Hdne Hy. unfold strptime_date.
  change (w ++ ", " ++ m ++ " " ++ ds ++ " " ++ ystr)
    with (w ++ String "," (" " ++ m ++ " " ++ ds ++ " " ++ ystr)).
  rewrite find_sub_char_first
    by (revert Hw; apply str_all_impl; intros c H; now rewrite alpha_not_comma).
  destruct (name_index (weekday_names wst) w); [|reflexivity].
  rewrite (span_app is_space " " (m ++ " " ++ ds ++ " " ++ ystr) eq_refl)
    by (now apply stops_alpha_space).
  rewrite (span_app not_space m (" " ++ ds ++ " " ++ ystr))
    by (first [now apply alpha_all_not_space | reflexivity]).
  rewrite (span_app is_space " " (ds ++ " " ++ ystr) eq_refl)
    by (now apply stops_digit_space).
  rewrite (span_app not_space ds (" " ++ ystr))
    by (first [now apply digit_all_not_space | reflexivity]).
  rewrite (span_app is_space " " ystr eq_refl Hy).
  reflexivity.
Qed.

Lemma match_on_date_shape s g :
  match_on_date s = Some g ->
  exists w m ds,
    g = w ++ ", " ++ m ++ " " ++ ds
    /\ str_all is_alpha w = true /\ str_nonempty w = true
    /\ str_all is_alpha m = true /\ str_nonempty m = true
    /\ str_all is_digit ds = true /\ str_nonempty ds = true.
Proof.
  unfold match_on_date.
  destruct (strip_prefix "on " s) as [r0|]; [|discriminate].
  destruct (span is_alpha r0) as [w r1] eqn:Ew.
  destruct (str_nonempty w) eqn:Hw; [|discriminate]. cbn [negb].
  destruct (strip_prefix ", " r1) as [r2|]; [|discriminate].
  destruct (span is_alpha r2) as [m r3] eqn:Em.
  destruct (str_nonempty m) eqn:Hm; [|discriminate]. cbn [negb].
  destruct r3 as [|sp [|d1 r4]]; try discriminate.
  { destruct sp as [[] [] [] [] [] [] [] []]; discriminate. }
  destruct (Ascii.eqb sp " ") eqn:Esp.
  2:{ intros H. exfalso. revert H.
      destruct sp as [[] [] [] [] [] [] [] []]; try discriminate. }
  apply Ascii.eqb_eq in Esp. subst sp.
  destruct (is_digit d1) eqn:Hd1; [|discriminate].
  intros H. injection H as <-.
  pose proof (span_fst_all _ _ _ _ Ew) as Aw.
  pose proof (span_fst_all _ _ _ _ Em) as Am.
  destruct r4 as [|d2 r5].
  - exists w, m, (String d1 ""). repeat split; auto. cbn. now rewrite Hd1.
  - destruct (is_digit d2) eqn:Hd2.
    + exists w, m, (String d1 (String d2 "")). repeat split; auto.
      cbn. now rewrite Hd1, Hd2.
    + exists w, m, (String d1 ""). repeat split; auto. cbn. now rewrite Hd1.
Qed.

Lemma search_on_date_shape : forall s g,
  search_on_date s = Some g ->
  exists w m ds,
    g = w ++ ", " ++ m ++ " " ++ ds
    /\ str_all is_alpha w = true /\ str_nonempty w = true
    /\ str_all is_alpha m = true /\ str_nonempty m = true
    /\ str_all is_digit ds = true /\ str_nonempty ds = true.
Proof.
  induction s as [|c s IH]; intros g H.
  - cbn in H. discriminate.
  - cbn [search_on_date] in H. destruct (match_on_date (String c s)) eqn:E.
    + injection H as <-. exact (match_on_date_shape _ _ E).
    + exact (IH _ H).
Qed.

Lemma strip_date_text w m ds :
  str_all is_alpha w = true -> str_nonempty w = true ->
  str_all is_digit ds = true -> str_nonempty ds = true ->
  strip (w ++ ", " ++ m ++ " " ++ ds) = w ++ ", " ++ m ++ " " ++ ds.
Proof.
  intros Hw Hwne Hd Hdne. unfold strip.
  assert (El : lstrip is_space (w ++ ", " ++ m ++ " " ++ ds)
               = w ++ ", " ++ m ++ " " ++ ds).
  { destruct w as [|c w]; [discriminate|]. cbn in Hw. apply andb_prop in Hw.
    cbn [append]. apply lstrip_keep. now apply alpha_not_space. }
  rewrite El.
  assert (Er : rstrip is_space ds = ds).
  { apply rstrip_none. revert Hd. apply str_all_impl.
    intros c H. now rewrite digit_not_space. }
  replace (w ++ ", " ++ m ++ " " ++ ds) with ((w ++ ", " ++ m ++ " ") ++ ds)
    by (now rewrite !append_assoc).
  rewrite rstrip_app by (now rewrite Er). now rewrite Er.
Qed.

Lemma first_format_some : forall fmts s t,
  first_format fmts s = Some t ->
  exists wst mst, strptime_date wst mst s = Some t.
Proof.
  induction fmts as [|[wst mst] rest IH]; intros s t H; [discriminate|].
  cbn [first_format] in H. destruct (strptime_date wst mst s) eqn:E.
  - injection H as <-. now exists wst, mst.
  - exact (IH _ _ H).
Qed.

Lemma years_text_ok y : 1 <= y <= 9999 -> year_text_ok y = true.
Proof.
  apply (forallb_Zseq year_text_ok 1 9999). vm_compute. reflexivity.
Qed.

(** The date of a fragment is a date of the month and the day that the
    fragment names, in the travel year. *)
Lemma parsed_date_year fragment travel_year t :
  1 <= travel_year <= 9999 ->
  parsed_date fragment travel_year = Some t ->
  valid_date t = true /\ year t = travel_year.
Proof.
  intros Hy H. split; [exact (parsed_date_valid _ _ _ H)|].
  unfold parsed_date in H.
  destruct (search_on_date fragment) as [g|] eqn:Eg; [|discriminate].
  destruct (search_on_date_shape _ _ Eg)
    as (w & m & ds & -> & Hw & Hwne & Hm & Hmne & Hd & Hdne).
  rewrite strip_date_text in H by assumption.
  destruct (first_format_some _ _ _ H) as (wst & mst & E).
  pose proof (years_text_ok _ Hy) as Hok. unfold year_text_ok in Hok.
  apply andb_prop in Hok. destruct Hok as [Hsp Hval].
  replace ((w ++ ", " ++ m ++ " " ++ ds) ++ " " ++ str_of_int travel_year)
    with (w ++ ", " ++ m ++ " " ++ ds ++ " " ++ str_of_int travel_year) in E
    by (now rewrite !append_assoc).
  rewrite strptime_date_text in E; try assumption.
  2:{ destruct (str_of_int travel_year); [exact I|]. cbn.
      now apply negb_true_iff in Hsp. }
  destruct (name_index (weekday_names wst) w); [|discriminate].
  destruct (strptime_month mst m) as [mo|]; [|discriminate].
  destruct (parse_day ds) as [d|]; [|discriminate].
  destruct (take_digits 4 0 (str_of_int travel_year)) as [[v rest]|]; [|discriminate].
  destruct rest; [|discriminate].
  apply Z.eqb_eq in Hval. subst v.
  unfold date_new in E. destruct (valid_ymd travel_year mo d); [|discriminate].
  now injection E as <-.
Qed.

(* ----------------------------------------------------------------- *)
(** *** The dates of a label *)

Lemma toordinal_in_year t :
  valid_date t = true ->
  days_before_year (year t) < toordinal t <= days_before_year (year t + 1).
Proof.
  intros Hv. apply valid_date_spec in Hv. destruct Hv as (_ & Hm & Hd).
  pose proof (day_of_year_bounds (year t) (month t) (day t) Hm Hd) as B.
  unfold toordinal, ymd2ord. rewrite days_before_year_succ. lia.
Qed.

Lemma same_year_distance a b :
  valid_date a = true -> valid_date b = true -> year a = year b ->
  toordinal b - toordinal a <= 365.
Proof.
  intros Va Vb E.
  pose proof (toordinal_in_year a Va) as Ba.
  pose proof (toordinal_in_year b Vb) as Bb.
  rewrite <- E in Bb. rewrite days_before_year_succ in Ba, Bb.
  destruct (is_leap (year a)); lia.
Qed.

Lemma advance_arrival_result : forall fuel arr dep r,
  valid_date arr = true -> valid_date dep = true ->
  advance_arrival fuel arr dep = Some r ->
  exists t, r = Ok t /\ t = (if date_ltb arr dep then dep else arr).
Proof.
  induction fuel as [|fuel IH]; intros arr dep r Va Vd H.
  - cbn in H. destruct (date_ltb arr dep); [discriminate|].
    injection H as <-. now exists arr.
  - cbn [advance_arrival] in H. destruct (date_ltb arr dep) eqn:Hlt.
    + pose proof (proj1 (date_ltb_toordinal arr dep Va Vd) Hlt) as Ho.
      pose proof (toordinal_bounds arr Va). pose proof (toordinal_bounds dep Vd).
      rewrite add_days_some in H by lia.
      remember (fromordinal (toordinal arr + 1)) as next eqn:Enext.
      assert (Hn : valid_date next = true /\ toordinal next = toordinal arr + 1)
        by (subst next; apply ord2ymd_correct; lia).
      clear Enext. destruct Hn as [Vn En].
      destruct (IH next dep r Vn Vd H) as (t & -> & Et). exists t. split; [reflexivity|].
      destruct (date_ltb next dep) eqn:Hn; [exact Et|].
      subst t. apply toordinal_inj; auto.
      assert (~ toordinal next < toordinal dep).
      { intros K. apply (date_ltb_toordinal _ _ Vn Vd) in K. congruence. }
      lia.
    + injection H as <-. now exists arr.
Qed.

Lemma parse_date_fragment_in_year fragment travel_year :
  1 <= travel_year <= 9999 ->
  in_year travel_year (_parse_date_fragment fragment travel_year).
Proof.
  intros Hy. unfold _parse_date_fragment, in_year.
  destruct (parsed_date fragment travel_year) as [t|] eqn:E; [right | now left].
  destruct (parsed_date_year _ _ _ Hy E) as [Hv Hyear]. now exists t.
Qed.

Lemma in_year_nonempty y iso :
  in_year y iso -> str_nonempty iso = true ->
  exists t, valid_date t = true /\ year t = y /\ iso = isoformat t.
Proof. intros [-> | H] Hne; [discriminate | exact H]. Qed.

Lemma in_year_empty y : in_year y "".
Proof. now left. Qed.

Lemma parse_dates_from_label_facts fuel label travel_year r :
  1 <= travel_year <= 9999 ->
  _parse_dates_from_label fuel label travel_year = Some r ->
  exists dep_iso arr_iso,
    r = Ok (dep_iso, arr_iso)
    /\ in_year travel_year dep_iso
    /\ in_year travel_year arr_iso
    /\ not_before dep_iso arr_iso.
Proof.
  intros Hy. unfold _parse_dates_from_label.
  destruct (label_fragments label) as [df af].
  pose proof (parse_date_fragment_in_year df travel_year Hy) as Hd.
  pose proof (parse_date_fragment_in_year af travel_year Hy) as Ha.
  destruct (str_nonempty (_parse_date_fragment df travel_year)) eqn:Ed; cbn [andb].
  2:{ intros [= <-]. do 2 eexists. split; [reflexivity|].
      split; [exact Hd|]. split; [exact Ha|].
      left. now destruct (_parse_date_fragment df travel_year). }
  destruct (str_nonempty (_parse_date_fragment af travel_year)) eqn:Ea.
  2:{ intros [= <-]. do 2 eexists. split; [reflexivity|].
      split; [exact Hd|]. split; [exact Ha|].
      right; left. now destruct (_parse_date_fragment af travel_year). }
  destruct (in_year_nonempty _ _ Hd Ed) as (dep & Vd & Yd & Id).
  destruct (in_year_nonempty _ _ Ha Ea) as (arr & Va & Ya & Ia).
  rewrite Id, Ia, !fromisoformat_isoformat by assumption.
  destruct (advance_arrival fuel arr dep) as [r'|] eqn:Hrun; [|discriminate].
  destruct (advance_arrival_result _ _ _ _ Va Vd Hrun) as (t & -> & Et).
  intros [= <-]. do 2 eexists. split; [reflexivity|].
  split; [right; now exists dep|]. split.
  - right. subst t. destruct (date_ltb arr dep); [now exists dep | now exists arr].
  - right; right. exists dep, t. subst t.
    destruct (date_ltb arr dep) eqn:Hlt; repeat split; auto.
    apply date_ltb_irrefl.
Qed.

Lemma parse_dates_from_label_runs fuel label travel_year :
  1 <= travel_year <= 9999 -> (365 <= fuel)%nat ->
  exists r, _parse_dates_from_label fuel label travel_year = Some r.
Proof.
  intros Hy Hf. unfold _parse_dates_from_label.
  destruct (label_fragments label) as [df af].
  pose proof (parse_date_fragment_in_year df travel_year Hy) as Hd.
  pose proof (parse_date_fragment_in_year af travel_year Hy) as Ha.
  destruct (str_nonempty (_parse_date_fragment df travel_year)) eqn:Ed; cbn [andb];
    [|eexists; reflexivity].
  destruct (str_nonempty (_parse_date_fragment af travel_year)) eqn:Ea;
    [|eexists; reflexivity].
  destruct (in_year_nonempty _ _ Hd Ed) as (dep & Vd & Yd & Id).
  destruct (in_year_nonempty _ _ Ha Ea) as (arr & Va & Ya & Ia).
  rewrite Id, Ia, !fromisoformat_isoformat by assumption.
  assert (Hrun : exists t, advance_arrival fuel arr dep = Some (Ok t)).
  { destruct (date_ltb arr dep) eqn:Hlt.
    - pose proof (proj1 (date_ltb_toordinal arr dep Va Vd) Hlt) as Ho.
      pose proof (same_year_distance arr dep Va Vd ltac:(congruence)).
      exists dep.
      apply (advance_arrival_reaches (Z.to_nat (toordinal dep - toordinal arr)));
        auto; lia.
    - exists arr. now apply advance_arrival_not_earlier. }
  destruct Hrun as [t ->]. eexists; reflexivity.
Qed.

(** X9.  For a travel year of the calendar, [_parse_dates_from_label] raises
    nothing and its loop takes at most 365 rounds; the dates it returns are
    dates of the travel year (or empty), and an arrival date returned with a
    departure date is not before it. *)
Theorem parse_dates_from_label_in_travel_year
    (fuel : nat) (label : string) (travel_year : Z) :
  1 <= travel_year <= 9999 -> (365 <= fuel)%nat ->
  exists dep_iso arr_iso,
    _parse_dates_from_label fuel label travel_year = Some (Ok (dep_iso, arr_iso))
    /\ in_year travel_year dep_iso
    /\ in_year travel_year arr_iso
    /\ not_before dep_iso arr_iso.
Proof.
  intros Hy Hf.
  destruct (parse_dates_from_label_runs fuel label travel_year Hy Hf) as [r E].
  destruct (parse_dates_from_label_facts _ _ _ _ Hy E) as (dep & arr & -> & H).
  now exists dep, arr.
Qed.

(** A label whose arrival reads as a day before the departure. *)
Lemma parse_dates_from_label_in_travel_year_witness :
  exists dep_iso arr_iso,
    _parse_dates_from_label 365 rollover_label 2025 = Some (Ok (dep_iso, arr_iso))
    /\ in_year 2025 dep_iso
    /\ in_year 2025 arr_iso
    /\ not_before dep_iso arr_iso.
Proof.
  apply (parse_dates_from_label_in_travel_year 365 rollover_label 2025); lia.
Defined.

Example rollover_label_dates :
  _parse_dates_from_label 365 rollover_label 2025
  = Some (Ok ("2025-12-31", "2025-12-31")).
Proof. vm_compute. reflexivity. Qed.

(* ----------------------------------------------------------------- *)
(** *** The record of a card *)

Section RecordFacts.

Context {U : Unicodedata}.

Lemma label_dates_facts fuel container travel_year r :
  1 <= travel_year <= 9999 ->
  label_dates fuel container travel_year = Some r ->
  exists dep_iso arr_iso,
    r = Ok (dep_iso, arr_iso)
    /\ in_year travel_year dep_iso
    /\ in_year travel_year arr_iso
    /\ not_before dep_iso arr_iso.
Proof.
  intros Hy. unfold label_dates. destruct (str_nonempty _).
  - apply parse_dates_from_label_facts, Hy.
  - intros [= <-]. exists "", "". split; [reflexivity|].
    split; [apply in_year_empty|]. split; [apply in_year_empty | now left].
Qed.

(** An ISO date, or no date. *)
Lemma offset_fallback_facts arrive travel_year dep_iso arr0 r :
  in_year travel_year dep_iso -> in_year travel_year arr0 ->
  not_before dep_iso arr0 ->
  offset_fallback arrive dep_iso arr0 = r ->
  (exists arr_iso,
     r = Ok arr_iso /\ not_before dep_iso arr_iso
     /\ (arr_iso = "" \/ exists t, valid_date t = true /\ arr_iso = isoformat t))
  \/ (r = Raise OverflowError /\ travel_year = 9999).
Proof.
  intros Hd Ha Hnb. unfold offset_fallback.
  assert (Hkeep : exists arr_iso,
             Ok arr0 = Ok arr_iso /\ not_before dep_iso arr_iso
             /\ (arr_iso = "" \/ exists t, valid_date t = true /\ arr_iso = isoformat t)).
  { exists arr0. split; [reflexivity|]. split; [exact Hnb|].
    destruct Ha as [-> | (t & Vt & _ & ->)]; [now left | right; now exists t]. }
  destruct (str_nonempty dep_iso && negb (str_nonempty arr0)) eqn:G.
  2:{ intros <-. now left. }
  destruct (search_offset arrive) as [d|] eqn:Eo.
  2:{ intros <-. now left. }
  apply andb_prop in G. destruct G as [G _].
  destruct (in_year_nonempty _ _ Hd G) as (dep & Vd & Yd & ->).
  rewrite fromisoformat_isoformat by exact Vd.
  pose proof (digit_val_range d (search_offset_digit _ _ Eo)) as Hn.
  destruct (add_days dep (digit_val d)) as [t|] eqn:Et; intros <-.
  - left. destruct (add_days_spec _ _ _ Et) as [Vt Ot].
    exists (isoformat t). split; [reflexivity|]. split; [|right; now exists t].
    right; right. exists dep, t. repeat split; auto.
    destruct (date_ltb t dep) eqn:Hlt; [|reflexivity].
    apply (date_ltb_toordinal t dep Vt Vd) in Hlt. lia.
  - right. split; [reflexivity|].
    pose proof (toordinal_bounds dep Vd) as Bd.
    pose proof (toordinal_in_year dep Vd) as By.
    apply valid_date_spec in Vd. destruct Vd as (Hyr & _).
    destruct (Z.eq_dec (year dep) 9999) as [E|N]; [congruence|].
    exfalso.
    pose proof (days_before_year_mono (year dep + 1) 9999 ltac:(lia)) as Hm.
    change (days_before_year 9999) with 3651694 in Hm.
    rewrite add_days_some in Et by (unfold MAXORDINAL in *; lia). discriminate.
Qed.

Lemma extract_times_facts fuel container travel_year r :
  1 <= travel_year <= 9999 ->
  extract_times fuel container travel_year = Some r ->
  (exists dep_iso arr_iso,
     r = Ok [ ("departure", VStr (departure_text container));
              ("arrival", VStr (arrival_text container));
              ("departure_date", VStr dep_iso);
              ("arrival_date", VStr arr_iso) ]
     /\ in_year travel_year dep_iso
     /\ not_before dep_iso arr_iso
     /\ (arr_iso = "" \/ exists t, valid_date t = true /\ arr_iso = isoformat t))
  \/ (r = Raise OverflowError /\ travel_year = 9999).
Proof.
  intros Hy. unfold extract_times.
  destruct (label_dates fuel container travel_year) as [rl|] eqn:El; [|discriminate].
  destruct (label_dates_facts _ _ _ _ Hy El) as (dep & arr0 & -> & Hd & Ha & Hnb).
  destruct (offset_fallback_facts (arrival_text container) _ _ _ _ Hd Ha Hnb eq_refl)
    as [(arr & E & Hnb' & Harr) | [E Hyear]]; rewrite E; intros [= <-].
  - left. now exists dep, arr.
  - now right.
Qed.

Lemma digits_value_nonneg : forall s acc after_digit v,
  0 <= acc -> digits_value acc after_digit s = Some v -> 0 <= v.
Proof.
  induction s as [|c s IH]; intros acc b v Hacc H.
  - cbn in H. destruct b; [|discriminate]. injection H as <-. exact Hacc.
  - cbn [digits_value] in H. destruct (is_digit c) eqn:Ec.
    + pose proof (digit_val_range c Ec).
      apply (IH (10 * acc + digit_val c) true v); [lia | exact H].
    + destruct ((c =? "_")%char && b); [|discriminate]. exact (IH _ _ _ Hacc H).
Qed.

Lemma search_digits_run : forall s ds,
  search_digits s = Some ds -> str_all is_digit ds = true /\ str_nonempty ds = true.
Proof.
  induction s as [|c r IH]; intros ds H; [discriminate|].
  cbn [search_digits] in H. destruct (is_digit c) eqn:Ec; [|exact (IH _ H)].
  injection H as <-. cbn [span]. rewrite Ec.
  destruct (span is_digit r) as [a b] eqn:Es. cbn [fst str_all str_nonempty].
  now rewrite Ec, (span_fst_all _ _ _ _ Es).
Qed.

Lemma digit_not_int_space c : is_digit c = true -> is_int_space c = false.
Proof.
  intros H.
  pose proof (forall_ascii (fun c => implb (is_digit c) (negb (is_int_space c)))
                ltac:(vm_compute; reflexivity) c) as K.
  cbv beta in K. rewrite H in K. cbn in K. now destruct (is_int_space c).
Qed.

Lemma digits_value_digits : forall s acc after_digit,
  str_all is_digit s = true -> after_digit = true \/ str_nonempty s = true ->
  exists v, digits_value acc after_digit s = Some v.
Proof.
  induction s as [|c s IH]; intros acc b Hs Hb.
  - destruct Hb as [-> | Hb]; [|discriminate]. now exists acc.
  - cbn [str_all] in Hs. apply andb_prop in Hs. destruct Hs as [Hc Hs].
    cbn [digits_value]. rewrite Hc. apply IH; [exact Hs | now left].
Qed.

(** [int] reads a run of digits. *)
Lemma int_of_str_digits ds :
  str_all is_digit ds = true -> str_nonempty ds = true ->
  exists n, int_of_str ds = Some n /\ 0 <= n.
Proof.
  intros Hd Hne. destruct ds as [|c r]; [discriminate|].
  assert (Hc : is_digit c = true) by (cbn in Hd; now apply andb_prop in Hd).
  unfold int_of_str.
  rewrite (lstrip_keep _ _ _ (digit_not_int_space _ Hc)).
  rewrite rstrip_none.
  2:{ revert Hd. apply str_all_impl. intros x Hx. now rewrite (digit_not_int_space _ Hx). }
  destruct (digits_value_digits (String c r) 0 false Hd (or_intror eq_refl)) as [v Hv].
  exists v. split; [|exact (digits_value_nonneg _ _ _ _ (Z.le_refl 0) Hv)].
  clear Hd Hne.
  destruct c as [b0 b1 b2 b3 b4 b5 b6 b7].
  destruct b0, b1, b2, b3, b4, b5, b6, b7; try (cbv in Hc; discriminate Hc); exact Hv.
Qed.

Lemma count_digits_all : forall s, str_all is_digit s = true -> count_digits s = String.length s.
Proof.
  induction s as [|c s IH]; [reflexivity|].
  cbn. intros H. apply andb_prop in H. destruct H as [Hc Hs]. now rewrite Hc, (IH Hs).
Qed.

Lemma extract_stops_facts container :
  (exists stops_text stops_count,
     extract_stops container
     = Ok [("stops_text", VStr stops_text); ("stops_count", stops_count)]
     /\ (stops_text = "" -> stops_count = VNone)
     /\ (stops_count = VNone \/ exists n, 0 <= n /\ stops_count = VInt n))
  \/ (extract_stops container = Raise ValueError /\ long_digit_run container).
Proof.
  unfold extract_stops, long_digit_run.
  destruct (stops_label container) as [text|].
  2:{ left. exists "", VNone. split; [reflexivity|]. split; [reflexivity | now left]. }
  destruct (contains "nonstop" (lower (normalise text))) eqn:En.
  { left. do 2 eexists. split; [reflexivity|]. split.
    - intros E. rewrite E in En. discriminate.
    - right. exists 0. split; [lia | reflexivity]. }
  destruct (search_digits (normalise text)) as [ds|] eqn:Es.
  2:{ left. do 2 eexists. split; [reflexivity|]. split; [reflexivity | now left]. }
  destruct (search_digits_run _ _ Es) as [Hd Hne].
  unfold int_of_text. rewrite (count_digits_all _ Hd).
  destruct (MAX_STR_DIGITS <? String.length ds)%nat eqn:El.
  - right. split; [reflexivity|]. exists text, ds.
    split; [reflexivity|]. split; [exact En|]. split; [exact Es|].
    now apply Nat.ltb_lt.
  - destruct (int_of_str_digits ds Hd Hne) as (n & -> & Hn).
    left. do 2 eexists. split; [reflexivity|]. split.
    + intros E. rewrite E in Es. discriminate.
    + right. now exists n.
Qed.

(** The record that [gather_cards] builds from a card. *)
Lemma extract_row_facts fuel c travel_year r :
  1 <= travel_year <= 9999 ->
  extract_row fuel c travel_year = Some r ->
  (exists airlines price departure dep_iso arrival arr_iso duration stops_text stops_count,
     r = Ok [ ("airlines", VStr airlines); ("price", VStr price);
              ("departure", VStr departure); ("departure_date", VStr dep_iso);
              ("arrival", VStr arrival); ("arrival_date", VStr arr_iso);
              ("duration", VStr duration); ("stops_text", VStr stops_text);
              ("stops_count", stops_count) ]
     /\ in_year travel_year dep_iso
     /\ not_before dep_iso arr_iso
     /\ (arr_iso = "" \/ exists t, valid_date t = true /\ arr_iso = isoformat t)
     /\ (stops_text = "" -> stops_count = VNone)
     /\ (stops_count = VNone \/ exists n, 0 <= n /\ stops_count = VInt n))
  \/ r = Raise StaleElementReferenceException
  \/ (r = Raise OverflowError /\ travel_year = 9999)
  \/ (r = Raise ValueError
      /\ exists container, content c = Got container /\ long_digit_run container).
Proof.
  intros Hy. unfold extract_row.
  destruct (content c) as [|container] eqn:Ec; [intros [= <-]; right; now left|].
  destruct (extract_times fuel container travel_year) as [rt|] eqn:Et; [|discriminate].
  destruct (extract_times_facts _ _ _ _ Hy Et)
    as [(dep & arr & -> & Hd & Hnb & Harr) | [-> Hyear]].
  - destruct (extract_stops_facts container) as [(st & sc & Es & H1 & H2) | [Es Hlong]];
      rewrite Es; intros [= <-].
    + left. cbn.
      exists (extract_airlines container), (extract_price container),
        (departure_text container), dep, (arrival_text container), arr,
        (extract_duration container), st, sc.
      repeat split; auto.
    + right; right; right. split; [reflexivity|]. now exists container.
  - intros [= <-]. right; right; left. now split.
Qed.

(** The fields of a record, whatever the travel year. *)
Lemma extract_row_shape fuel c travel_year row :
  extract_row fuel c travel_year = Some (Ok row) ->
  exists airlines price departure dep_iso arrival arr_iso duration stops_text stops_count,
    row = [ ("airlines", VStr airlines); ("price", VStr price);
            ("departure", VStr departure); ("departure_date", VStr dep_iso);
            ("arrival", VStr arrival); ("arrival_date", VStr arr_iso);
            ("duration", VStr duration); ("stops_text", VStr stops_text);
            ("stops_count", stops_count) ]
    /\ (stops_text = "" -> stops_count = VNone)
    /\ (stops_count = VNone \/ exists n, 0 <= n /\ stops_count = VInt n).
Proof.
  unfold extract_row. destruct (content c) as [|container]; [discriminate|].
  destruct (extract_times fuel container travel_year) as [[times|e]|] eqn:Et;
    try discriminate.
  unfold extract_times in Et.
  destruct (label_dates fuel container travel_year) as [[[dep arr0]|e]|];
    try discriminate.
  destruct (offset_fallback _ dep arr0) as [arr|e]; [|discriminate].
  injection Et as <-.
  destruct (extract_stops_facts container) as [(st & sc & Es & H1 & H2) | [Es _]];
    rewrite Es; [|discriminate].
  intros [= <-]. cbn.
  exists (extract_airlines container), (extract_price container),
    (departure_text container), dep, (arrival_text container), arr,
    (extract_duration container), st, sc.
  repeat split; auto.
Qed.

End RecordFacts.

(* ----------------------------------------------------------------- *)
(** *** The records of a harvest *)

Section HarvestRecords.

Context {U : Unicodedata}.

Variables (fuel : nat) (max_results travel_year : Z).

(** Every record of a harvest is the record of a card. *)
Lemma gather_cards_rows_extracted (d : driver) (rows : list dict) :
  gather_cards fuel d max_results travel_year = Some (Ok rows) ->
  forall row, In row rows ->
  exists c, extract_row fuel c travel_year = Some (Ok row).
Proof.
  unfold gather_cards. destruct (cards_present d).
  - intros H row Hin.
    assert (H0 : harvested fuel travel_year (visited (pass d) 0) [] []).
    { exists []. repeat split; try constructor; intros; contradiction. }
    destruct (harvest_harvested fuel max_results travel_year (pass d) _ _ _ _ _ H0 H)
      as (last & _ & _ & _ & recorded & R1 & _ & R3 & _).
    subst rows. apply in_map_iff in Hin. destruct Hin as (x & <- & Hx).
    destruct (R3 x Hx) as (c & _ & _ & Hc). now exists c.
  - intros [= <-] row [].
Qed.

(* --- the cap --- *)
Lemma scan_cards_cap : forall cards seen_ids results out,
  max_results <> 0 ->
  Z.of_nat (List.length results) < Z.max 1 max_results ->
  scan_cards fuel cards max_results travel_year seen_ids results = Some (Ok out) ->
  match out with
  | Scanned _ results' => Z.of_nat (List.length results') < Z.max 1 max_results
  | Returned results' => Z.of_nat (List.length results') <= Z.max 1 max_results
  end.
Proof.
  induction cards as [|c rest IH]; intros seen_ids results out Hmax Hlen Hscan.
  - cbn in Hscan. injection Hscan as <-. exact Hlen.
  - cbn [scan_cards] in Hscan.
    destruct (data_id c) as [|i]; [discriminate|].
    destruct (id_in i seen_ids); [exact (IH _ _ _ Hmax Hlen Hscan)|].
    destruct (extract_row fuel c travel_year) as [[row|e]|]; [| |discriminate].
    + destruct (negb (max_results =? 0)
                && (max_results <=? Z.of_nat (List.length (results ++ [row])))) eqn:Hcap.
      * injection Hscan as <-. rewrite length_app. cbn [List.length]. lia.
      * apply (IH _ _ _ Hmax) in Hscan; [exact Hscan|].
        apply andb_false_iff in Hcap. destruct Hcap as [Hcap | Hcap].
        -- apply negb_false_iff, Z.eqb_eq in Hcap. contradiction.
        -- apply Z.leb_gt in Hcap. lia.
    + destruct e; try discriminate. exact (IH _ _ _ Hmax Hlen Hscan).
Qed.

Lemma harvest_cap page : forall passes i seen_ids results rows,
  max_results <> 0 ->
  Z.of_nat (List.length results) < Z.max 1 max_results ->
  harvest passes fuel page i max_results travel_year seen_ids results = Some (Ok rows) ->
  Z.of_nat (List.length rows) <= Z.max 1 max_results.
Proof.
  induction passes as [|passes IH]; intros i seen_ids results rows Hmax Hlen Hrun;
    [discriminate|].
  cbn [harvest] in Hrun.
  destruct (scan_cards fuel (found_cards (page i)) max_results travel_year seen_ids results)
    as [[out|e]|] eqn:Hscan; try discriminate.
  pose proof (scan_cards_cap _ _ _ _ Hmax Hlen Hscan) as Hout.
  destruct out as [seen_ids' results'|results'].
  - destruct (clicked_more (more_controls (page i))) as [[|]|e];
      [exact (IH _ _ _ _ Hmax Hout Hrun) | | discriminate].
    destruct (recount (page i) <=? List.length (found_cards (page i)))%nat;
      [|exact (IH _ _ _ _ Hmax Hout Hrun)].
    injection Hrun as <-. lia.
  - injection Hrun as <-. exact Hout.
Qed.

(** X10.  A harvest with a cap returns at most [max_results] records; a
    negative cap counts as a cap of one record. *)
Theorem gather_cards_respects_cap (d : driver) (rows : list dict) :
  max_results <> 0 ->
  gather_cards fuel d max_results travel_year = Some (Ok rows) ->
  Z.of_nat (List.length rows) <= Z.max 1 max_results.
Proof.
  intros Hmax. unfold gather_cards. destruct (cards_present d).
  - apply harvest_cap; [exact Hmax | cbn; lia].
  - intros [= <-]. cbn. lia.
Qed.

(* --- what a harvest raises --- *)
Lemma scan_cards_raises : forall cards seen_ids results e,
  1 <= travel_year <= 9998 ->
  scan_cards fuel cards max_results travel_year seen_ids results = Some (Raise e) ->
  (e = StaleElementReferenceException
   /\ exists c, In c cards /\ data_id c = Stale)
  \/ (e = ValueError
      /\ exists c container,
           In c cards /\ content c = Got container /\ long_digit_run container).
Proof.
  induction cards as [|c rest IH]; intros seen_ids results e Hy Hscan.
  - cbn in Hscan. discriminate.
  - assert (Hrest : forall seen_ids results,
               scan_cards fuel rest max_results travel_year seen_ids results
               = Some (Raise e) ->
               (e = StaleElementReferenceException
                /\ exists c', In c' (c :: rest) /\ data_id c' = Stale)
               \/ (e = ValueError
                   /\ exists c' container,
                        In c' (c :: rest) /\ content c' = Got container
                        /\ long_digit_run container)).
    { intros s r K.
      destruct (IH _ _ _ Hy K) as [(He & c' & Hin & Hc') | (He & c' & k & Hin & Hc')].
      - left. split; [exact He|]. exists c'. split; [now right | exact Hc'].
      - right. split; [exact He|]. exists c', k. split; [now right | exact Hc']. }
    cbn [scan_cards] in Hscan.
    destruct (data_id c) as [|i] eqn:Hid.
    { injection Hscan as <-. left. split; [reflexivity|].
      exists c. split; [now left | exact Hid]. }
    destruct (id_in i seen_ids); [exact (Hrest _ _ Hscan)|].
    destruct (extract_row fuel c travel_year) as [r|] eqn:Hrow; [|discriminate].
    assert (Hy' : 1 <= travel_year <= 9999) by lia.
    destruct (extract_row_facts _ _ _ _ Hy' Hrow)
      as [(a1 & a2 & a3 & a4 & a5 & a6 & a7 & a8 & a9 & -> & _)
         | [-> | [[_ Hyear] | (-> & container & Hc & Hlong)]]];
      [| exact (Hrest _ _ Hscan) | lia |].
    + destruct (negb (max_results =? 0) && _); [discriminate | exact (Hrest _ _ Hscan)].
    + injection Hscan as <-. right. split; [reflexivity|].
      exists c, container. split; [now left|]. now split.
Qed.

Lemma click_first_raises : forall elements e,
  click_first elements = Raise e ->
  e = StaleElementReferenceException
  /\ exists element, In element elements /\ is_displayed element = Stale.
Proof.
  induction elements as [|x l IH]; intros e H; [discriminate|].
  cbn [click_first] in H.
  assert (Hrest : click_first l = Raise e ->
                  e = StaleElementReferenceException
                  /\ exists element, In element (x :: l) /\ is_displayed element = Stale).
  { intros K. destruct (IH _ K) as (He & y & Hin & Hy).
    split; [exact He|]. exists y. split; [now right | exact Hy]. }
  destruct (is_displayed x) as [|[|]] eqn:Hx.
  - injection H as <-. split; [reflexivity|]. exists x. split; [now left | exact Hx].
  - destruct (click_runs x); [discriminate | exact (Hrest H)].
  - exact (Hrest H).
Qed.

Lemma clicked_more_raises : forall controls e,
  clicked_more controls = Raise e ->
  e = StaleElementReferenceException
  /\ exists elements element,
       In elements controls /\ In element elements /\ is_displayed element = Stale.
Proof.
  induction controls as [|l ls IH]; intros e H; [discriminate|].
  cbn [clicked_more] in H. destruct (click_first l) as [[|]|e'] eqn:El.
  - discriminate.
  - destruct (IH _ H) as (He & l' & x & Hl & Hx).
    split; [exact He|]. exists l', x. split; [now right | exact Hx].
  - injection H as <-. destruct (click_first_raises _ _ El) as (He & x & Hin & Hx).
    split; [exact He|]. exists l, x. split; [now left|]. now split.
Qed.

Lemma harvest_raises page : forall passes i seen_ids results e,
  1 <= travel_year <= 9998 ->
  harvest passes fuel page i max_results travel_year seen_ids results = Some (Raise e) ->
  (e = StaleElementReferenceException
   /\ ((exists p c, In c (found_cards (page p)) /\ data_id c = Stale)
       \/ (exists p elements element,
              In elements (more_controls (page p)) /\ In element elements
              /\ is_displayed element = Stale)))
  \/ (e = ValueError
      /\ exists p c container,
           In c (found_cards (page p)) /\ content c = Got container
           /\ long_digit_run container).
Proof.
  induction passes as [|passes IH]; intros i seen_ids results e Hy Hrun; [discriminate|].
  cbn [harvest] in Hrun.
  destruct (scan_cards fuel (found_cards (page i)) max_results travel_year seen_ids results)
    as [[out|e']|] eqn:Hscan; try discriminate.
  - destruct out as [seen_ids' results'|results']; [|discriminate].
    destruct (clicked_more (more_controls (page i))) as [[|]|e'] eqn:Hc.
    + exact (IH _ _ _ _ Hy Hrun).
    + destruct (recount (page i) <=? List.length (found_cards (page i)))%nat;
        [discriminate | exact (IH _ _ _ _ Hy Hrun)].
    + injection Hrun as <-.
      destruct (clicked_more_raises _ _ Hc) as (He & l & x & Hl & Hx).
      left. split; [exact He|]. right. now exists i, l, x.
  - injection Hrun as <-.
    destruct (scan_cards_raises _ _ _ _ Hy Hscan)
      as [(He & c & Hin & Hc) | (He & c & k & Hin & Hc)].
    + left. split; [exact He|]. left. now exists i, c.
    + right. split; [exact He|]. now exists i, c, k.
Qed.

(** X11.  For a travel year from 1 to 9998, an exception that leaves
    [gather_cards] is the [StaleElementReferenceException] of a read that is
    outside the [try] of lines 371-378 (the identifier of a card, line 368, or
    [is_displayed] on a "show more" element, line 405), or the [ValueError]
    of the [int] of line 336 on a stops text with a run of more than 4300
    digits, which that [try] does not catch.  What the extractors raise on a
    stale card is caught, and the parsing of the dates and the arithmetic on
    them raise nothing.  The browser is one that answers: the one failure of
    a WebDriver call is the stale element. *)
Theorem gather_cards_raises_only_stale (d : driver) (e : exn) :
  1 <= travel_year <= 9998 ->
  gather_cards fuel d max_results travel_year = Some (Raise e) ->
  (e = StaleElementReferenceException
   /\ ((exists p c, In c (found_cards (pass d p)) /\ data_id c = Stale)
       \/ (exists p elements element,
              In elements (more_controls (pass d p)) /\ In element elements
              /\ is_displayed element = Stale)))
  \/ (e = ValueError
      /\ exists p c container,
           In c (found_cards (pass d p)) /\ content c = Got container
           /\ long_digit_run container).
Proof.
  intros Hy. unfold gather_cards. destruct (cards_present d); [|discriminate].
  apply harvest_raises, Hy.
Qed.

(* --- the dates of a record --- *)
(** X12.  In every record of a harvest for a travel year of the calendar,
    the departure date is empty or an ISO date of the travel year, the arrival
    date is empty or an ISO date, and an arrival date that comes with a
    departure date is not before it. *)
Theorem gather_cards_record_dates (d : driver) (rows : list dict) :
  1 <= travel_year <= 9999 ->
  gather_cards fuel d max_results travel_year = Some (Ok rows) ->
  forall row, In row rows ->
  exists dep_iso arr_iso,
    get row "departure_date" = VStr dep_iso
    /\ get row "arrival_date" = VStr arr_iso
    /\ in_year travel_year dep_iso
    /\ (arr_iso = "" \/ exists t, valid_date t = true /\ arr_iso = isoformat t)
    /\ not_before dep_iso arr_iso.
Proof.
  intros Hy H row Hin.
  destruct (gather_cards_rows_extracted d rows H row Hin) as (c & Hc).
  destruct (extract_row_facts _ _ _ _ Hy Hc)
    as [(a1 & a2 & a3 & dep & a5 & arr & a7 & a8 & a9 & E & Hd & Hnb & Ha & _)
       | [E | [[E _] | [E _]]]]; try discriminate.
  injection E as ->. exists dep, arr. repeat split; auto.
Qed.

(* --- the table of a harvest --- *)
Lemma record_cells_are_strings c row target_date :
  extract_row fuel c travel_year = Some (Ok row) ->
  forallb is_str (cells (normalise_output_row row target_date)) = true.
Proof.
  intros Hc.
  destruct (extract_row_shape _ _ _ _ Hc)
    as (a1 & a2 & a3 & dep & a5 & arr & a7 & st & sc & -> & _).
  unfold normalise_output_row. generalize (isoformat target_date) as iso. intros iso.
  cbn. unfold or_else, truthy.
  repeat match goal with
         | |- context [if ?b then _ else _] => destruct b
         end; reflexivity.
Qed.

(** X13.  The table of a harvest always prints: on the rows that
    [normalise_output_rows] makes of the records of a harvest,
    [format_output] raises nothing.  It prints the line that says that
    nothing was captured when the harvest is empty, and otherwise the table
    of these rows: the headings, the rule and a line for each record, in the
    order of the records, all of one length. *)
Theorem harvest_table_prints (d : driver) (raw_rows : list dict) (target_date : date) :
  gather_cards fuel d max_results travel_year = Some (Ok raw_rows) ->
  let final := normalise_output_rows raw_rows target_date in
  (raw_rows = [] -> format_output final = Some ["No flight results captured."])
  /\ (raw_rows <> [] ->
      format_output final = Some (table final)
      /\ List.length (table final) = (2 + List.length raw_rows)%nat
      /\ Forall (fun line =>
                   String.length line
                   = (sum (map (column_width final) headers) + 12)%nat)
           (table final)).
Proof.
  intros H final. split; [intros E; subst final; rewrite E; reflexivity|]. intros Hne.
  assert (Hfinal : final <> []).
  { subst final. unfold normalise_output_rows. destruct raw_rows; [congruence | discriminate]. }
  assert (Hstr : forall row, In row final -> forallb is_str (cells row) = true).
  { intros row Hin. subst final. unfold normalise_output_rows in Hin.
    apply in_map_iff in Hin. destruct Hin as (raw & <- & Hraw).
    destruct (gather_cards_rows_extracted d raw_rows H raw Hraw) as (c & Hc).
    exact (record_cells_are_strings c raw target_date Hc). }
  split; [exact (format_output_lines final Hfinal Hstr)|].
  split; [|exact (table_lengths final Hfinal Hstr)].
  unfold table. cbn [List.length]. rewrite length_map. subst final.
  unfold normalise_output_rows. now rewrite length_map.
Qed.

(* --- the stops of a record --- *)
(** X14.  For a record of a harvest, the Transit column is the stops text
    of the record, and [Unknown] when that text is empty: the [Nonstop] of
    line 299 is not written for such a record, whose stops count is zero only
    with a stops text that says so. *)
Theorem harvest_transit_column (d : driver) (raw_rows : list dict) (target_date : date) :
  gather_cards fuel d max_results travel_year = Some (Ok raw_rows) ->
  forall row, In row raw_rows ->
  exists stops_text,
    get row "stops_text" = VStr stops_text
    /\ get (normalise_output_row row target_date) "Transit"
       = VStr (if str_nonempty stops_text then stops_text else "Unknown").
Proof.
  intros H row Hin.
  destruct (gather_cards_rows_extracted d raw_rows H row Hin) as (c & Hc).
  destruct (extract_row_shape _ _ _ _ Hc)
    as (a1 & a2 & a3 & dep & a5 & arr & a7 & st & sc & -> & Hst & _).
  exists st. split; [reflexivity|].
  cbn. unfold or_else, truthy.
  destruct (str_nonempty st) eqn:Est; [now rewrite Est|].
  destruct st; [|discriminate]. rewrite (Hst eq_refl). reflexivity.
Qed.

(* --- the fields of a record --- *)
(** X15.  Every record of a harvest has the nine fields of lines 381-391,
    in that order; eight of them are texts, and the stops count is [None] or
    a natural number (the annotation of [gather_cards] says a text), [None]
    when there is no stops text. *)
Theorem gather_cards_record_fields (d : driver) (rows : list dict) :
  gather_cards fuel d max_results travel_year = Some (Ok rows) ->
  forall row, In row rows ->
  exists airlines price departure dep_iso arrival arr_iso duration stops_text stops_count,
    row = [ ("airlines", VStr airlines); ("price", VStr price);
            ("departure", VStr departure); ("departure_date", VStr dep_iso);
            ("arrival", VStr arrival); ("arrival_date", VStr arr_iso);
            ("duration", VStr duration); ("stops_text", VStr stops_text);
            ("stops_count", stops_count) ]
    /\ (stops_text = "" -> stops_count = VNone)
    /\ (stops_count = VNone \/ exists n, 0 <= n /\ stops_count = VInt n).
Proof.
  intros H row Hin.
  destruct (gather_cards_rows_extracted d rows H row Hin) as (c & Hc).
  exact (extract_row_shape _ _ _ _ Hc).
Qed.

End HarvestRecords.

(* ----------------------------------------------------------------- *)
(** *** The text of the [tfs] parameter *)

(** X16.  The text that line 117 writes for a blob (base64 without its
    padding) is made of URL-safe base64 characters only, and lines 105-107
    (the padding put back, the decoding) read the blob back from it, whatever
    the bytes of the blob. *)
Theorem tfs_text_round_trip (blob : list byte) :
  base64url_text (encode_tfs blob) = true
  /\ decode_tfs (encode_tfs blob) = Some blob.
Proof.
  split; [apply encode_tfs_spec | apply decode_encode_tfs].
Qed.

Section DateCodecTwice.

Context {L : Urllib} {F : Strftime}.

Lemma replace_date_again decoded start first_date target_date :
  search_date decoded = Some start ->
  valid_date first_date = true ->
  1000 <= year first_date ->
  replace_date (replace_date decoded start first_date) start target_date
  = replace_date decoded start target_date.
Proof.
  intros Hs V HY.
  destruct (replace_date_spec decoded start first_date Hs V HY)
    as (_ & _ & U3 & U4 & _).
  cbv zeta in U3, U4. unfold replace_date at 1. rewrite U3, U4. reflexivity.
Qed.

(** X17.  Writing a date in a URL that [build_url_for_date] wrote writes the
    same [tfs] value as writing it in the base URL: the second date takes the
    place of the first, which leaves no trace in the parameter.  The first
    date is a date from the year 1000 on, and [urllib.parse] reads back the
    URL written for it ([reads_back]). *)
Theorem build_url_for_date_twice
    (base_url : string) (first_date target_date : date)
    (tfs_value : string) (decoded : list byte) (start : nat) :
  valid_date first_date = true ->
  1000 <= year first_date ->
  tfs_value_of base_url = Ok (Some tfs_value) ->
  decode_tfs tfs_value = Some decoded ->
  search_date decoded = Some start ->
  reads_back base_url (encode_tfs (replace_date decoded start first_date)) ->
  let new_tfs := encode_tfs (replace_date decoded start target_date) in
  exists parsed first_url first_parsed,
    urlparse base_url = Some parsed
    /\ build_url_for_date base_url first_date = Ok first_url
    /\ urlparse first_url = Some first_parsed
    /\ build_url_for_date first_url target_date = Ok (set_tfs first_parsed new_tfs)
    /\ build_url_for_date base_url target_date = Ok (set_tfs parsed new_tfs).
Proof.
  intros V HY Ht Hd Hs Hrb new_tfs.
  destruct (tfs_value_of_parsed _ _ Ht) as (parsed & Hp & Hq).
  destruct (build_url_for_date_read _ first_date _ _ _ Ht Hd Hs Hrb) as (url1 & Hb1 & Hr1).
  destruct (tfs_value_of_parsed _ _ Hr1) as (parsed1 & Hp1 & Hq1).
  destruct (replace_date_spec decoded start first_date Hs V HY) as (U1 & _).
  cbv zeta in U1.
  exists parsed, url1, parsed1.
  split; [exact Hp|]. split; [exact Hb1|]. split; [exact Hp1|]. split.
  - rewrite (build_url_for_date_rewritten _ target_date _ _ _ _ Hp1 Hq1
               (decode_encode_tfs _) U1).
    now rewrite (replace_date_again _ _ _ _ Hs V HY).
  - exact (build_url_for_date_rewritten _ target_date _ _ _ _ Hp Hq Hd Hs).
Qed.

End DateCodecTwice.

(** The default URL, written for 15 January 2026 and then for 2 March 2027. *)
Lemma build_url_for_date_twice_witness :
  exists parsed first_url first_parsed,
    urlparse (Urllib := urllib_ascii) DEFAULT_URL = Some parsed
    /\ build_url_for_date (L := urllib_ascii) (F := strftime_glibc)
         DEFAULT_URL (mkdate 2026 1 15) = Ok first_url
    /\ urlparse (Urllib := urllib_ascii) first_url = Some first_parsed
    /\ build_url_for_date (L := urllib_ascii) (F := strftime_glibc)
         first_url (mkdate 2027 3 2)
       = Ok (set_tfs (L := urllib_ascii) first_parsed
               (encode_tfs
                  (replace_date (F := strftime_glibc) sample_blob 8 (mkdate 2027 3 2))))
    /\ build_url_for_date (L := urllib_ascii) (F := strftime_glibc)
         DEFAULT_URL (mkdate 2027 3 2)
       = Ok (set_tfs (L := urllib_ascii) parsed
               (encode_tfs
                  (replace_date (F := strftime_glibc) sample_blob 8 (mkdate 2027 3 2)))).
Proof.
  apply (build_url_for_date_twice (L := urllib_ascii) (F := strftime_glibc)
           DEFAULT_URL (mkdate 2026 1 15) (mkdate 2027 3 2) sample_tfs sample_blob 8).
  - reflexivity.
  - simpl. lia.
  - vm_compute. reflexivity.
  - vm_compute. reflexivity.
  - vm_compute. reflexivity.
  - vm_compute. reflexivity.
Defined.

Example default_url_rewritten_twice :
  build_url_for_date (L := urllib_ascii) (F := strftime_glibc)
    "https://www.google.com/travel/flights/search?tfs=CBwQAhooEgoyMDI2LTAxLTE1agwIAhIIL20vMDQ0cnZyDAgCEggvbS8wN2Rma0ABSAFwAYIBCwj___________8BmAED&tfu=EgYIABABGAA&tcfs=ChMKCC9tLzA0NHJ2GgdKYWthcnRhUgRgAXgB"
    (mkdate 2027 3 2)
  = build_url_for_date (L := urllib_ascii) (F := strftime_glibc)
      DEFAULT_URL (mkdate 2027 3 2).
Proof. vm_compute. reflexivity. Qed.

(* ----------------------------------------------------------------- *)
(** *** The grammar of a date label *)

Lemma contains_tail sub c s : contains sub (String c s) = false -> contains sub s = false.
Proof.
  unfold contains. cbn [find_sub].
  destruct (strip_prefix sub (String c s)); [discriminate|].
  now destruct (find_sub sub s) as [[a b]|].
Qed.

Lemma find_comma_space dow md :
  contains ", " dow = false ->
  find_sub ", " (dow ++ ", " ++ md) = Some (dow, md).
Proof.
  induction dow as [|c w IH]; intros H.
  - reflexivity.
  - pose proof (IH (contains_tail _ _ _ H)) as E.
    change (String c w ++ ", " ++ md) with (String c (w ++ ", " ++ md)).
    cbn [find_sub]. rewrite E.
    assert (Hp : strip_prefix ", " (String c (w ++ ", " ++ md)) = None).
    { unfold contains in H. cbn [find_sub] in H.
      destruct (strip_prefix ", " (String c w)) eqn:Ep; [discriminate|].
      cbn [strip_prefix] in *. destruct ("," =? c)%char; [|reflexivity].
      destruct w as [|c2 w']; [reflexivity|].
      cbn [append strip_prefix] in *. now destruct (" " =? c2)%char. }
    now rewrite Hp.
Qed.

Lemma split_comma_space dow md :
  contains ", " dow = false -> contains ", " md = false ->
  split ", " (dow ++ ", " ++ md) = [dow; md].
Proof.
  intros Hd Hm. unfold split.
  assert (Hlen : exists n, String.length (dow ++ ", " ++ md) = S n).
  { rewrite length_append. cbn. exists (String.length dow + S (String.length md))%nat. lia. }
  destruct Hlen as [n ->]. cbn [split_fuel]. rewrite (find_comma_space _ _ Hd).
  f_equal. unfold contains in Hm.
  destruct n; cbn [split_fuel]; [reflexivity|].
  now destruct (find_sub ", " md).
Qed.

Lemma label_month_day_any_weekday dow md :
  contains ", " dow = false -> contains ", " md = false ->
  label_month_day (dow ++ ", " ++ md) = label_month_day ("Mon, " ++ md).
Proof.
  intros Hd Hm. unfold label_month_day.
  rewrite (split_comma_space _ _ Hd Hm).
  change ("Mon, " ++ md) with ("Mon" ++ ", " ++ md).
  now rewrite (split_comma_space "Mon" md eq_refl Hm).
Qed.

Lemma month_day_text_reads_back st m d :
  1 <= m <= 12 -> 1 <= d <= 31 -> month_day_reads_back st m d = true.
Proof.
  intros Hm Hd.
  assert (H : month_days_read_back = true) by (vm_compute; reflexivity).
  unfold month_days_read_back in H. rewrite forallb_forall in H.
  assert (Hst : In st [Full; Abbrev]) by (destruct st; cbn; auto).
  pose proof (H st Hst) as H1. cbv beta in H1.
  pose proof (forallb_Zseq _ _ _ H1 m Hm) as H2. cbv beta in H2.
  exact (forallb_Zseq _ _ _ H2 d Hd).
Qed.

(** X18.  [label_to_date] reads the month and the day of a label and builds
    the date in the year it is given; it does not look at the weekday, which
    may be any text without a comma followed by a space, and the month may be
    spelt in full.  A day that the month does not have is a [ValueError]. *)
Theorem label_to_date_ignores_weekday
    (dow : string) (st : name_style) (m d y : Z) :
  contains ", " dow = false ->
  1 <= m <= 12 -> 1 <= d <= 31 ->
  label_to_date (dow ++ ", " ++ month_day_text st m d) y = date_new y m d.
Proof.
  intros Hdow Hm Hd.
  pose proof (month_day_text_reads_back st m d Hm Hd) as H.
  unfold month_day_reads_back in H. apply andb_prop in H. destruct H as [Hc Hr].
  apply negb_true_iff in Hc.
  unfold label_to_date. rewrite (label_month_day_any_weekday _ _ Hdow Hc).
  destruct (label_month_day ("Mon, " ++ month_day_text st m d)) as [[m' d']|];
    [|discriminate].
  apply andb_prop in Hr. destruct Hr as [E1 E2]. apply Z.eqb_eq in E1, E2. now subst.
Qed.

(** 8 October 2025 is a Wednesday; the label says Friday, and October in
    full. *)
Lemma label_to_date_ignores_weekday_witness :
  label_to_date "Fri, October 8" 2025 = Some (mkdate 2025 10 8).
Proof.
  apply (label_to_date_ignores_weekday "Fri" Full 10 8 2025); [reflexivity | lia | lia].
Defined.

(* ----------------------------------------------------------------- *)
(** *** The names of the airlines *)

Section AirlineFacts.

Context {U : Unicodedata}.

Lemma str_in_spec s l : str_in s l = true <-> In s l.
Proof.
  unfold str_in. rewrite existsb_exists. split.
  - intros (x & Hx & E). apply String.eqb_eq in E. now subst.
  - intros H. exists s. split; [exact H | apply String.eqb_refl].
Qed.

Lemma str_in_app s l m : str_in s (l ++ m) = str_in s l || str_in s m.
Proof. unfold str_in. apply existsb_app. Qed.

(** The loop over the spans adds to the names found so far the texts that
    are new, each where it first comes. *)
Lemma airline_names_first : forall spans names,
  airline_names spans names
  = (names
     ++ filter (fun u => negb (str_in u names))
          (first_texts (filter str_nonempty (map normalise spans))))%list.
Proof.
  induction spans as [|text rest IH]; intros names.
  - cbn. now rewrite app_nil_r.
  - cbn [airline_names map filter].
    destruct (str_nonempty (normalise text)) eqn:Ene; cbn [andb].
    + cbn [first_texts filter].
      destruct (str_in (normalise text) names) eqn:Ein; cbn [negb].
      * rewrite IH, filter_filter. f_equal. apply filter_ext. intros u.
        destruct (u =? normalise text)%string eqn:Eu; cbn [negb andb]; [|reflexivity].
        apply String.eqb_eq in Eu. subst u. now rewrite Ein.
      * rewrite IH, filter_filter, <- app_assoc. cbn [app]. do 2 f_equal.
        apply filter_ext. intros u. rewrite str_in_app. unfold str_in at 2.
        cbn [existsb]. rewrite orb_false_r, Bool.negb_orb. apply andb_comm.
    + apply IH.
Qed.

(** X19.  For a card that has an airline block, [extract_airlines] joins
    with [" + "] the texts of the spans of the block, normalised, the empty
    ones left out and each one once, where it first comes; when no span has a
    text, it returns the normalised text of the block itself.  The final
    [Unknown] of line 213 is not reached. *)
Theorem extract_airlines_names
    (container : card_content) (spans : list string) (block_text : string) :
  airline_block container = Some (spans, block_text) ->
  let names := first_texts (filter str_nonempty (map normalise spans)) in
  (names <> [] -> extract_airlines container = join " + " names)
  /\ (names = [] -> extract_airlines container = normalise block_text).
Proof.
  intros Hb names. unfold extract_airlines. rewrite Hb.
  rewrite airline_names_first. cbn [app].
  rewrite <- (filter_ext (fun _ => true)) by reflexivity.
  assert (E : filter (fun _ : string => true) names = names).
  { clear. induction names as [|a l IH]; [reflexivity|]. cbn [filter]. now rewrite IH. }
  fold names. rewrite E.
  split; intros H.
  - destruct names; [congruence | reflexivity].
  - rewrite H. reflexivity.
Qed.

End AirlineFacts.

(** A block whose spans name two airlines, one of them twice. *)
Lemma extract_airlines_names_witness :
  (["Garuda Indonesia"; "Citilink"] <> [] ->
   extract_airlines (U := nfkc_ascii) codeshare_card
   = join " + " ["Garuda Indonesia"; "Citilink"])
  /\ (["Garuda Indonesia"; "Citilink"] = [] ->
      extract_airlines (U := nfkc_ascii) codeshare_card = "Garuda Indonesia, Citilink").
Proof.
  exact (extract_airlines_names (U := nfkc_ascii) codeshare_card
           ["Garuda Indonesia"; " "; "Citilink"; "Garuda Indonesia "]
           "Garuda Indonesia, Citilink" eq_refl).
Defined.

Example codeshare_card_airlines :
  extract_airlines (U := nfkc_ascii) codeshare_card = "Garuda Indonesia + Citilink".
Proof. vm_compute. reflexivity. Qed.

(* ----------------------------------------------------------------- *)
(** *** [normalise] *)

Lemma string_length_ind (P : string -> Prop) :
  (forall s, (forall t, (String.length t < String.length s)%nat -> P t) -> P s) ->
  forall s, P s.
Proof.
  intros H s.
  assert (K : forall n t, (String.length t < n)%nat -> P t).
  { induction n as [|n IH]; intros t Ht; [lia|].
    apply H. intros u Hu. apply IH. lia. }
  exact (K (S (String.length s)) s (Nat.lt_succ_diag_r _)).
Qed.

Lemma ascii_eq_cases (c k : ascii) : {c = k} + {(c =? k)%char = false}.
Proof.
  destruct (c =? k)%char eqn:E; [left; now apply Ascii.eqb_eq | now right].
Qed.

(** The equations of [space_before_offset]. *)
Lemma space_before_offset_match a d r :
  ((a =? "A") || (a =? "P"))%char = true -> is_digit d = true ->
  space_before_offset (String a (String "M" (String "+" (String d r))))
  = String a (String "M" (String " " (String "+" (String d (space_before_offset r))))).
Proof. intros Ha Hd. cbn [space_before_offset]. now rewrite Ha, Hd. Qed.

Lemma offset_at_shape s :
  offset_at s = true ->
  exists a d r,
    s = String a (String "M" (String "+" (String d r)))
    /\ ((a =? "A") || (a =? "P"))%char = true /\ is_digit d = true.
Proof.
  destruct s as [|a [|c1 [|c2 [|d r]]]]; try discriminate.
  - destruct c1 as [[] [] [] [] [] [] [] []]; discriminate.
  - destruct c1 as [[] [] [] [] [] [] [] []]; try discriminate.
    destruct c2 as [[] [] [] [] [] [] [] []]; discriminate.
  - destruct (ascii_eq_cases c1 "M") as [-> | N1].
    + destruct (ascii_eq_cases c2 "+") as [-> | N2].
      * cbn. intros H. apply andb_prop in H. now exists a, d, r.
      * intros H. exfalso. revert N2 H.
        destruct c2 as [[] [] [] [] [] [] [] []]; cbn; intros; discriminate.
    + intros H. exfalso. revert N1 H.
      destruct c1 as [[] [] [] [] [] [] [] []]; cbn; intros; discriminate.
Qed.

Lemma space_before_offset_unfold a r :
  space_before_offset (String a r)
  = match r with
    | String "M" (String "+" (String d r')) =>
        if ((a =? "A") || (a =? "P"))%char && is_digit d then
          String a (String "M" (String " " (String "+" (String d (space_before_offset r')))))
        else String a (space_before_offset r)
    | _ => String a (space_before_offset r)
    end.
Proof. reflexivity. Qed.

Lemma space_before_offset_other a r :
  offset_at (String a r) = false ->
  space_before_offset (String a r) = String a (space_before_offset r).
Proof.
  rewrite space_before_offset_unfold.
  generalize (space_before_offset r) as rest. intros rest.
  destruct r as [|c1 [|c2 [|d r]]].
  - reflexivity.
  - intros _. destruct c1 as [[] [] [] [] [] [] [] []]; reflexivity.
  - intros _. destruct c1 as [[] [] [] [] [] [] [] []]; try reflexivity.
    destruct c2 as [[] [] [] [] [] [] [] []]; reflexivity.
  - generalize (space_before_offset r) as rest'. intros rest'.
    destruct (ascii_eq_cases c1 "M") as [-> | N1].
    + destruct (ascii_eq_cases c2 "+") as [-> | N2].
      * cbn [offset_at]. now intros ->.
      * intros _. revert N2.
        destruct c2 as [[] [] [] [] [] [] [] []]; intros N2;
          first [discriminate N2 | reflexivity].
    + intros _. revert N1.
      destruct c1 as [[] [] [] [] [] [] [] []]; intros N1;
        first [discriminate N1 | reflexivity].
Qed.

Lemma offset_at_first a r :
  ((a =? "A") || (a =? "P"))%char = false -> offset_at (String a r) = false.
Proof.
  intros Ha. destruct (offset_at (String a r)) eqn:E; [|reflexivity].
  destruct (offset_at_shape _ E) as (a' & d & r' & Es & Ha' & _).
  injection Es as <- _. congruence.
Qed.

Lemma space_before_offset_first c r :
  exists t, space_before_offset (String c r) = String c t.
Proof.
  destruct (offset_at (String c r)) eqn:E.
  - destruct (offset_at_shape _ E) as (a & d & r' & Es & Ha & Hd).
    injection Es as <- ->. rewrite space_before_offset_match by assumption.
    eexists; reflexivity.
  - rewrite space_before_offset_other by exact E. eexists; reflexivity.
Qed.

Lemma space_before_offset_inv c r t :
  space_before_offset r = String c t ->
  exists r', r = String c r'.
Proof.
  destruct r as [|c' r']; [discriminate|].
  destruct (space_before_offset_first c' r') as [t' E]. rewrite E.
  intros [= -> _]. now exists r'.
Qed.

Lemma space_before_offset_M r :
  space_before_offset (String "M" r) = String "M" (space_before_offset r).
Proof. apply space_before_offset_other, offset_at_first. reflexivity. Qed.

Lemma space_before_offset_plus r :
  space_before_offset (String "+" r) = String "+" (space_before_offset r).
Proof. apply space_before_offset_other, offset_at_first. reflexivity. Qed.

Lemma offset_at_space_before_offset a r :
  offset_at (String a (space_before_offset r)) = offset_at (String a r).
Proof.
  destruct (offset_at (String a r)) eqn:E.
  - destruct (offset_at_shape _ E) as (a' & d & r3 & Es & Ha & Hd).
    injection Es as <- ->.
    rewrite space_before_offset_M, space_before_offset_plus.
    destruct (space_before_offset_first d r3) as [t ->].
    cbn. now rewrite Ha, Hd.
  - destruct (offset_at (String a (space_before_offset r))) eqn:E'; [|reflexivity].
    destruct (offset_at_shape _ E') as (a' & d & t & Es & Ha & Hd).
    injection Es as <- Es.
    destruct (space_before_offset_inv _ _ _ Es) as [r1 ->].
    rewrite space_before_offset_M in Es. injection Es as Es.
    destruct (space_before_offset_inv _ _ _ Es) as [r2 ->].
    rewrite space_before_offset_plus in Es. injection Es as Es.
    destruct (space_before_offset_inv _ _ _ Es) as [r3 ->].
    cbn in E. rewrite Ha, Hd in E. discriminate.
Qed.

Lemma space_before_offset_idempotent : forall s,
  space_before_offset (space_before_offset s) = space_before_offset s.
Proof.
  apply string_length_ind. intros [|a r] IH; [reflexivity|].
  destruct (offset_at (String a r)) eqn:E.
  - destruct (offset_at_shape _ E) as (a' & d & r3 & Es & Ha & Hd).
    injection Es as <- ->.
    rewrite space_before_offset_match by assumption.
    rewrite space_before_offset_other by reflexivity.
    rewrite space_before_offset_M.
    rewrite (space_before_offset_other " ") by reflexivity.
    rewrite space_before_offset_plus.
    rewrite (space_before_offset_other d).
    + rewrite IH; [reflexivity | cbn; lia].
    + apply offset_at_first.
      pose proof (forall_ascii
                    (fun c => implb (is_digit c) (negb ((c =? "A") || (c =? "P"))%char))
                    ltac:(vm_compute; reflexivity) d) as K.
      cbv beta in K. rewrite Hd in K. now apply negb_true_iff in K.
  - rewrite space_before_offset_other by exact E.
    rewrite space_before_offset_other
      by (now rewrite offset_at_space_before_offset).
    rewrite IH; [reflexivity | cbn; lia].
Qed.

Lemma space_before_offset_all (p : ascii -> bool) :
  p " "%char = true ->
  forall s, str_all p s = true -> str_all p (space_before_offset s) = true.
Proof.
  intros Hsp. apply (string_length_ind
    (fun s => str_all p s = true -> str_all p (space_before_offset s) = true)).
  intros [|a r] IH Hs; [reflexivity|].
  destruct (offset_at (String a r)) eqn:E.
  - destruct (offset_at_shape _ E) as (a' & d & r3 & Es & Ha & Hd).
    injection Es as <- ->.
    rewrite space_before_offset_match by assumption.
    cbn [str_all] in *. rewrite Hsp.
    repeat (apply andb_prop in Hs; destruct Hs as [? Hs]).
    rewrite IH by (cbn; (lia || assumption)).
    repeat (apply andb_true_intro; split); auto.
  - rewrite space_before_offset_other by exact E.
    cbn [str_all] in *. apply andb_prop in Hs. destruct Hs as [Ha Hr].
    rewrite Ha, IH; [reflexivity | cbn; lia | exact Hr].
Qed.

Lemma space_before_offset_nonempty s :
  str_nonempty s = true -> str_nonempty (space_before_offset s) = true.
Proof.
  destruct s as [|c r]; [discriminate|]. intros _.
  now destruct (space_before_offset_first c r) as [t ->].
Qed.

(* --- white space at the ends --- *)
Lemma lstrip_all p : forall s q, str_all q s = true -> str_all q (lstrip p s) = true.
Proof.
  induction s as [|c r IH]; intros q H; [reflexivity|].
  cbn [lstrip]. destruct (p c); [|exact H].
  cbn in H. apply andb_prop in H. now apply IH.
Qed.

Lemma rstrip_all p : forall s q, str_all q s = true -> str_all q (rstrip p s) = true.
Proof.
  induction s as [|c r IH]; intros q H; [reflexivity|].
  cbn in H. apply andb_prop in H. destruct H as [Hc Hr].
  cbn [rstrip]. pose proof (IH q Hr) as K.
  destruct (rstrip p r) as [|c' r'].
  - destruct (p c); [reflexivity | cbn; now rewrite Hc].
  - cbn [str_all]. now rewrite Hc.
Qed.

Lemma rstrip_idempotent p : forall s, rstrip p (rstrip p s) = rstrip p s.
Proof.
  induction s as [|c r IH]; [reflexivity|].
  cbn [rstrip]. destruct (rstrip p r) as [|c' r'] eqn:E.
  - destruct (p c) eqn:Ec; [reflexivity|]. cbn. now rewrite Ec.
  - cbn [rstrip]. cbn [rstrip] in IH. rewrite IH. reflexivity.
Qed.

Lemma lstrip_first p s : lstrip p (lstrip p s) = lstrip p s.
Proof.
  induction s as [|c r IH]; [reflexivity|].
  cbn [lstrip]. destruct (p c) eqn:E; [exact IH|]. cbn. now rewrite E.
Qed.

Lemma lstrip_fixed p s : lstrip p s = s <-> stops p s.
Proof.
  destruct s as [|c r]; [now split|]. cbn. split.
  - destruct (p c) eqn:E; [|reflexivity]. intros H.
    assert (K : (String.length (lstrip p r) <= String.length r)%nat).
    { clear. induction r as [|x r IH]; cbn; [lia|]. destruct (p x); cbn; lia. }
    rewrite H in K. cbn in K. lia.
  - now intros ->.
Qed.

Lemma strip_fixed s : strip (strip s) = strip s.
Proof.
  unfold strip.
  assert (H : lstrip is_space (rstrip is_space (lstrip is_space s))
              = rstrip is_space (lstrip is_space s)).
  { apply lstrip_fixed.
    pose proof (proj1 (lstrip_fixed is_space (lstrip is_space s)) (lstrip_first _ _)) as K.
    destruct (lstrip is_space s) as [|c r]; [exact I|].
    cbn in K. rewrite rstrip_keep by exact K. exact K. }
  rewrite H. apply rstrip_idempotent.
Qed.

Lemma rstrip_tail p c s :
  rstrip p (String c s) = String c s -> str_nonempty s = true -> rstrip p s = s.
Proof.
  cbn [rstrip]. destruct (rstrip p s) as [|c' r'].
  - destruct s; [discriminate|]. destruct (p c); discriminate.
  - now intros [= ->].
Qed.

Lemma rstrip_cons p c s :
  rstrip p s = s -> str_nonempty s = true -> rstrip p (String c s) = String c s.
Proof.
  intros H Hne. cbn [rstrip]. rewrite H. now destruct s.
Qed.

Lemma rstrip_space_before_offset : forall s,
  rstrip is_space s = s ->
  rstrip is_space (space_before_offset s) = space_before_offset s.
Proof.
  apply (string_length_ind
    (fun s => rstrip is_space s = s ->
              rstrip is_space (space_before_offset s) = space_before_offset s)).
  intros [|a r] IH Hs; [reflexivity|].
  destruct (offset_at (String a r)) eqn:E.
  - destruct (offset_at_shape _ E) as (a' & d & r3 & Es & Ha & Hd).
    injection Es as <- ->.
    rewrite space_before_offset_match by assumption.
    assert (Hd' : rstrip is_space (String d (space_before_offset r3))
                  = String d (space_before_offset r3)).
    { destruct r3 as [|c r4].
      - cbn. now rewrite digit_not_space.
      - apply rstrip_cons; [|now apply space_before_offset_nonempty].
        apply IH; [cbn; lia|].
        do 4 (apply rstrip_tail in Hs; [|reflexivity]). exact Hs. }
    do 4 (apply rstrip_cons; [|reflexivity]). exact Hd'.
  - rewrite space_before_offset_other by exact E.
    destruct r as [|c r'].
    + exact Hs.
    + apply rstrip_cons; [|now apply space_before_offset_nonempty].
      apply IH; [cbn; lia|]. now apply rstrip_tail in Hs.
Qed.

Lemma strip_space_before_offset s :
  strip s = s -> strip (space_before_offset s) = space_before_offset s.
Proof.
  intros H. unfold strip in *.
  assert (Hl : lstrip is_space s = s).
  { apply lstrip_fixed. destruct s as [|c r]; [exact I|]. cbn.
    destruct (is_space c) eqn:E; [|reflexivity]. exfalso.
    cbn [lstrip] in H. rewrite E in H.
    assert (K : forall p t, (String.length (rstrip p t) <= String.length t)%nat).
    { clear. intros p. induction t as [|x t IH]; cbn; [lia|].
      destruct (rstrip p t); [destruct (p x)|]; cbn in *; lia. }
    assert (K' : forall p t, (String.length (lstrip p t) <= String.length t)%nat).
    { clear. intros p. induction t as [|x t IH]; cbn; [lia|]. destruct (p x); cbn; lia. }
    pose proof (K is_space (lstrip is_space r)). pose proof (K' is_space r).
    rewrite H in *. cbn in *. lia. }
  rewrite Hl in H.
  assert (Hl' : lstrip is_space (space_before_offset s) = space_before_offset s).
  { apply lstrip_fixed. apply lstrip_fixed in Hl. destruct s as [|c r]; [exact I|].
    now destruct (space_before_offset_first c r) as [t ->]. }
  rewrite Hl'. now apply rstrip_space_before_offset.
Qed.

Lemma replace_char_all old new s :
  (new =? old)%char = false ->
  str_all (fun c => negb (c =? old)%char) (replace_char old new s) = true.
Proof.
  intros H. induction s as [|c r IH]; [reflexivity|].
  cbn. rewrite IH, Bool.andb_true_r.
  destruct (c =? old)%char eqn:E; [now rewrite H | now rewrite E].
Qed.

Lemma replace_char_none old new s :
  str_all (fun c => negb (c =? old)%char) s = true -> replace_char old new s = s.
Proof.
  induction s as [|c r IH]; [reflexivity|].
  cbn. intros H. apply andb_prop in H. destruct H as [Hc Hr].
  apply negb_true_iff in Hc. now rewrite Hc, IH.
Qed.

Section NormaliseFacts.

Context {U : Unicodedata}.

(** X20.  A text that [normalise] returns has no white space at its ends
    and no no-break space, and every day offset that follows [AM] or [PM] in
    it has its space already; so that normalising it again changes nothing,
    as soon as NFKC leaves it as it is. *)
Theorem normalise_clean (text : string) :
  strip (normalise text) = normalise text
  /\ str_all not_no_break_space (normalise text) = true
  /\ space_before_offset (normalise text) = normalise text
  /\ (normalize_NFKC (normalise text) = normalise text ->
      normalise (normalise text) = normalise text).
Proof.
  assert (H1 : strip (normalise text) = normalise text).
  { unfold normalise. apply strip_space_before_offset, strip_fixed. }
  assert (H2 : str_all not_no_break_space (normalise text) = true).
  { unfold normalise. apply space_before_offset_all; [reflexivity|].
    unfold strip. apply rstrip_all, lstrip_all.
    apply (replace_char_all (ascii_of_N 160) " "). reflexivity. }
  assert (H3 : space_before_offset (normalise text) = normalise text).
  { unfold normalise. apply space_before_offset_idempotent. }
  split; [exact H1|]. split; [exact H2|]. split; [exact H3|].
  intros Hn. unfold normalise at 1. rewrite Hn.
  rewrite (replace_char_none (ascii_of_N 160) " ") by exact H2.
  now rewrite H1, H3.
Qed.

End NormaliseFacts.

Example normalise_arrival_time :
  normalise (U := nfkc_ascii) "  6:00 AM+1 " = "6:00 AM +1".
Proof. vm_compute. reflexivity. Qed.

(* ----------------------------------------------------------------- *)
(** *** From the page to the table *)

Section Pipeline.

Context {U : Unicodedata}.

Lemma tanggal_of_row row target_date :
  get (normalise_output_row row target_date) "Tanggal"
  = or_else (get row "departure_date") (VStr (isoformat target_date)).
Proof. reflexivity. Qed.

(** X21.  Lines 543-544 of [main]: in the rows made of the harvest of a
    date, the column [Tanggal] always holds an ISO date of the year of that
    date: the date read on the card, which is a date of that year, and the
    date itself when the card gave none. *)
Theorem harvest_row_date
    (fuel : nat) (d : driver) (max_results : Z) (target_date : date)
    (raw_rows : list dict) :
  valid_date target_date = true ->
  gather_cards fuel d max_results (year target_date) = Some (Ok raw_rows) ->
  forall final, In final (normalise_output_rows raw_rows target_date) ->
  exists t,
    valid_date t = true /\ year t = year target_date
    /\ get final "Tanggal" = VStr (isoformat t).
Proof.
  intros Hv H final Hin. unfold normalise_output_rows in Hin.
  apply in_map_iff in Hin. destruct Hin as (row & <- & Hrow).
  assert (Hy : 1 <= year target_date <= 9999) by (now apply valid_date_spec in Hv).
  destruct (gather_cards_rows_extracted _ _ _ d raw_rows H row Hrow) as (c & Hc).
  destruct (extract_row_facts _ _ _ _ Hy Hc)
    as [(a1 & a2 & a3 & dep & a5 & arr & a7 & a8 & a9 & E & Hd & _)
       | [E | [[E _] | [E _]]]];
    try discriminate.
  injection E as ->.
  rewrite tanggal_of_row.
  change (get _ "departure_date") with (VStr dep).
  unfold or_else, truthy. destruct (str_nonempty dep) eqn:Ed.
  - destruct (in_year_nonempty _ _ Hd Ed) as (t & Vt & Yt & ->). now exists t.
  - now exists target_date.
Qed.

End Pipeline.

(* ----------------------------------------------------------------- *)
(** *** What the cap cuts *)

Section HarvestCap.

Context {U : Unicodedata}.

Variables (fuel : nat) (travel_year : Z).

(** The records only grow. *)
Lemma scan_cards_appends max_results : forall cards seen_ids results out,
  scan_cards fuel cards max_results travel_year seen_ids results = Some (Ok out) ->
  exists more,
    match out with
    | Scanned _ results' => results' = (results ++ more)%list
    | Returned results' => results' = (results ++ more)%list
    end.
Proof.
  induction cards as [|c rest IH]; intros seen_ids results out Hscan.
  - cbn in Hscan. injection Hscan as <-. exists []. now rewrite app_nil_r.
  - cbn [scan_cards] in Hscan.
    destruct (data_id c) as [|i]; [discriminate|].
    destruct (id_in i seen_ids); [exact (IH _ _ _ Hscan)|].
    destruct (extract_row fuel c travel_year) as [[row|e]|]; [| |discriminate].
    + destruct (negb (max_results =? 0) && _).
      * injection Hscan as <-. now exists [row].
      * destruct (IH _ _ _ Hscan) as [more Hm]. exists (row :: more).
        destruct out; rewrite Hm, <- app_assoc; reflexivity.
    + destruct e; try discriminate. exact (IH _ _ _ Hscan).
Qed.

Lemma harvest_appends max_results page : forall passes i seen_ids results rows,
  harvest passes fuel page i max_results travel_year seen_ids results = Some (Ok rows) ->
  exists more, rows = (results ++ more)%list.
Proof.
  induction passes as [|passes IH]; intros i seen_ids results rows Hrun; [discriminate|].
  cbn [harvest] in Hrun.
  destruct (scan_cards fuel (found_cards (page i)) max_results travel_year seen_ids results)
    as [[out|e]|] eqn:Hscan; try discriminate.
  destruct (scan_cards_appends _ _ _ _ _ Hscan) as [more Hm].
  assert (Hnext : forall s r, r = (results ++ more)%list ->
             harvest passes fuel page (S i) max_results travel_year s r = Some (Ok rows) ->
             exists more', rows = (results ++ more')%list).
  { intros s r -> K. destruct (IH _ _ _ _ K) as [more' ->].
    exists (more ++ more')%list. now rewrite app_assoc. }
  destruct out as [seen_ids' results'|results'].
  - destruct (clicked_more (more_controls (page i))) as [[|]|e];
      [exact (Hnext _ _ Hm Hrun) | | discriminate].
    destruct (recount (page i) <=? List.length (found_cards (page i)))%nat;
      [|exact (Hnext _ _ Hm Hrun)].
    injection Hrun as <-. now exists more.
  - injection Hrun as <-. now exists more.
Qed.

Variable max_results : Z.

Hypothesis capped : max_results <> 0.

(** A scan that the cap does not end is the scan without cap; a scan that the
    cap ends stops at the cap, and the scan without cap goes on from there. *)
Lemma scan_cards_uncapped : forall cards seen_ids results out,
  Z.of_nat (List.length results) < Z.max 1 max_results ->
  scan_cards fuel cards max_results travel_year seen_ids results = Some (Ok out) ->
  match out with
  | Scanned seen_ids' results' =>
      scan_cards fuel cards 0 travel_year seen_ids results
      = Some (Ok (Scanned seen_ids' results'))
      /\ Z.of_nat (List.length results') < Z.max 1 max_results
  | Returned results' =>
      Z.of_nat (List.length results') = Z.max 1 max_results
      /\ forall full,
           scan_cards fuel cards 0 travel_year seen_ids results = Some (Ok full) ->
           exists seen_ids' more, full = Scanned seen_ids' (results' ++ more)%list
  end.
Proof.
  induction cards as [|c rest IH]; intros seen_ids results out Hlen Hscan.
  - cbn in Hscan. injection Hscan as <-. now split.
  - cbn [scan_cards] in *.
    destruct (data_id c) as [|i]; [discriminate|].
    destruct (id_in i seen_ids); [exact (IH _ _ _ Hlen Hscan)|].
    destruct (extract_row fuel c travel_year) as [[row|e]|]; [| |discriminate].
    + change (negb (0 =? 0) && (0 <=? Z.of_nat (List.length (results ++ [row]))))
        with false. cbv iota.
      destruct (negb (max_results =? 0)
                && (max_results <=? Z.of_nat (List.length (results ++ [row])))) eqn:Hcap.
      * injection Hscan as <-.
        apply andb_prop in Hcap. destruct Hcap as [_ Hcap]. apply Z.leb_le in Hcap.
        rewrite length_app in *. cbn [List.length] in *. split; [lia|].
        intros full Hfull.
        destruct (scan_cards_appends 0 _ _ _ _ Hfull) as [more Hm].
        destruct full as [s r|r].
        -- exists s, more. now rewrite Hm.
        -- exfalso. clear - Hfull.
           revert Hfull. generalize (i :: seen_ids) as s1.
           generalize (results ++ [row])%list as r1.
           induction rest as [|c' rest' IH']; intros r0 s0 K; [discriminate|].
           cbn [scan_cards] in K.
           destruct (data_id c') as [|i']; [discriminate|].
           destruct (id_in i' s0); [exact (IH' _ _ K)|].
           destruct (extract_row fuel c' travel_year) as [[row'|e']|]; [| |discriminate].
           ++ change (negb (0 =? 0) && (0 <=? Z.of_nat (List.length (r0 ++ [row']))))
                with false in K. exact (IH' _ _ K).
           ++ destruct e'; try discriminate. exact (IH' _ _ K).
      * apply IH; [|exact Hscan].
        apply andb_false_iff in Hcap. destruct Hcap as [Hcap | Hcap].
        -- apply negb_false_iff, Z.eqb_eq in Hcap. contradiction.
        -- apply Z.leb_gt in Hcap. lia.
    + destruct e; try discriminate. exact (IH _ _ _ Hlen Hscan).
Qed.

Lemma harvest_uncapped page : forall passes i seen_ids results rows full,
  Z.of_nat (List.length results) < Z.max 1 max_results ->
  harvest passes fuel page i max_results travel_year seen_ids results = Some (Ok rows) ->
  harvest passes fuel page i 0 travel_year seen_ids results = Some (Ok full) ->
  exists more,
    full = (rows ++ more)%list
    /\ (more = [] \/ Z.of_nat (List.length rows) = Z.max 1 max_results).
Proof.
  induction passes as [|passes IH]; intros i seen_ids results rows full Hlen Hrun Hfull;
    [discriminate|].
  cbn [harvest] in Hrun, Hfull.
  destruct (scan_cards fuel (found_cards (page i)) max_results travel_year seen_ids results)
    as [[out|e]|] eqn:Hscan; try discriminate.
  pose proof (scan_cards_uncapped _ _ _ _ Hlen Hscan) as Hout.
  destruct out as [seen_ids' results'|results'].
  - destruct Hout as [E Hlen']. rewrite E in Hfull.
    destruct (clicked_more (more_controls (page i))) as [[|]|e];
      [exact (IH _ _ _ _ _ Hlen' Hrun Hfull) | | discriminate].
    destruct (recount (page i) <=? List.length (found_cards (page i)))%nat;
      [|exact (IH _ _ _ _ _ Hlen' Hrun Hfull)].
    injection Hrun as <-. injection Hfull as <-. exists []. rewrite app_nil_r. auto.
  - injection Hrun as <-. destruct Hout as [Hcut Hgo].
    destruct (scan_cards fuel (found_cards (page i)) 0 travel_year seen_ids results)
      as [[out0|e0]|] eqn:Hscan0; try discriminate.
    destruct (Hgo out0 eq_refl) as (s & more & ->).
    assert (Hrest : exists more', full = ((results' ++ more) ++ more')%list).
    { destruct (clicked_more (more_controls (page i))) as [[|]|e];
        [exact (harvest_appends _ _ _ _ _ _ _ Hfull) | | discriminate].
      destruct (recount (page i) <=? List.length (found_cards (page i)))%nat;
        [|exact (harvest_appends _ _ _ _ _ _ _ Hfull)].
      injection Hfull as <-. exists []. now rewrite app_nil_r. }
    destruct Hrest as [more' ->]. exists (more ++ more')%list.
    split; [now rewrite app_assoc | now right].
Qed.

(** X22.  The cap only cuts: the records of a harvest with a cap are the
    first records of the harvest of the same page without cap, and they are
    all of them unless the cap was reached. *)
Theorem gather_cards_cap_cuts (d : driver) (rows full : list dict) :
  gather_cards fuel d max_results travel_year = Some (Ok rows) ->
  gather_cards fuel d 0 travel_year = Some (Ok full) ->
  exists more,
    full = (rows ++ more)%list
    /\ (more = [] \/ Z.of_nat (List.length rows) = Z.max 1 max_results).
Proof.
  unfold gather_cards. destruct (cards_present d).
  - apply harvest_uncapped. cbn. lia.
  - intros [= <-] [= <-]. exists []. auto.
Qed.

End HarvestCap.

(* ----------------------------------------------------------------- *)
(** *** The year read back from a rewritten URL *)

Lemma encode_tfs_cons3 a b c rest :
  encode_tfs (a :: b :: c :: rest)
  = String (ascii_of_byte (b64char (sextet1 a)))
      (String (ascii_of_byte (b64char (sextet2 a b)))
         (String (ascii_of_byte (b64char (sextet3 b c)))
            (String (ascii_of_byte (b64char (sextet4 c))) (encode_tfs rest)))).
Proof.
  unfold encode_tfs, decode_ascii.
  destruct (b64char_not_pad a b) as (N1 & N2 & _).
  destruct (b64char_not_pad b c) as (_ & _ & N3 & _).
  destruct (b64char_not_pad c c) as (_ & _ & _ & N4).
  rewrite urlsafe_b64encode_cons3, !string_of_list_byte_cons.
  now rewrite (rstrip_keep _ _ _ N1), (rstrip_keep _ _ _ N2), (rstrip_keep _ _ _ N3),
    (rstrip_keep _ _ _ N4).
Qed.

Lemma encode_tfs_app : forall head rest,
  (List.length head mod 3 = 0)%nat ->
  encode_tfs (head ++ rest) = encode_tfs head ++ encode_tfs rest.
Proof.
  induction head as [|a|a b|a b c head IH] using list_ind3; intros rest H.
  - reflexivity.
  - discriminate.
  - discriminate.
  - cbn [app]. rewrite !encode_tfs_cons3. cbn [append]. rewrite IH; [reflexivity|].
    cbn [List.length] in H.
    replace (S (S (S (List.length head)))) with (List.length head + 1 * 3)%nat in H by lia.
    now rewrite Nat.Div0.mod_add in H.
Qed.

Lemma strip_prefix_straddle s rest :
  strip_prefix "Egoy" s = None -> str_nonempty s = true ->
  strip_prefix "Egoy" (s ++ "Egoy" ++ rest) = None.
Proof.
  destruct s as [|c1 [|c2 [|c3 [|c4 s]]]]; try discriminate; intros H _;
    cbn [strip_prefix append] in *;
    repeat match goal with
           | |- context [(?a =? ?b)%char] =>
               first [ change (a =? b)%char with false; cbv iota
                     | destruct (a =? b)%char ]
           end; try reflexivity; try discriminate.
Qed.

Lemma strip_prefix_contains sub c s :
  contains sub (String c s) = false -> strip_prefix sub (String c s) = None.
Proof.
  unfold contains. cbn [find_sub]. now destruct (strip_prefix sub (String c s)).
Qed.

Lemma search_year_chunk_after text c5 c6 c7 c8 rest :
  contains "Egoy" text = false ->
  base64url_char c5 = true -> base64url_char c6 = true ->
  base64url_char c7 = true -> base64url_char c8 = true ->
  search_year_chunk
    (text ++ "Egoy" ++ String c5 (String c6 (String c7 (String c8 rest))))
  = Some ("Egoy" ++ String c5 (String c6 (String c7 (String c8 "")))).
Proof.
  intros Hno H5 H6 H7 H8. induction text as [|c text IH].
  - cbn. now rewrite H5, H6, H7, H8.
  - change (String c text ++ ?x) with (String c (text ++ x)).
    cbn [search_year_chunk]. unfold match_year_chunk at 1.
    change (String c (text ++ ?x)) with (String c text ++ x).
    rewrite strip_prefix_straddle;
      [| now apply strip_prefix_contains | reflexivity].
    apply IH. exact (contains_tail _ _ _ Hno).
Qed.

Lemma centuries_ok y : 2000 <= y <= 2099 -> century_ok y = true.
Proof.
  apply (forallb_Zseq century_ok 2000 2099). vm_compute. reflexivity.
Qed.

Lemma year_chunk_decodes y2 y3 y4 :
  urlsafe_b64decode
    (string_of_list_byte (urlsafe_b64encode [x12; x0a; "2"%byte; y2; y3; y4]))
  = Some [x12; x0a; "2"%byte; y2; y3; y4].
Proof.
  unfold urlsafe_b64decode, encode_ascii.
  rewrite urlsafe_b64encode_ascii, list_byte_of_string_of_list_byte.
  apply a2b_b2a.
Qed.

Lemma year_of_digits c3 c4 :
  byte_is_digit c3 = true -> byte_is_digit c4 = true ->
  int_of_str (decode_ascii ["2"%byte; "0"%byte; c3; c4])
  = Some (2000 + 10 * (Z.of_N (Byte.to_N c3) - 48) + (Z.of_N (Byte.to_N c4) - 48)).
Proof.
  intros H3 H4. pose proof (years_digits_ok c3 c4) as H. unfold year_digits_ok in H.
  rewrite H3, H4 in H. cbn [andb negb orb] in H.
  destruct (int_of_str (decode_ascii ["2"%byte; "0"%byte; c3; c4])) as [n|];
    [|discriminate].
  apply Z.eqb_eq in H. now subst.
Qed.

Lemma search_year_of_field c3 c4 :
  byte_is_digit c3 = true -> byte_is_digit c4 = true ->
  search_year [x12; x0a; "2"%byte; "0"%byte; c3; c4]
  = Some ["2"%byte; "0"%byte; c3; c4].
Proof. intros H3 H4. cbn. now rewrite H3, H4. Qed.

Section YearOfRewrittenUrl.

Context {L : Urllib} {F : Strftime}.

(** X23.  The year that [extract_year_from_url] reads in a URL written by
    [build_url_for_date] is the year of the date written, for a date of this
    century and a blob laid out like that of the default URL: the date right
    after the two bytes that open its field, the field at a multiple of three
    bytes, and no [Egoy] in the text before it; [urllib.parse] is to read
    back the URL written ([reads_back]). *)
Theorem extract_year_of_rewritten_url
    (base_url : string) (target_date : date)
    (tfs_value : string) (head rest : list byte) :
  valid_date target_date = true ->
  2000 <= year target_date <= 2099 ->
  tfs_value_of base_url = Ok (Some tfs_value) ->
  decode_tfs tfs_value = Some (head ++ date_field_tag ++ rest)%list ->
  (List.length head mod 3 = 0)%nat ->
  search_date (head ++ date_field_tag ++ rest) = Some (List.length head + 2)%nat ->
  contains "Egoy" (encode_tfs head) = false ->
  reads_back base_url
    (encode_tfs (replace_date (head ++ date_field_tag ++ rest)
                   (List.length head + 2) target_date)) ->
  exists url,
    build_url_for_date base_url target_date = Ok url
    /\ extract_year_from_url url = Ok (Some (year target_date)).
Proof.
  intros V Hy Ht Hd Hmod Hs Hno Hrb.
  assert (HY : 1000 <= year target_date <= 9999) by lia.
  set (decoded := (head ++ date_field_tag ++ rest)%list) in *.
  set (start := (List.length head + 2)%nat) in *.
  (* the bytes of the date *)
  pose proof (centuries_ok _ Hy) as Hc. unfold century_ok in Hc.
  destruct (list_byte_of_string (zero_pad 4 (year target_date)))
    as [|c1 [|c2 [|c3 [|c4 [|c5 l]]]]] eqn:Eyear; try discriminate.
  repeat (apply andb_prop in Hc; destruct Hc as [Hc ?]).
  apply byte_eqb_eq in Hc. subst c1.
  match goal with H : Byte.eqb c2 _ = true |- _ => apply byte_eqb_eq in H; subst c2 end.
  match goal with H : (_ =? year target_date) = true |- _ => apply Z.eqb_eq in H;
    rename H into Eval end.
  assert (Ebytes : exists tail,
             list_byte_of_string (strftime_Y_m_d target_date)
             = "2"%byte :: "0"%byte :: c3 :: c4 :: tail).
  { rewrite (strftime_four_digits _ HY). unfold isoformat.
    rewrite list_byte_of_string_app, Eyear. eexists. reflexivity. }
  destruct Ebytes as [tail Ebytes].
  (* the blob written *)
  assert (Eupd : exists more,
             replace_date decoded start target_date
             = (head ++ x12 :: x0a :: "2"%byte :: "0"%byte :: c3 :: c4 :: more)%list).
  { unfold replace_date. rewrite Ebytes. subst decoded start.
    rewrite firstn_app, firstn_all2 by lia.
    replace (List.length head + 2 - List.length head)%nat with 2%nat by lia.
    cbn [date_field_tag app firstn]. rewrite <- app_assoc. cbn [app].
    eexists. reflexivity. }
  destruct Eupd as [more Eupd].
  (* its text *)
  assert (Etext : exists c5 c6 c7 c8 text,
             encode_tfs (replace_date decoded start target_date)
             = encode_tfs head
               ++ "Egoy" ++ String c5 (String c6 (String c7 (String c8 text)))
             /\ base64url_char c5 = true /\ base64url_char c6 = true
             /\ base64url_char c7 = true /\ base64url_char c8 = true
             /\ "Egoy" ++ String c5 (String c6 (String c7 (String c8 "")))
                = string_of_list_byte
                    (urlsafe_b64encode [x12; x0a; "2"%byte; "0"%byte; c3; c4])).
  { rewrite Eupd, encode_tfs_app by exact Hmod. rewrite !encode_tfs_cons3.
    destruct (group_chars "0"%byte c3) as (C1 & C2 & _).
    destruct (group_chars c3 c4) as (_ & _ & C3 & _).
    destruct (group_chars c4 c4) as (_ & _ & _ & C4).
    apply char_ok_spec in C1, C2, C3, C4.
    do 5 eexists. split; [reflexivity|].
    split; [apply C1|]. split; [apply C2|]. split; [apply C3|]. split; [apply C4|].
    reflexivity. }
  destruct Etext as (c5 & c6 & c7 & c8 & text & Etext & B5 & B6 & B7 & B8 & Echunk).
  (* the URL written and what is read in it *)
  assert (Hne : replace_date decoded start target_date <> []).
  { rewrite Eupd. now destruct head. }
  destruct (build_url_for_date_read _ target_date _ _ _ Ht Hd Hs Hrb) as (url & Hb & Hread).
  exists url. split; [exact Hb|].
  unfold extract_year_from_url. rewrite Hread.
  rewrite (encode_tfs_nonempty _ Hne). cbn [negb].
  rewrite Etext, (search_year_chunk_after _ _ _ _ _ _ Hno B5 B6 B7 B8).
  change (String.length ("Egoy" ++ String c5 (String c6 (String c7 (String c8 "")))))
    with 8%nat.
  change (repeat_char "=" (Z.to_nat ((4 - Z.of_nat 8 mod 4) mod 4))) with "".
  rewrite append_nil_r, Echunk, year_chunk_decodes.
  match goal with H : byte_is_digit c3 = true |- _ => rename H into D3 end.
  match goal with H : byte_is_digit c4 = true |- _ => rename H into D4 end.
  rewrite (search_year_of_field _ _ D3 D4), (year_of_digits _ _ D3 D4).
  now rewrite Eval.
Qed.

End YearOfRewrittenUrl.

(* ----------------------------------------------------------------- *)
(** *** The dates of [--dates] *)







Section DatesGiven.

Context {L : Urllib} {P : Isoparse}.

Variable now_year : Z.



End DatesGiven.


Example planned_dates_given_twice :
  planned_dates (L := urllib_ascii) (P := calendar_isoparse) 2026 dated_args
  = Done [mkdate 2025 12 24; mkdate 2026 1 2].
Proof. vm_compute. reflexivity. Qed.

(* ----------------------------------------------------------------- *)
(** *** Examples *)

(** The table of four flights. *)
Lemma format_output_table_witness :
  format_output final_rows = Some (table final_rows)
  /\ Forall (fun line =>
               String.length line
               = (sum (map (column_width final_rows) headers) + 12)%nat)
       (table final_rows)
  /\ (forall h, In h headers ->
        (String.length h <= column_width final_rows h)%nat
        /\ forall row, In row final_rows ->
             (String.length (cell_text row h) <= column_width final_rows h)%nat).
Proof.
  apply (format_output_table final_rows).
  - discriminate.
  - intros row [<- | [<- | [<- | [<- | []]]]]; reflexivity.
Defined.

Example format_output_two_rows :
  format_output
    [ [("Maskapai", VStr "Citilink"); ("Tanggal", VStr "2025-12-01");
       ("Waktu Berangkat", VStr "7:00 AM"); ("Waktu Datang", VStr "10:00 AM");
       ("Durasi", VStr "2 hr"); ("Transit", VStr "Nonstop");
       ("Harga Tiket", VStr "IDR 950,000")];
      [("Maskapai", VStr "Garuda Indonesia"); ("Tanggal", VStr "2025-12-01");
       ("Waktu Berangkat", VStr "10:00 PM");
       ("Waktu Datang", VStr "6:00 AM +1 (2025-12-02)");
       ("Durasi", VStr "8 hr"); ("Transit", VStr "1 stop");
       ("Harga Tiket", VStr "IDR 1,250,000")] ]
  = Some
      [ "Maskapai          Tanggal     Waktu Berangkat  Waktu Datang             Durasi  Transit  Harga Tiket  ";
        "------------------------------------------------------------------------------------------------------";
        "Citilink          2025-12-01  7:00 AM          10:00 AM                 2 hr    Nonstop  IDR 950,000  ";
        "Garuda Indonesia  2025-12-01  10:00 PM         6:00 AM +1 (2025-12-02)  8 hr    1 stop   IDR 1,250,000" ].
Proof. vm_compute. reflexivity. Qed.

(** The paged harvest, cut at three records. *)
Lemma gather_cards_respects_cap_witness :
  Z.of_nat (List.length capped_rows) <= Z.max 1 3.
Proof.
  apply (gather_cards_respects_cap (U := nfkc_ascii) 2 3 2025 paged_driver capped_rows).
  - discriminate.
  - vm_compute. reflexivity.
Defined.

(** A card whose stops text has 4301 digits. *)
Lemma gather_cards_raises_only_stale_witness :
  (ValueError = StaleElementReferenceException
   /\ ((exists p c, In c (found_cards (pass long_stops_driver p)) /\ data_id c = Stale)
       \/ (exists p elements element,
              In elements (more_controls (pass long_stops_driver p))
              /\ In element elements /\ is_displayed element = Stale)))
  \/ (ValueError = ValueError
      /\ exists p c container,
           In c (found_cards (pass long_stops_driver p)) /\ content c = Got container
           /\ long_digit_run (U := nfkc_ascii) container).
Proof.
  apply (gather_cards_raises_only_stale (U := nfkc_ascii) 2 0 2025 long_stops_driver
           ValueError).
  - lia.
  - vm_compute. reflexivity.
Defined.

(** A card gone stale before its identifier was read, and a "show more"
    element gone stale before [is_displayed] was read on it. *)
Example stale_reads_leave_gather_cards :
  gather_cards (U := nfkc_ascii) 2 stale_driver 0 2025
  = Some (Raise StaleElementReferenceException)
  /\ gather_cards (U := nfkc_ascii) 2 stale_control_driver 0 2025
     = Some (Raise StaleElementReferenceException).
Proof. split; vm_compute; reflexivity. Qed.

Lemma gather_cards_record_dates_witness :
  exists dep_iso arr_iso,
    get (flight_row "IDR 950,000") "departure_date" = VStr dep_iso
    /\ get (flight_row "IDR 950,000") "arrival_date" = VStr arr_iso
    /\ in_year 2025 dep_iso
    /\ (arr_iso = "" \/ exists t, valid_date t = true /\ arr_iso = isoformat t)
    /\ not_before dep_iso arr_iso.
Proof.
  apply (gather_cards_record_dates (U := nfkc_ascii) 2 0 2025 paged_driver paged_rows).
  - lia.
  - vm_compute. reflexivity.
  - right. left. reflexivity.
Defined.

Lemma harvest_table_prints_witness :
  (paged_rows = [] ->
   format_output (normalise_output_rows paged_rows (mkdate 2025 12 1))
   = Some ["No flight results captured."])
  /\ (paged_rows <> [] ->
      format_output (normalise_output_rows paged_rows (mkdate 2025 12 1))
      = Some (table (normalise_output_rows paged_rows (mkdate 2025 12 1)))
      /\ List.length (table (normalise_output_rows paged_rows (mkdate 2025 12 1)))
         = (2 + List.length paged_rows)%nat
      /\ Forall (fun line =>
                   String.length line
                   = (sum (map (column_width
                                  (normalise_output_rows paged_rows (mkdate 2025 12 1)))
                               headers) + 12)%nat)
           (table (normalise_output_rows paged_rows (mkdate 2025 12 1)))).
Proof.
  apply (harvest_table_prints (U := nfkc_ascii) 2 0 2025 paged_driver paged_rows
           (mkdate 2025 12 1)).
  vm_compute. reflexivity.
Defined.

Lemma harvest_transit_column_witness :
  exists stops_text,
    get (flight_row "IDR 950,000") "stops_text" = VStr stops_text
    /\ get (normalise_output_row (flight_row "IDR 950,000") (mkdate 2025 12 1)) "Transit"
       = VStr (if str_nonempty stops_text then stops_text else "Unknown").
Proof.
  apply (harvest_transit_column (U := nfkc_ascii) 2 0 2025 paged_driver paged_rows
           (mkdate 2025 12 1)).
  - vm_compute. reflexivity.
  - right. left. reflexivity.
Defined.

Lemma gather_cards_record_fields_witness :
  exists airlines price departure dep_iso arrival arr_iso duration stops_text stops_count,
    flight_row "IDR 950,000"
    = [ ("airlines", VStr airlines); ("price", VStr price);
        ("departure", VStr departure); ("departure_date", VStr dep_iso);
        ("arrival", VStr arrival); ("arrival_date", VStr arr_iso);
        ("duration", VStr duration); ("stops_text", VStr stops_text);
        ("stops_count", stops_count) ]
    /\ (stops_text = "" -> stops_count = VNone)
    /\ (stops_count = VNone \/ exists n, 0 <= n /\ stops_count = VInt n).
Proof.
  apply (gather_cards_record_fields (U := nfkc_ascii) 2 0 2025 paged_driver paged_rows).
  - vm_compute. reflexivity.
  - right. left. reflexivity.
Defined.

Lemma harvest_row_date_witness :
  exists t,
    valid_date t = true /\ year t = 2025
    /\ get (normalise_output_row (flight_row "IDR 950,000") (mkdate 2025 12 1)) "Tanggal"
       = VStr (isoformat t).
Proof.
  apply (harvest_row_date (U := nfkc_ascii) 2 paged_driver 0 (mkdate 2025 12 1) paged_rows).
  - reflexivity.
  - vm_compute. reflexivity.
  - right. left. reflexivity.
Defined.

(** The paged harvest with a cap of three, beside the harvest without cap. *)
Lemma gather_cards_cap_cuts_witness :
  exists more,
    paged_rows = (capped_rows ++ more)%list
    /\ (more = [] \/ Z.of_nat (List.length capped_rows) = Z.max 1 3).
Proof.
  apply (gather_cards_cap_cuts (U := nfkc_ascii) 2 2025 3 ltac:(discriminate)
           paged_driver capped_rows paged_rows).
  - vm_compute. reflexivity.
  - vm_compute. reflexivity.
Defined.

(** The default URL, written for 15 January 2026. *)
Lemma extract_year_of_rewritten_url_witness :
  exists url,
    build_url_for_date (L := urllib_ascii) (F := strftime_glibc)
      DEFAULT_URL (mkdate 2026 1 15) = Ok url
    /\ extract_year_from_url (L := urllib_ascii) url = Ok (Some 2026).
Proof.
  apply (extract_year_of_rewritten_url (L := urllib_ascii) (F := strftime_glibc)
           DEFAULT_URL (mkdate 2026 1 15) sample_tfs sample_head sample_rest).
  - reflexivity.
  - cbn. lia.
  - vm_compute. reflexivity.
  - vm_compute. reflexivity.
  - reflexivity.
  - vm_compute. reflexivity.
  - vm_compute. reflexivity.
  - vm_compute. reflexivity.
Defined.
